(** * Tour insights dashboard: the aggregation logic of
      [tour-insights-dashboard.py] and the properties of its tables.

    The script is a straight line of dataframe calls: load, merge, group,
    count, sort.  Tables are modelled as lists of typed rows in row order, a
    missing value (NaN, NaT) as [None], a [Series] as an association list
    from index label to value in index order.  The dataframe primitives the
    script calls ([merge], [value_counts], [groupby], [nunique],
    [sort_values], [drop_duplicates], [head], [fillna]) are given once, in
    the first part of the file; the script's own variables are then defined
    from them under the names they have in the source, one definition for
    the four monthly copies of each insight.

    Modelling choices:
    - identifiers and names are strings, dates are (year, month, day, time
      of day);
    - [sort_values] and [value_counts] sort with the default algorithm of
      the library, which promises no order among rows of equal value.  The
      functions [sort_values_desc] and [value_counts] compute one outcome,
      the one of a stable sort; [descending_arrangement] and
      [is_value_counts] describe every outcome.  A property that depends on
      the order of equal values is stated over every outcome;
    - a float cell is a [float64]: a finite value, given by the rational
      it stands for, or one of +inf, -inf, NaN.  Every operation returns
      the exact result rounded to the nearest [float64], ties to even, as
      IEEE 754 arithmetic does. *)

From Stdlib Require Import String Ascii List ZArith QArith Qround Lia Bool.
From Stdlib Require Import Permutation Sorted Lqa.
Import ListNotations.

Local Open Scope string_scope.
Local Open Scope Z_scope.

(* ================================================================== *)
(** * Dataframe primitives *)
(* ================================================================== *)

(** A [Series]: index label and value, in index order. *)
Definition Series (V : Type) : Type := list (string * V).

(** [Series.head(n)] / [DataFrame.head(n)]. *)
Definition head {A : Type} (n : nat) (l : list A) : list A := firstn n l.

(** [dropna]: the present values of a column. *)
Fixpoint dropna {A : Type} (col : list (option A)) : list A :=
  match col with
  | [] => []
  | None :: r => dropna r
  | Some a :: r => a :: dropna r
  end.

Definition sumZ (l : list Z) : Z := fold_right Z.add 0 l.

Section Keyed.
Context {A K : Type}.
Variable key : A -> K.
Variable eqb : K -> K -> bool.

(** [drop_duplicates(subset=key, keep="first")]: the first row of every
    key, in row order. *)
Fixpoint drop_duplicates (l : list A) : list A :=
  match l with
  | [] => []
  | x :: r =>
      x :: filter (fun y => negb (eqb (key y) (key x))) (drop_duplicates r)
  end.

(** Number of rows carrying key [k]. *)
Definition count_key (k : K) (l : list A) : nat :=
  length (filter (fun y => eqb (key y) k) l).

(** Row position of the first row carrying key [k] ([length l] if none). *)
Fixpoint first_pos (k : K) (l : list A) : nat :=
  match l with
  | [] => O
  | x :: r => if eqb (key x) k then O else S (first_pos k r)
  end.

End Keyed.

Section Sorting.
Context {A : Type}.

(** [before y x] holds when row [y] has to come strictly ahead of row [x].
    The sort is the stable one: rows that [before] does not separate keep
    their input order. *)
Variable before : A -> A -> bool.

Fixpoint insert_row (x : A) (l : list A) : list A :=
  match l with
  | [] => [x]
  | y :: r => if before y x then y :: insert_row x r else x :: y :: r
  end.

Definition sort_rows (l : list A) : list A := fold_right insert_row [] l.

End Sorting.

Section SortValues.
Context {A : Type}.
Variable score : A -> Z.

(** The outcomes of a sort in descending order of [score].  [sort_values]
    and [value_counts] sort with the default algorithm of the library,
    which is not a stable one: what is returned is the input rearranged in
    descending order, and rows of equal score come in no promised order. *)
Definition descending_arrangement (l result : list A) : Prop :=
  Permutation l result /\
  StronglySorted (fun a b => score b <= score a) result.

(** [sort_values(by=score, ascending=False)]: one of the outcomes, the one
    that keeps rows of equal score in their input order. *)
Definition sort_values_desc : list A -> list A :=
  sort_rows (fun y x => score x <? score y).

(** Descending by score, and among equal scores in the input order [P]. *)
Definition desc_then (P : A -> A -> Prop) (a b : A) : Prop :=
  score b < score a \/ (score a = score b /\ P a b).

End SortValues.

(** Lexicographic order on the rows' labels, as [groupby] and an outer
    [merge] sort their keys. *)
Definition sort_index {A : Type} (key : A -> string) : list A -> list A :=
  sort_rows (fun y x => String.ltb (key y) (key x)).

(** [left.merge(right, left_on=.., right_on=.., how="left")]: every left row
    once per matching right row, in left order, and once with a missing
    right side when nothing matches. *)
Definition merge_left {L R : Type} (left_on : L -> string)
           (right_on : R -> string) (left : list L) (right : list R)
  : list (L * option R) :=
  flat_map
    (fun l =>
       match filter (fun r => String.eqb (right_on r) (left_on l)) right with
       | [] => [(l, None)]
       | rs => map (fun r => (l, Some r)) rs
       end) left.

(** The counting pass of [Series.value_counts()]: missing values are
    dropped and every distinct value is counted. *)
Definition counts (col : list (option string)) : Series Z :=
  let present := dropna col in
  map (fun k => (k, Z.of_nat (count_key (fun x => x) String.eqb k present)))
      (drop_duplicates (fun x => x) String.eqb present).

(** The outcomes of [Series.value_counts()]: the counts in descending
    order, equal counts in whatever order the sort leaves them. *)
Definition is_value_counts (col : list (option string)) (result : Series Z)
  : Prop :=
  descending_arrangement snd (counts col) result.

(** [Series.value_counts()], as the outcome with equal counts in the order
    in which the values first appear in the column. *)
Definition value_counts (col : list (option string)) : Series Z :=
  sort_values_desc snd (counts col).

(** Parsed dates ([parse_dates], [pd.to_datetime]): year, month, day and
    the time of day, in nanoseconds since midnight.  A cell written as a
    date alone parses to midnight, time [0]; a cell written with a time
    keeps it, so two records of one day at different times are two
    different values. *)
Definition Timestamp : Type := (Z * Z * Z * Z)%type.

Definition Timestamp_eqb (a b : Timestamp) : bool :=
  let '(y1, m1, d1, t1) := a in
  let '(y2, m2, d2, t2) := b in
  (y1 =? y2) && (m1 =? m2) && (d1 =? d2) && (t1 =? t2).

(** [nunique()]: the number of distinct present values. *)
Definition nunique (col : list (option Timestamp)) : Z :=
  Z.of_nat (length (drop_duplicates (fun x => x) Timestamp_eqb (dropna col))).

Definition label_is (k : string) (o : option string) : bool :=
  match o with
  | Some s => String.eqb s k
  | None => false
  end.

(** The group labels of [groupby(by)]: the distinct present labels, sorted. *)
Definition group_labels (by_col : list (option string)) : list string :=
  sort_index (fun x => x)
             (drop_duplicates (fun x => x) String.eqb (dropna by_col)).

(** [df.groupby(by)[col].nunique()]. *)
Definition groupby_nunique {A : Type} (by_col : A -> option string)
           (col : A -> option Timestamp) (df : list A) : Series Z :=
  map (fun k =>
         (k, nunique (map col (filter (fun r => label_is k (by_col r)) df))))
      (group_labels (map by_col df)).

(** [df.groupby(by)[col].sum()]. *)
Definition groupby_sum {A : Type} (by_col : A -> option string)
           (col : A -> Z) (df : list A) : Series Z :=
  map (fun k =>
         (k, sumZ (map col (filter (fun r => label_is k (by_col r)) df))))
      (group_labels (map by_col df)).

(** A series value by label. *)
Fixpoint lookup {V : Type} (k : string) (s : Series V) : option V :=
  match s with
  | [] => None
  | (k', v) :: r => if String.eqb k' k then Some v else lookup k r
  end.

(* ================================================================== *)
(** * The tables of one period *)
(* ================================================================== *)

(** The columns the script reads.  [load_month_data] turns the name, the
    location and the time columns into strings, so these are never missing
    in a loaded table; the other columns can be. *)

Module Bookings.
Record row : Type :=
  { TourID : string; GuideID : string; BookingDate : option Timestamp }.
End Bookings.

Module Tours.
Record row : Type :=
  { id : string; TourName : string; TourLocation : string;
    TimeStart : string; TimeEnd : string;
    Op_Monday : Z; Op_Tuesday : Z; Op_Wednesday : Z; Op_Thursday : Z;
    Op_Friday : Z; Op_Saturday : Z; Op_Sunday : Z }.
End Tours.

Module Guides.
Record row : Type :=
  { id : string; GuideName : string; GuideLocation : string }.
End Guides.

Module Availability.
Record row : Type :=
  { GuideID : string; AvailabilityDate : option Timestamp;
    GuideAvailability : option string }.
End Availability.

(** [YEAR = 2025]. *)
Definition YEAR : Z := 2025.

(** [calendar.monthrange(year, month)[1]]; a month outside 1..12 raises. *)
Definition isleap (year : Z) : bool :=
  (year mod 4 =? 0) && (negb (year mod 100 =? 0) || (year mod 400 =? 0)).

Definition get_days_in_month (month year : Z) : option Z :=
  if (month =? 2) then Some (if isleap year then 29 else 28)
  else if (month =? 4) || (month =? 6) || (month =? 9) || (month =? 11)
       then Some 30
  else if (1 <=? month) && (month <=? 12) then Some 31
  else None.

(* ------------------------------------------------------------------ *)
(** ** Joins *)

Definition bookings_tours (bookings : list Bookings.row)
           (tours : list Tours.row) : list (Bookings.row * option Tours.row) :=
  merge_left Bookings.TourID Tours.id bookings tours.

Definition bookings_merged (bookings : list Bookings.row)
           (tours : list Tours.row) (guides : list Guides.row)
  : list (Bookings.row * option Tours.row * option Guides.row) :=
  merge_left (fun bt => Bookings.GuideID (fst bt)) Guides.id
             (bookings_tours bookings tours) guides.

Definition availability_days_guides (guides : list Guides.row)
           (availability : list Availability.row)
  : list (Guides.row * option Availability.row) :=
  merge_left Guides.id Availability.GuideID guides availability.

(** The columns of the joined frames that the insights read. *)
Definition TourName_of (r : Bookings.row * option Tours.row)
  : option string := option_map Tours.TourName (snd r).

Definition GuideName_of
           (r : Bookings.row * option Tours.row * option Guides.row)
  : option string := option_map Guides.GuideName (snd r).

Definition BookingDate_of
           (r : Bookings.row * option Tours.row * option Guides.row)
  : option Timestamp := Bookings.BookingDate (fst (fst r)).

(* ------------------------------------------------------------------ *)
(** ** Column labels of the merged bookings frame *)

Definition mem (c : string) (l : list string) : bool :=
  existsb (String.eqb c) l.

(** Labels present on both sides get the side's suffix. *)
Definition add_suffix (overlap : list string) (sfx : string) (c : string)
  : string := if mem c overlap then (c ++ sfx)%string else c.

(** [merge] refuses suffixes that make two labels of one side collide when
    they did not collide before. *)
Fixpoint new_duplicate (old new seen_old seen_new : list string) : bool :=
  match old, new with
  | o :: old', n :: new' =>
      (mem n seen_new && negb (mem o seen_old))
      || new_duplicate old' new' (o :: seen_old) (n :: seen_new)
  | _, _ => false
  end.

(** Labels of [left.merge(right, left_on=a, right_on=b)] with [a <> b]:
    both key columns stay, overlapping labels become [_x] and [_y]. *)
Definition merge_columns (left right : list string) : option (list string) :=
  let overlap := filter (fun c => mem c right) left in
  let l' := map (add_suffix overlap "_x") left in
  let r' := map (add_suffix overlap "_y") right in
  if new_duplicate left l' [] [] || new_duplicate right r' [] []
  then None
  else Some (l' ++ r')%list.

(** The renaming loop after the second merge. *)
Definition rename_cols (columns : list string) : list string :=
  map (fun c =>
         if String.eqb c "id_x" then "TourID_Source"
         else if String.eqb c "id_y" then "GuideID_Source"
         else c) columns.

Definition bookings_merged_columns (bookings tours guides : list string)
  : option (list string) :=
  match merge_columns bookings tours with
  | None => None
  | Some bt =>
      match merge_columns bt guides with
      | None => None
      | Some m => Some (rename_cols m)
      end
  end.


Fixpoint distinct (l : list string) : bool :=
  match l with
  | [] => true
  | c :: r => negb (mem c r) && distinct r
  end.


(** The labels that the script reads in the three tables. *)
Definition bookings_labels : list string :=
  ["TourID"; "GuideID"; "BookingDate"].


Definition guides_labels : list string :=
  ["id"; "GuideName"; "GuideLocation"].

(* ------------------------------------------------------------------ *)
(** ** Insights 1 and 3: most booked tours, most active guides *)

Definition top_tours (n : nat) (bt : list (Bookings.row * option Tours.row))
  : Series Z := head n (value_counts (map TourName_of bt)).

Definition top_guides (n : nat)
           (bm : list (Bookings.row * option Tours.row * option Guides.row))
  : Series Z := head n (value_counts (map GuideName_of bm)).

(** The tables [value_counts().head(n)] may return for the two insights,
    whatever the order among equal counts. *)
Definition is_top_tours (n : nat)
           (bt : list (Bookings.row * option Tours.row)) (result : Series Z)
  : Prop :=
  exists vc, is_value_counts (map TourName_of bt) vc /\ result = head n vc.

Definition is_top_guides (n : nat)
           (bm : list (Bookings.row * option Tours.row * option Guides.row))
           (result : Series Z) : Prop :=
  exists vc, is_value_counts (map GuideName_of bm) vc /\ result = head n vc.

(* ------------------------------------------------------------------ *)
(** ** Insights 4 to 6: availability days *)

Definition GuideAvailability_of (r : Guides.row * option Availability.row)
  : option string :=
  match snd r with
  | Some a => Availability.GuideAvailability a
  | None => None
  end.

Definition AvailabilityDate_of (r : Guides.row * option Availability.row)
  : option Timestamp :=
  match snd r with
  | Some a => Availability.AvailabilityDate a
  | None => None
  end.

(** [notna() & (!= "")]. *)
Definition present_nonempty (o : option string) : bool :=
  match o with
  | Some s => negb (String.eqb s "")
  | None => false
  end.

Definition valid_avail (availability_data : list (Guides.row * option Availability.row))
  : list (Guides.row * option Availability.row) :=
  filter (fun r => present_nonempty (GuideAvailability_of r)) availability_data.

Definition available_days_per_guide (guides : list Guides.row)
           (availability : list Availability.row) : Series Z :=
  sort_values_desc snd
    (groupby_nunique (fun r => Some (Guides.GuideName (fst r)))
                     AvailabilityDate_of
                     (valid_avail (availability_days_guides guides availability))).

(** Insight 4.1 plots the first ten rows of that series ([.head(10)]). *)
Definition most_available_guides (n : nat) (guides : list Guides.row)
           (availability : list Availability.row) : Series Z :=
  head n (available_days_per_guide guides availability).

(** [days_in_month - available_days_per_guide], sorted descending. *)
Definition not_available (days_in_month : Z) (available : Series Z)
  : Series Z :=
  sort_values_desc snd (map (fun kv => (fst kv, days_in_month - snd kv)) available).

(** Insight 6 for the month [month] of [YEAR]:
    [calendar.monthrange(YEAR, month)[1] - available_days_per_guide]. *)
Definition not_available_period (month : Z) (guides : list Guides.row)
           (availability : list Availability.row) : option (Series Z) :=
  match get_days_in_month month YEAR with
  | Some days => Some (not_available days
                         (available_days_per_guide guides availability))
  | None => None
  end.

(* ------------------------------------------------------------------ *)
(** ** Insights 7 and 8: occupied days and occupancy *)

Definition occupied_days
           (bm : list (Bookings.row * option Tours.row * option Guides.row))
  : Series Z :=
  sort_values_desc snd (groupby_nunique GuideName_of BookingDate_of bm).

(** A [float64] cell: a finite value, given by the rational number it
    stands for, or one of the three special values.  The sign of a zero is
    not kept: the counts of the script are never negative, so no negative
    zero arises. *)
Inductive float : Type :=
| FNum (q : Q)
| FPosInf
| FNegInf
| FNaN.

(** Nearest integer, ties to even. *)
Definition rint (q : Q) : Z :=
  let n := Qfloor q in
  match Qcompare (q - inject_Z n) (1 # 2) with
  | Lt => n
  | Gt => n + 1
  | Eq => if Z.even n then n else n + 1
  end.

(** The power of two [2 ^ e], for any integer [e]. *)
Definition pow2 (e : Z) : Q :=
  if 0 <=? e then inject_Z (2 ^ e) else 1 # Z.to_pos (2 ^ (- e)).

(** The binary exponent of a positive rational: the [k] with
    [2 ^ k <= q < 2 ^ (k + 1)]. *)
Definition Qlog2 (q : Q) : Z :=
  let k := Z.log2 (Qnum q) - Z.log2 (Zpos (Qden q)) in
  if Qle_bool (pow2 k) q then k else k - 1.

(** Rounding of a positive real to [float64], to nearest, ties to even: 53
    significant bits, the smallest exponent of the last bit being -1074
    (subnormal values), overflow to infinity from [2 ^ 1024] on. *)
Definition round64_pos (a : Q) : float :=
  let e := Z.max (Qlog2 a - 52) (-1074) in
  let v := (inject_Z (rint (a / pow2 e)) * pow2 e)%Q in
  if Qle_bool (pow2 1024) v then FPosInf else FNum (Qred v).

Definition fneg (x : float) : float :=
  match x with
  | FNum q => FNum (- q)%Q
  | FPosInf => FNegInf
  | FNegInf => FPosInf
  | FNaN => FNaN
  end.

(** The [float64] nearest to a real number.  Every arithmetic operation of
    [float64] returns the exact result rounded this way. *)
Definition round64 (q : Q) : float :=
  match Qnum q with
  | Z0 => FNum 0
  | Zpos _ => round64_pos q
  | Zneg _ => fneg (round64_pos (- q)%Q)
  end.

(** An integer count as a [float64] cell.  The counts of the script are
    numbers of rows and of days, far below [2 ^ 53], so the conversion is
    exact. *)
Definition of_cell (c : option Z) : float :=
  match c with
  | Some z => FNum (inject_Z z)
  | None => FNaN
  end.

Definition signed_inf (positive : bool) : float :=
  if positive then FPosInf else FNegInf.

(** Division of two cells: the rounded quotient; a finite value over zero
    is infinite with the sign of the numerator, zero over zero is NaN,
    nothing raises. *)
Definition fdiv (x y : float) : float :=
  match x, y with
  | FNaN, _ | _, FNaN => FNaN
  | FNum a, FNum b =>
      if Qeq_bool b 0 then
        if Qeq_bool a 0 then FNaN else signed_inf (Qle_bool 0 a)
      else round64 (a / b)%Q
  | FNum _, _ => FNum 0
  | FPosInf, FNum b => signed_inf (Qle_bool 0 b)
  | FNegInf, FNum b => signed_inf (negb (Qle_bool 0 b))
  | _, _ => FNaN
  end.

(** Multiplication of two cells: the rounded product. *)
Definition fmul (x y : float) : float :=
  match x, y with
  | FNaN, _ | _, FNaN => FNaN
  | FNum a, FNum b => round64 (a * b)%Q
  | FNum a, FPosInf | FPosInf, FNum a =>
      if Qeq_bool a 0 then FNaN else signed_inf (Qle_bool 0 a)
  | FNum a, FNegInf | FNegInf, FNum a =>
      if Qeq_bool a 0 then FNaN else signed_inf (negb (Qle_bool 0 a))
  | FPosInf, FPosInf | FNegInf, FNegInf => FPosInf
  | _, _ => FNegInf
  end.

(** [numpy.rint]: a whole number is a [float64] value whenever it is the
    nearest integer of one, so nothing is rounded twice. *)
Definition frint (x : float) : float :=
  match x with
  | FNum q => FNum (inject_Z (rint q))
  | other => other
  end.

(** [Series.round(2)], as numpy computes it: multiply by 100, take the
    nearest integer, divide by 100, each step in [float64]. *)
Definition fround2 (x : float) : float :=
  fdiv (frint (fmul x (FNum 100))) (FNum 100).

Record stats_row : Type :=
  { stats_GuideName : string;
    DaysOccupied : option Z;
    AvailableDays : option Z;
    OccupancyPct : float }.

(** [(DaysOccupied / AvailableDays * 100).round(2)]. *)
Definition occupancy_pct (days_occupied available_days : option Z) : float :=
  fround2 (fmul (fdiv (of_cell days_occupied) (of_cell available_days))
                (FNum 100)).

(** [Index.equals]: the same labels in the same order. *)
Fixpoint index_equals (i1 i2 : list string) : bool :=
  match i1, i2 with
  | [], [] => true
  | a :: r1, b :: r2 => String.eqb a b && index_equals r1 r2
  | _, _ => false
  end.

(** The index of a frame built from two series: the index of the first one
    when the two are equal, the sorted union of the labels otherwise. *)
Definition stats_index (occupied_days_series available_days_series : Series Z)
  : list string :=
  let i1 := map fst occupied_days_series in
  let i2 := map fst available_days_series in
  if index_equals i1 i2 then i1
  else sort_index (fun x => x)
         (drop_duplicates (fun x => x) String.eqb (i1 ++ i2)%list).

(** [pd.DataFrame({"DaysOccupied": .., "AvailableDays": ..})] with the
    [OccupancyPct] column: the two series are aligned on [stats_index], a
    label absent from one of them gets a missing value there.  Both series
    come out of a [groupby], so a label names one value in each. *)
Definition stats (occupied_days_series available_days_series : Series Z)
  : list stats_row :=
  map (fun g =>
         let d := lookup g occupied_days_series in
         let a := lookup g available_days_series in
         {| stats_GuideName := g; DaysOccupied := d; AvailableDays := a;
            OccupancyPct := occupancy_pct d a |})
      (stats_index occupied_days_series available_days_series).

(* ------------------------------------------------------------------ *)
(** ** Insights 5.5 and 10.5: the tables across periods *)

(** A row of the table under construction: the entity and one cell per
    period merged so far. *)
Definition wide_row : Type := (string * list (option Z))%type.

(** [pd.merge(left, right, on=entity, how="outer")], [left] having [width]
    value columns: matching rows are paired, the others keep a missing
    value on the absent side, and the rows come sorted by entity. *)
Definition merge_outer (width : nat) (left : list wide_row)
           (right : Series Z) : list wide_row :=
  let paired :=
    flat_map
      (fun l : wide_row =>
         match filter (fun r => String.eqb (fst r) (fst l)) right with
         | [] => [(fst l, snd l ++ [None])]
         | rs => map (fun r => (fst l, snd l ++ [Some (snd r)])) rs
         end%list) left in
  let right_only :=
    map (fun r => (fst r, repeat None width ++ [Some (snd r)])%list)
        (filter (fun r => negb (mem (fst r) (map fst left))) right) in
  sort_index fst (paired ++ right_only)%list.

(** The nested merges, period after period. *)
Fixpoint merge_all (width : nat) (acc : list wide_row)
         (periods : list (Series Z)) : list wide_row :=
  match periods with
  | [] => acc
  | p :: rest => merge_all (S width) (merge_outer width acc p) rest
  end.

Record combined_row : Type :=
  { entity : string; period_values : list Z; Total : Z }.

(** [.fillna(0)] then [.astype(int)] on a value cell. *)
Definition fillna0 (c : option Z) : Z :=
  match c with
  | Some v => v
  | None => 0
  end.

(** The merged table with its [Total] column. *)
Definition combine (first : Series Z) (rest : list (Series Z))
  : list combined_row :=
  map (fun w : wide_row =>
         let vs := map fillna0 (snd w) in
         {| entity := fst w; period_values := vs;
            Total := fold_left Z.add vs 0 |})
      (merge_all 1 (map (fun kv => (fst kv, [Some (snd kv)])) first) rest).

(** Insight 5.5: available days of March, April, May and June. *)
Definition merged (m03 m04 m05 m06 : Series Z) : list combined_row :=
  combine m03 [m04; m05; m06].

(** Insight 10.5: operating days by location, sorted by total. *)
Definition location_days_combined (l03 l04 l05 l06 : Series Z)
  : list combined_row :=
  sort_values_desc Total (combine l03 [l04; l05; l06]).

(* ------------------------------------------------------------------ *)
(** ** Insights 10 and 11: operating days and time slots *)

(** [tours[week_cols].sum(axis=1)]. *)
Definition Tours_Operating_Days (t : Tours.row) : Z :=
  sumZ [Tours.Op_Monday t; Tours.Op_Tuesday t; Tours.Op_Wednesday t;
        Tours.Op_Thursday t; Tours.Op_Friday t; Tours.Op_Saturday t;
        Tours.Op_Sunday t].

Definition location_totals (tours : list Tours.row) : Series Z :=
  sort_values_desc snd
    (groupby_sum (fun t => Some (Tours.TourLocation t))
                 Tours_Operating_Days tours).

Definition TimeSlot (t : Tours.row) : string :=
  (Tours.TimeStart t ++ " - " ++ Tours.TimeEnd t)%string.

Definition active_tours (tours : list Tours.row) : list Tours.row :=
  filter (fun t => 0 <? Tours_Operating_Days t) tours.

Record slot_row : Type :=
  { slot_TourLocation : string; slot_TimeSlot : string; Count : Z }.

Definition slot_key (t : Tours.row) : string * string :=
  (Tours.TourLocation t, TimeSlot t).

Definition pair_eqb (a b : string * string) : bool :=
  String.eqb (fst a) (fst b) && String.eqb (snd a) (snd b).

Definition pair_ltb (a b : string * string) : bool :=
  String.ltb (fst a) (fst b)
  || (String.eqb (fst a) (fst b) && String.ltb (snd a) (snd b)).

(** [groupby(["TourLocation", "TimeSlot"]).size().reset_index(name="Count")]. *)
Definition slot_counts (active : list Tours.row) : list slot_row :=
  map (fun k =>
         {| slot_TourLocation := fst k; slot_TimeSlot := snd k;
            Count := Z.of_nat (count_key slot_key pair_eqb k active) |})
      (sort_rows (fun y x => pair_ltb y x)
         (drop_duplicates (fun x => x) pair_eqb (map slot_key active))).

(** [sort_values("Count", ascending=False)
      .drop_duplicates(subset=["TourLocation"], keep="first")]. *)
Definition top_slot (tours : list Tours.row) : list slot_row :=
  drop_duplicates slot_TourLocation String.eqb
                  (sort_values_desc Count (slot_counts (active_tours tours))).

(* ------------------------------------------------------------------ *)
(** ** Loading: [load_month_data] *)

(** The characters that [str.strip] is given: the single quote, the double
    quote and the space. *)
Definition strip_chars : list ascii :=
  [ascii_of_nat 39; ascii_of_nat 34; ascii_of_nat 32].

Definition is_strip (c : ascii) : bool := existsb (Ascii.eqb c) strip_chars.

Fixpoint lstrip (l : list ascii) : list ascii :=
  match l with
  | [] => []
  | c :: r => if is_strip c then lstrip r else l
  end.

(** [str.strip(chars)]: the characters are taken off both ends. *)
Definition strip (l : list ascii) : list ascii :=
  rev (lstrip (rev (lstrip l))).

Definition is_upper (c : ascii) : bool :=
  ((65 <=? nat_of_ascii c) && (nat_of_ascii c <=? 90))%nat.

Definition is_lower (c : ascii) : bool :=
  ((97 <=? nat_of_ascii c) && (nat_of_ascii c <=? 122))%nat.

Definition to_upper (c : ascii) : ascii :=
  if is_lower c then ascii_of_nat (nat_of_ascii c - 32) else c.

Definition to_lower (c : ascii) : ascii :=
  if is_upper c then ascii_of_nat (nat_of_ascii c + 32) else c.

(** [str.title()] on ASCII text: a letter that follows a letter is put in
    lower case, any other letter in upper case; other characters stay. *)
Fixpoint title_from (previous_is_cased : bool) (l : list ascii)
  : list ascii :=
  match l with
  | [] => []
  | c :: r =>
      (if previous_is_cased then to_lower c else to_upper c)
        :: title_from (is_upper c || is_lower c) r
  end.

Definition title (l : list ascii) : list ascii := title_from false l.

(** [astype(str)] on a text cell: a missing cell becomes the text [nan]. *)
Definition astype_str (cell : option string) : string :=
  match cell with
  | Some s => s
  | None => "nan"
  end.

(** [column.astype(str).str.strip(..).str.title()] on one cell. *)
Definition standardize (cell : option string) : string :=
  string_of_list_ascii
    (title (strip (list_ascii_of_string (astype_str cell)))).

(* ------------------------------------------------------------------ *)
(** ** Insight 2: bookings per day *)

(** Chronological order of two timestamps. *)
Definition Timestamp_ltb (a b : Timestamp) : bool :=
  let '(y1, m1, d1, t1) := a in
  let '(y2, m2, d2, t2) := b in
  (y1 <? y2) ||
  ((y1 =? y2) &&
   ((m1 <? m2) ||
    ((m1 =? m2) && ((d1 <? d2) || ((d1 =? d2) && (t1 <? t2)))))).

(** [value_counts()] on a date column. *)
Definition value_counts_dates (col : list (option Timestamp))
  : list (Timestamp * Z) :=
  let present := dropna col in
  sort_values_desc snd
    (map (fun k => (k, Z.of_nat (count_key (fun x => x) Timestamp_eqb k present)))
         (drop_duplicates (fun x => x) Timestamp_eqb present)).

(** [bookings["BookingDate"].value_counts().sort_index()]. *)
Definition daily_bookings (bookings : list Bookings.row)
  : list (Timestamp * Z) :=
  sort_rows (fun y x => Timestamp_ltb (fst y) (fst x))
            (value_counts_dates (map Bookings.BookingDate bookings)).

(* ------------------------------------------------------------------ *)
(** ** Insight 9: certifications *)

(** A skill record: the guide and the tour the guide is certified for.  The
    script reads the guide only. *)
Module Skills.
Record row : Type := { GuideID : string; TourID : string }.
End Skills.

Definition skills_named (skills : list Skills.row) (guides : list Guides.row)
  : list (Skills.row * option Guides.row) :=
  merge_left Skills.GuideID Guides.id skills guides.

Definition skill_GuideName_of (r : Skills.row * option Guides.row)
  : option string := option_map Guides.GuideName (snd r).

Definition top_skilled_guides (n : nat)
           (sn : list (Skills.row * option Guides.row)) : Series Z :=
  head n (value_counts (map skill_GuideName_of sn)).

(* ------------------------------------------------------------------ *)
(** ** Insight 8: the occupancy table *)

Definition isnan (x : float) : bool :=
  match x with
  | FNaN => true
  | _ => false
  end.

(** Strict order of two cells that are not NaN. *)
Definition float_ltb (x y : float) : bool :=
  match x, y with
  | FNaN, _ | _, FNaN => false
  | FNegInf, FNegInf => false
  | FNegInf, _ => true
  | _, FNegInf => false
  | FPosInf, _ => false
  | _, FPosInf => true
  | FNum a, FNum b => negb (Qle_bool b a)
  end.

(** [stats.sort_values(["OccupancyPct"], ascending=False)]: descending, the
    rows with an undefined cell last, in their input order. *)
Definition stats_sorted (st : list stats_row) : list stats_row :=
  (sort_rows (fun y x => float_ltb (OccupancyPct x) (OccupancyPct y))
             (filter (fun r => negb (isnan (OccupancyPct r))) st)
   ++ filter (fun r => isnan (OccupancyPct r)) st)%list.

(** The occupancy table of a period, from its four tables. *)
Definition occupancy_table (bookings : list Bookings.row)
           (tours : list Tours.row) (guides : list Guides.row)
           (availability : list Availability.row) : list stats_row :=
  stats_sorted
    (stats (occupied_days (bookings_merged bookings tours guides))
           (available_days_per_guide guides availability)).

(* ================================================================== *)
(** * Rows of the worked examples *)
(* ================================================================== *)

(** A day of March 2025, as a date-only cell parses. *)
Definition mar (d : Z) : Timestamp := (2025, 3, d, 0).

Definition booking (t g : string) (d : Z) : Bookings.row :=
  {| Bookings.TourID := t; Bookings.GuideID := g;
     Bookings.BookingDate := Some (mar d) |}.

Definition tour (i name loc t0 t1 : string) (mo tu we th fr sa su : Z)
  : Tours.row :=
  {| Tours.id := i; Tours.TourName := name; Tours.TourLocation := loc;
     Tours.TimeStart := t0; Tours.TimeEnd := t1;
     Tours.Op_Monday := mo; Tours.Op_Tuesday := tu; Tours.Op_Wednesday := we;
     Tours.Op_Thursday := th; Tours.Op_Friday := fr; Tours.Op_Saturday := sa;
     Tours.Op_Sunday := su |}.

Definition guide (i name loc : string) : Guides.row :=
  {| Guides.id := i; Guides.GuideName := name; Guides.GuideLocation := loc |}.

(** Twenty tours, Tour01 to Tour20, and one booking of each, in that
    order. *)
Definition twenty_ids : list string :=
  ["01"; "02"; "03"; "04"; "05"; "06"; "07"; "08"; "09"; "10";
   "11"; "12"; "13"; "14"; "15"; "16"; "17"; "18"; "19"; "20"].

Definition twenty_tours : list Tours.row :=
  map (fun i => tour i ("Tour" ++ i) "Rome" "9" "12" 1 1 0 0 0 0 0)
      twenty_ids.

Definition twenty_bookings : list Bookings.row :=
  map (fun i => booking i "G1" 1) twenty_ids.

Definition avail (g : string) (d : option Timestamp) (slot : option string)
  : Availability.row :=
  {| Availability.GuideID := g; Availability.AvailabilityDate := d;
     Availability.GuideAvailability := slot |}.

(* ================================================================== *)
(** * Predicates of the statements *)
(* ================================================================== *)

(** No tour row carries the booking's TourID: the booking is an orphan. *)
Definition no_tour (tours : list Tours.row) (b : Bookings.row) : Prop :=
  forall t, In t tours -> Tours.id t <> Bookings.TourID b.

(** No guide row carries the booking's GuideID. *)
Definition no_guide (guides : list Guides.row) (b : Bookings.row) : Prop :=
  forall g, In g guides -> Guides.id g <> Bookings.GuideID b.

(** A flag column cell holding 0 or 1. *)
Definition boolean_like (flag : Z) : Prop := flag = 0 \/ flag = 1.

(** The seven [Op_*] cells of a tour, Monday first. *)
Definition week_cols (t : Tours.row) : list Z :=
  [Tours.Op_Monday t; Tours.Op_Tuesday t; Tours.Op_Wednesday t;
   Tours.Op_Thursday t; Tours.Op_Friday t; Tours.Op_Saturday t;
   Tours.Op_Sunday t].

(** The value of the [OccupancyPct] cell, case by case. *)
Definition occupancy_cases (days_occupied available_days : option Z) : float :=
  match days_occupied, available_days with
  | Some d, Some a =>
      if a =? 0 then
        if d =? 0 then FNaN else if 0 <? d then FPosInf else FNegInf
      else fround2 (fmul (round64 (inject_Z d / inject_Z a)) (FNum 100))
  | _, _ => FNaN
  end.

(** March 1 to March 31 and April 1, all with a slot, for one guide. *)
Definition thirty_two_days : list Availability.row :=
  (map (fun d => avail "G1" (Some (mar (Z.of_nat d))) (Some "9-12"))
       (seq 1 31)
   ++ [avail "G1" (Some (2025, 4, 1, 0)) (Some "9-12")])%list.

(** Guide name [name] has a record with a present, non-empty slot whose
    date cell is [d]. *)
Definition has_slot_on (guides : list Guides.row)
           (availability : list Availability.row)
           (name : string) (d : option Timestamp) : Prop :=
  exists g a,
    In g guides /\ In a availability /\
    Availability.GuideID a = Guides.id g /\
    Guides.GuideName g = name /\
    present_nonempty (Availability.GuideAvailability a) = true /\
    Availability.AvailabilityDate a = d.

(** Equality of two name cells, a missing cell being equal to itself only. *)
Definition cell_eqb (a b : option string) : bool :=
  match a, b with
  | Some x, Some y => String.eqb x y
  | None, None => true
  | _, _ => false
  end.

(** Rows of [df] whose [col] cell is the present value [k]. *)
Definition rows_with {A : Type} (col : A -> option string) (k : string)
           (df : list A) : nat :=
  count_key col cell_eqb (Some k) df.

(** Position of the first row of [df] whose [col] cell is [k]. *)
Definition first_row {A : Type} (col : A -> option string) (k : string)
           (df : list A) : nat :=
  first_pos col cell_eqb (Some k) df.

(** Active tours (operating-day count above 0) of a location in a slot. *)
Definition tours_in_slot (loc slot : string) (tours : list Tours.row) : nat :=
  length
    (filter (fun t =>
               (0 <? Tours_Operating_Days t)
               && String.eqb (Tours.TourLocation t) loc
               && String.eqb (TimeSlot t) slot) tours).

(** What the dominant-slot table has to satisfy: one row per location of an
    active tour, the row's count being the number of active tours of the
    location in the row's slot, and no slot of the location counting more. *)
Definition dominant_slots (tours : list Tours.row) (result : list slot_row)
  : Prop :=
  NoDup (map slot_TourLocation result) /\
  (forall loc,
      In loc (map slot_TourLocation result) <->
      exists t, In t tours /\ 0 < Tours_Operating_Days t /\
                Tours.TourLocation t = loc) /\
  (forall r,
      In r result ->
      Count r = Z.of_nat (tours_in_slot (slot_TourLocation r)
                                        (slot_TimeSlot r) tours) /\
      0 < Count r /\
      forall slot,
        Z.of_nat (tours_in_slot (slot_TourLocation r) slot tours) <= Count r).

(** A cell agrees with a period's series: the entity's value there, or
    missing when the entity is not in the series. *)
Definition cell_ok (k : string) (c : option Z) (s : Series Z) : Prop :=
  match c with
  | Some v => In (k, v) s
  | None => ~ In k (map fst s)
  end.

(** The rows built so far cover exactly the entities of the periods merged
    so far, with one agreeing cell per period. *)
Definition wide_ok (done : list (Series Z)) (acc : list wide_row) : Prop :=
  (forall k, In k (map fst acc) <->
             exists s, In s done /\ In k (map fst s)) /\
  (forall w, In w acc -> Forall2 (cell_ok (fst w)) (snd w) done).

(** The text does not begin with a stripped character. *)
Definition no_strip_head (l : list ascii) : Prop :=
  match l with
  | [] => True
  | c :: _ => is_strip c = false
  end.

(** The text has no stripped character at either end. *)
Definition trimmed (l : list ascii) : Prop :=
  no_strip_head l /\ no_strip_head (rev l).

(** Text made of ASCII characters, for which [title] is given. *)
Definition ascii_text (s : string) : Prop :=
  Forall (fun c => (nat_of_ascii c < 128)%nat) (list_ascii_of_string s).

(** Every availability date is a date-only value, midnight of a day of
    month [month] of [YEAR]. *)
Definition dates_in_month (month days : Z)
           (availability : list Availability.row) : Prop :=
  forall a t,
    In a availability -> Availability.AvailabilityDate a = Some t ->
    exists d, t = (YEAR, month, d, 0) /\ 1 <= d <= days.

(** Bookings whose date cell is the date [d]. *)
Definition bookings_on (d : Timestamp) (bookings : list Bookings.row) : nat :=
  length (filter (fun b => match Bookings.BookingDate b with
                           | Some t => Timestamp_eqb t d
                           | None => false
                           end) bookings).

(** A skill record whose GuideID no guide row carries. *)
Definition no_guide_for_skill (guides : list Guides.row) (s : Skills.row)
  : Prop :=
  forall g, In g guides -> Guides.id g <> Skills.GuideID s.

(** Skill records of the guides named [name]. *)
Definition certifications_of (name : string) (skills : list Skills.row)
           (guides : list Guides.row) : nat :=
  length
    (filter (fun s =>
               existsb (fun g => String.eqb (Guides.id g) (Skills.GuideID s)
                                 && String.eqb (Guides.GuideName g) name)
                       guides) skills).

(** Guide name [name] has a booking whose date cell is [d]. *)
Definition booked_on (bookings : list Bookings.row)
           (guides : list Guides.row) (name : string) (d : option Timestamp)
  : Prop :=
  exists b g,
    In b bookings /\ In g guides /\
    Guides.id g = Bookings.GuideID b /\
    Guides.GuideName g = name /\
    Bookings.BookingDate b = d.

(** Operating days of the tours of location [loc]. *)
Definition operating_days_at (loc : string) (tours : list Tours.row) : Z :=
  sumZ (map Tours_Operating_Days
            (filter (fun t => String.eqb (Tours.TourLocation t) loc) tours)).

(* ================================================================== *)
(** * Properties *)
(* ================================================================== *)

(* ------------------------------------------------------------------ *)
(** ** Lists, duplicates and sorting *)

Lemma StronglySorted_filter {A : Type} (R : A -> A -> Prop)
      (f : A -> bool) (l : list A) :
  StronglySorted R l -> StronglySorted R (filter f l).
Proof.
  induction 1 as [|b s Hs IHs Hb]; simpl; [constructor|].
  destruct (f b); auto. constructor; auto.
  rewrite Forall_forall in *. intros y Hy. apply filter_In in Hy.
  apply Hb, Hy.
Qed.

Lemma StronglySorted_impl_in {A : Type} (R R' : A -> A -> Prop)
      (l : list A) :
  (forall x y, In x l -> In y l -> R x y -> R' x y) ->
  StronglySorted R l -> StronglySorted R' l.
Proof.
  intros HR H. induction H as [|b s Hs IHs Hb]; [constructor|].
  constructor.
  - apply IHs. intros x y Hx Hy. apply HR; right; assumption.
  - rewrite Forall_forall in *. intros y Hy.
    apply HR; [left; reflexivity|right; assumption|]. apply Hb, Hy.
Qed.

Lemma StronglySorted_firstn {A : Type} (R : A -> A -> Prop)
      (n : nat) (l : list A) :
  StronglySorted R l -> StronglySorted R (firstn n l).
Proof.
  intros H. revert n. induction H as [|b s Hs IHs Hb]; intros [|n]; simpl;
    try constructor; auto.
  rewrite Forall_forall in *. intros y Hy. apply Hb.
  rewrite <- (firstn_skipn n s). apply in_or_app. left. exact Hy.
Qed.

Lemma head_In {A : Type} (n : nat) (l : list A) (x : A) :
  In x (head n l) -> In x l.
Proof.
  intros H. rewrite <- (firstn_skipn n l). apply in_or_app. left. exact H.
Qed.

Section KeyedFacts.
Context {A K : Type}.
Variable key : A -> K.
Variable eqb : K -> K -> bool.
Hypothesis eqb_spec : forall x y, reflect (x = y) (eqb x y).

Lemma eqb_refl' x : eqb x x = true.
Proof. destruct (eqb_spec x x); congruence. Qed.

Lemma eqb_true x y : eqb x y = true <-> x = y.
Proof. destruct (eqb_spec x y); split; congruence. Qed.

Lemma eqb_false x y : eqb x y = false <-> x <> y.
Proof. destruct (eqb_spec x y); split; congruence. Qed.

Lemma drop_duplicates_incl l x : In x (drop_duplicates key eqb l) -> In x l.
Proof.
  revert x; induction l as [|a r IH]; simpl; intros x H; auto.
  destruct H as [H|H]; auto.
  apply filter_In in H. right. apply IH, H.
Qed.

Lemma drop_duplicates_keys l k :
  In k (map key (drop_duplicates key eqb l)) <-> In k (map key l).
Proof.
  induction l as [|a r IH]; simpl; [tauto|].
  split.
  - intros [H|H]; auto.
    apply in_map_iff in H. destruct H as (y & <- & Hy).
    apply filter_In in Hy. right. apply IH. apply in_map, Hy.
  - intros [H|H]; auto.
    destruct (eqb_spec k (key a)) as [->|Hne]; auto.
    right. apply IH in H. apply in_map_iff in H.
    destruct H as (y & <- & Hy).
    apply in_map. apply filter_In. split; auto.
    apply negb_true_iff. apply eqb_false. exact Hne.
Qed.

Lemma drop_duplicates_NoDup l : NoDup (map key (drop_duplicates key eqb l)).
Proof.
  induction l as [|a r IH]; simpl; constructor.
  - intros H. apply in_map_iff in H. destruct H as (y & Hk & Hy).
    apply filter_In in Hy. destruct Hy as [_ Hy].
    rewrite Hk, eqb_refl' in Hy. discriminate.
  - clear -IH. induction (drop_duplicates key eqb r) as [|b s IHs]; simpl; auto.
    inversion IH; subst.
    destruct (negb (eqb (key b) (key a))); simpl; auto.
    constructor; auto.
    intros H. apply H1. apply in_map_iff in H.
    destruct H as (y & Hk & Hy). apply filter_In in Hy.
    rewrite <- Hk. apply in_map, Hy.
Qed.

(** The survivors come in the order of first appearance of their key. *)
Lemma drop_duplicates_order l :
  StronglySorted
    (fun a b => (first_pos key eqb (key a) l < first_pos key eqb (key b) l)%nat)
    (drop_duplicates key eqb l).
Proof.
  induction l as [|a r IH]; simpl; [constructor|].
  assert (Hf : forall y,
             In y (filter (fun y => negb (eqb (key y) (key a)))
                          (drop_duplicates key eqb r)) ->
             eqb (key a) (key y) = false).
  { intros y Hy. apply filter_In in Hy.
    destruct Hy as [_ Hy]. apply negb_true_iff in Hy.
    apply eqb_false. apply eqb_false in Hy. congruence. }
  constructor.
  - apply (StronglySorted_filter _ (fun y => negb (eqb (key y) (key a))))
      in IH.
    eapply StronglySorted_impl_in; [|exact IH].
    intros x y Hx Hy Hlt. simpl in Hlt.
    rewrite (Hf x Hx), (Hf y Hy). lia.
  - apply Forall_forall. intros y Hy.
    rewrite eqb_refl', (Hf y Hy). lia.
Qed.

Lemma count_key_pos k l : In k (map key l) <-> (0 < count_key key eqb k l)%nat.
Proof.
  unfold count_key. induction l as [|a r IH]; simpl; [split; [tauto|lia]|].
  destruct (eqb_spec (key a) k) as [->|Hne]; simpl.
  - split; auto. lia.
  - rewrite <- IH. split; auto. intros [H|H]; auto. contradiction.
Qed.

Lemma sum_split_key (f : K -> nat) (k : K) (s : list A) :
  NoDup (map key s) ->
  fold_right Nat.add O (map (fun x => f (key x)) s)
  = (fold_right Nat.add O
       (map (fun x => f (key x))
            (filter (fun y => negb (eqb (key y) k)) s))
     + (if existsb (fun y => eqb (key y) k) s then f k else O))%nat.
Proof.
  induction s as [|b s IH]; simpl; intros Hnd; auto.
  inversion Hnd; subst. rewrite (IH H2).
  destruct (eqb_spec (key b) k) as [E|E]; simpl.
  - replace (existsb (fun y => eqb (key y) k) s) with false.
    + rewrite E. lia.
    + symmetry. apply not_true_is_false. intros Hx.
      apply existsb_exists in Hx. destruct Hx as (y & Hy & Hk).
      apply eqb_true in Hk. apply H1. rewrite E, <- Hk.
      apply in_map, Hy.
  - lia.
Qed.

(** Every row is counted under exactly one surviving key. *)
Lemma count_key_total l :
  fold_right Nat.add O
    (map (fun x => count_key key eqb (key x) l) (drop_duplicates key eqb l)) = length l.
Proof.
  induction l as [|a r IH]; simpl; auto.
  unfold count_key at 1. simpl. rewrite eqb_refl'. simpl.
  fold (count_key key eqb (key a) r). f_equal.
  rewrite (sum_split_key (fun k => count_key key eqb k r) (key a)
             (drop_duplicates key eqb r) (drop_duplicates_NoDup r)) in IH.
  rewrite <- IH. rewrite Nat.add_comm. f_equal.
  - f_equal. apply map_ext_in. intros x Hx. apply filter_In in Hx.
    destruct Hx as [_ Hx]. unfold count_key. simpl.
    apply negb_true_iff in Hx.
    replace (eqb (key a) (key x)) with false; auto.
    symmetry. apply eqb_false. apply eqb_false in Hx. congruence.
  - destruct (existsb (fun y => eqb (key y) (key a)) (drop_duplicates key eqb r))
      eqn:Ex; auto.
    destruct (count_key key eqb (key a) r) eqn:Ec; auto.
    assert (Hin : In (key a) (map key r)) by (apply count_key_pos; lia).
    apply drop_duplicates_keys in Hin. apply in_map_iff in Hin.
    destruct Hin as (y & Hk & Hy).
    assert (existsb (fun y => eqb (key y) (key a)) (drop_duplicates key eqb r) = true).
    { apply existsb_exists. exists y. split; auto. apply eqb_true, Hk. }
    congruence.
Qed.

End KeyedFacts.

Section SortingFacts.
Context {A : Type}.
Variable before : A -> A -> bool.

Lemma insert_row_perm x l : Permutation (x :: l) (insert_row before x l).
Proof.
  induction l as [|y r IH]; simpl; auto.
  destruct (before y x); auto.
  eapply perm_trans; [apply perm_swap|]. constructor. exact IH.
Qed.

Lemma sort_rows_perm l : Permutation l (sort_rows before l).
Proof.
  induction l as [|x r IH]; simpl; auto.
  eapply perm_trans; [|apply insert_row_perm]. constructor. exact IH.
Qed.

Lemma sort_rows_In l x : In x (sort_rows before l) <-> In x l.
Proof.
  split; apply Permutation_in;
    [apply Permutation_sym|]; apply sort_rows_perm.
Qed.

Lemma sort_rows_length l : length (sort_rows before l) = length l.
Proof. symmetry. apply Permutation_length, sort_rows_perm. Qed.

End SortingFacts.

Section SortValuesFacts.
Context {A : Type}.
Variable score : A -> Z.

Lemma insert_row_desc (P : A -> A -> Prop) x s :
  StronglySorted (desc_then score P) s ->
  (forall z, In z s -> P x z) ->
  StronglySorted (desc_then score P)
                 (insert_row (fun y x => score x <? score y) x s).
Proof.
  intros Hs. induction Hs as [|y ys Hys IH Hy]; intros HP; simpl.
  - repeat constructor.
  - destruct (Z.ltb_spec (score x) (score y)) as [Hlt|Hge].
    + constructor.
      * apply IH. intros z Hz. apply HP. right. exact Hz.
      * apply Forall_forall. intros z Hz.
        apply (Permutation_in _ (Permutation_sym (insert_row_perm _ x ys)))
          in Hz.
        destruct Hz as [<-|Hz]; [left; exact Hlt|].
        rewrite Forall_forall in Hy. apply Hy, Hz.
    + constructor; [constructor; assumption|].
      apply Forall_forall. intros z Hz.
      assert (Hzy : score z <= score y).
      { destruct Hz as [<-|Hz]; [lia|].
        rewrite Forall_forall in Hy. destruct (Hy z Hz) as [?|[? _]]; lia. }
      destruct (Z.eq_dec (score x) (score z)) as [E|E].
      * right. split; auto.
      * left. lia.
Qed.

Lemma sort_values_desc_stable (P : A -> A -> Prop) l :
  StronglySorted P l ->
  StronglySorted (desc_then score P) (sort_values_desc score l).
Proof.
  induction 1 as [|x r Hr IH Hx]; simpl; [constructor|].
  apply insert_row_desc; auto.
  intros z Hz. apply sort_rows_In in Hz.
  rewrite Forall_forall in Hx. apply Hx, Hz.
Qed.

Lemma StronglySorted_True (l : list A) :
  StronglySorted (fun _ _ => True) l.
Proof.
  induction l; constructor; auto. apply Forall_forall. auto.
Qed.

Lemma sort_values_desc_sorted l :
  StronglySorted (fun a b => score b <= score a) (sort_values_desc score l).
Proof.
  eapply StronglySorted_impl_in;
    [|apply (sort_values_desc_stable (fun _ _ => True)),
        StronglySorted_True].
  intros x y _ _ [H|[H _]]; lia.
Qed.

End SortValuesFacts.

Lemma merge_left_In {L R : Type} (kl : L -> string) (kr : R -> string)
      (left : list L) (right : list R) (l : L) (o : option R) :
  In (l, o) (merge_left kl kr left right) <->
  In l left /\
  match o with
  | Some r => In r right /\ kr r = kl l
  | None => forall r, In r right -> kr r <> kl l
  end.
Proof.
  unfold merge_left. rewrite in_flat_map. split.
  - intros (l' & Hl' & Hin).
    destruct (filter (fun r => String.eqb (kr r) (kl l')) right) as [|r0 rs]
      eqn:Ef.
    + destruct Hin as [Hin|[]]. inversion Hin; subst. split; auto.
      intros r Hr E.
      assert (In r (filter (fun r => String.eqb (kr r) (kl l)) right)).
      { apply filter_In. split; auto. apply String.eqb_eq, E. }
      rewrite Ef in H. exact H.
    + apply in_map_iff in Hin. destruct Hin as (r & E & Hr).
      inversion E; subst. rewrite <- Ef in Hr. apply filter_In in Hr.
      destruct Hr as [Hr Hk]. apply String.eqb_eq in Hk. auto.
  - intros (Hl & Ho). exists l. split; auto.
    destruct o as [r|].
    + destruct Ho as [Hr Hk].
      assert (Hin : In r (filter (fun r => String.eqb (kr r) (kl l)) right)).
      { apply filter_In. split; auto. apply String.eqb_eq, Hk. }
      destruct (filter (fun r => String.eqb (kr r) (kl l)) right) as [|r0 rs];
        [destruct Hin|].
      apply in_map_iff. exists r. auto.
    + destruct (filter (fun r => String.eqb (kr r) (kl l)) right) as [|r0 rs]
        eqn:Ef; [left; reflexivity|].
      exfalso. assert (Hin : In r0 (r0 :: rs)) by (left; reflexivity).
      rewrite <- Ef in Hin. apply filter_In in Hin. destruct Hin as [Hr Hk].
      apply String.eqb_eq in Hk. exact (Ho r0 Hr Hk).
Qed.

(** With a key on the right side (no two right rows share a label) the left
    merge has exactly the left table's rows. *)
Lemma merge_left_length {L R : Type} (kl : L -> string) (kr : R -> string)
      (left : list L) (right : list R) :
  NoDup (map kr right) ->
  length (merge_left kl kr left right) = length left.
Proof.
  intros Hnd. unfold merge_left.
  induction left as [|l ls IH]; [reflexivity|].
  cbn [flat_map length]. rewrite length_app, IH.
  assert (H : (length (filter (fun r => String.eqb (kr r) (kl l)) right)
               <= 1)%nat).
  { clear -Hnd. induction right as [|r rs IHr]; simpl; auto.
    inversion Hnd; subst.
    destruct (String.eqb_spec (kr r) (kl l)) as [E|E]; auto.
    simpl. replace (filter (fun r0 => String.eqb (kr r0) (kl l)) rs)
      with (@nil R); auto.
    symmetry.
    destruct (filter (fun r0 => String.eqb (kr r0) (kl l)) rs) as [|r0 s]
      eqn:Ef; auto.
    exfalso. assert (Hin : In r0 (r0 :: s)) by (left; reflexivity).
    rewrite <- Ef in Hin. apply filter_In in Hin. destruct Hin as [Hr Hk].
    apply String.eqb_eq in Hk. apply H1. rewrite E, <- Hk.
    apply in_map, Hr. }
  destruct (filter (fun r => String.eqb (kr r) (kl l)) right) as [|r0 [|r1 rs]];
    simpl in *; auto.
  exfalso. clear -H. lia.
Qed.

Lemma Timestamp_eqb_spec (a b : Timestamp) :
  reflect (a = b) (Timestamp_eqb a b).
Proof.
  destruct a as [[[y1 m1] d1] t1], b as [[[y2 m2] d2] t2].
  unfold Timestamp_eqb.
  destruct (Z.eqb_spec y1 y2), (Z.eqb_spec m1 m2), (Z.eqb_spec d1 d2),
    (Z.eqb_spec t1 t2); simpl; constructor; congruence.
Qed.

Lemma mem_In (c : string) (l : list string) : mem c l = true <-> In c l.
Proof.
  unfold mem. rewrite existsb_exists. split.
  - intros (x & Hx & E). apply String.eqb_eq in E. subst. exact Hx.
  - intros H. exists c. split; auto. apply String.eqb_refl.
Qed.

Lemma mem_not_In (c : string) (l : list string) :
  mem c l = false <-> ~ In c l.
Proof.
  rewrite <- mem_In. destruct (mem c l); split; congruence.
Qed.

(* ------------------------------------------------------------------ *)
(** ** Joins *)



Lemma bookings_tours_In bookings tours b t :
  In (b, t) (bookings_tours bookings tours) <->
  In b bookings /\
  match t with
  | Some tr => In tr tours /\ Tours.id tr = Bookings.TourID b
  | None => no_tour tours b
  end.
Proof. apply merge_left_In. Qed.

Lemma bookings_merged_In bookings tours guides b t g :
  In (b, t, g) (bookings_merged bookings tours guides) <->
  In (b, t) (bookings_tours bookings tours) /\
  match g with
  | Some gr => In gr guides /\ Guides.id gr = Bookings.GuideID b
  | None => no_guide guides b
  end.
Proof. apply (merge_left_In (fun bt => Bookings.GuideID (fst bt))). Qed.

Lemma merge_left_total {L R : Type} (kl : L -> string) (kr : R -> string)
      (left : list L) (right : list R) (l : L) :
  In l left -> exists o, In (l, o) (merge_left kl kr left right).
Proof.
  intros Hl.
  destruct (filter (fun r => String.eqb (kr r) (kl l)) right) as [|r rs] eqn:Ef.
  - exists None. apply merge_left_In. split; auto.
    intros r Hr E.
    assert (Hin : In r (filter (fun r => String.eqb (kr r) (kl l)) right)).
    { apply filter_In. split; auto. apply String.eqb_eq, E. }
    rewrite Ef in Hin. exact Hin.
  - exists (Some r). apply merge_left_In. split; auto.
    assert (Hin : In r (r :: rs)) by (left; reflexivity).
    rewrite <- Ef in Hin. apply filter_In in Hin. destruct Hin as [Hr Hk].
    apply String.eqb_eq in Hk. auto.
Qed.

Lemma distinct_NoDup (l : list string) : distinct l = true -> NoDup l.
Proof.
  induction l as [|c r IH]; simpl; intros H; constructor.
  - apply andb_true_iff in H. destruct H as [H _].
    apply negb_true_iff, mem_not_In in H. exact H.
  - apply andb_true_iff in H. apply IH, H.
Qed.









(** Were the bookings to carry an [id] label of their own, the first merge
    would already suffix it: no label is dropped then either, but the two
    renamed labels are those of the bookings' and of the tours' [id], and
    the guides' [id] keeps its label. *)
Lemma bookings_merged_columns_booking_id :
  bookings_merged_columns ("id" :: bookings_labels) ["id"; "TourName"]
                          guides_labels
  = Some ["TourID_Source"; "TourID"; "GuideID"; "BookingDate";
          "GuideID_Source"; "TourName"; "id"; "GuideName"; "GuideLocation"].
Proof. reflexivity. Qed.

(** C3, as stated, fails: the script merges with the guides on the left, so
    an availability record whose GuideID matches no guide row is not in the
    joined frame at all. *)
Lemma availability_orphan_dropped :
  let a := avail "G9" (Some (mar 1)) (Some "9-12") in
  let joined := availability_days_guides [guide "G1" "Ann" "Rome"] [a] in
  joined = [(guide "G1" "Ann" "Rome", None)] /\
  ~ In (Some a) (map snd joined).
Proof.
  simpl. split; [reflexivity|].
  intros [H|[]]. discriminate.
Qed.

(** C3, amended.  The Availability-Guides join is a left join from the
    guides: every guide row is kept, with missing availability fields when
    no availability record carries its id; an availability record is in the
    joined frame exactly when a guide row carries its GuideID, so a record
    with an orphan GuideID is dropped. *)
Theorem availability_days_guides_left_join :
  forall (guides : list Guides.row) (availability : list Availability.row),
    let joined := availability_days_guides guides availability in
    (forall g, In g guides -> exists o, In (g, o) joined) /\
    (forall g a,
        In (g, Some a) joined <->
        In g guides /\ In a availability /\
        Availability.GuideID a = Guides.id g) /\
    (forall g,
        In (g, None) joined <->
        In g guides /\
        forall a, In a availability -> Availability.GuideID a <> Guides.id g) /\
    (forall a,
        In a availability ->
        (forall g, In g guides -> Guides.id g <> Availability.GuideID a) ->
        ~ In (Some a) (map snd joined)).
Proof.
  intros guides availability joined. unfold joined, availability_days_guides.
  split; [|split; [|split]].
  - intros g Hg. apply merge_left_total. exact Hg.
  - intros g a. rewrite merge_left_In. tauto.
  - intros g. rewrite merge_left_In. tauto.
  - intros a Ha Hno Hin. apply in_map_iff in Hin.
    destruct Hin as ([g o] & E & Hin). simpl in E. subst o.
    apply merge_left_In in Hin. destruct Hin as (Hg & _ & E).
    exact (Hno g Hg (eq_sym E)).
Qed.

(** A guide without availability is kept, an orphan record is not. *)
Lemma availability_days_guides_left_join_witness :
  let guides := [guide "G1" "Ann" "Rome"; guide "G2" "Bob" "Pisa"] in
  let availability :=
    [avail "G1" (Some (mar 1)) (Some "9-12");
     avail "G9" (Some (mar 2)) (Some "9-12")] in
  In (guide "G2" "Bob" "Pisa", None)
     (availability_days_guides guides availability) /\
  ~ In (Some (avail "G9" (Some (mar 2)) (Some "9-12")))
       (map snd (availability_days_guides guides availability)).
Proof.
  intros guides availability.
  destruct (availability_days_guides_left_join guides availability)
    as (_ & _ & Hnone & Horphan).
  split.
  - apply Hnone. split; [right; left; reflexivity|].
    intros a [<-|[<-|[]]]; simpl; discriminate.
  - apply Horphan; [right; left; reflexivity|].
    intros g [<-|[<-|[]]]; simpl; discriminate.
Defined.

(* ------------------------------------------------------------------ *)
(** ** Operating days *)

(** C9. For a tour whose seven Op_Monday..Op_Sunday flags are each 0 or 1,
    the weekly operating-day count is the sum of the seven flags, it is the
    number of flags that are set, and it lies between 0 and 7. *)
Theorem Tours_Operating_Days_range :
  forall t : Tours.row,
    Forall boolean_like (week_cols t) ->
    Tours_Operating_Days t
    = Tours.Op_Monday t + Tours.Op_Tuesday t + Tours.Op_Wednesday t
      + Tours.Op_Thursday t + Tours.Op_Friday t + Tours.Op_Saturday t
      + Tours.Op_Sunday t /\
    Tours_Operating_Days t
    = Z.of_nat (length (filter (Z.eqb 1) (week_cols t))) /\
    0 <= Tours_Operating_Days t <= 7.
Proof.
  intros t H. unfold Tours_Operating_Days, week_cols in *. simpl.
  repeat match goal with
         | H : Forall _ (_ :: _) |- _ => inversion H; clear H; subst
         end.
  unfold boolean_like in *.
  repeat match goal with
         | H : _ = 0 \/ _ = 1 |- _ => destruct H as [H|H]; rewrite H
         end; simpl; repeat split; lia.
Qed.

Lemma Tours_Operating_Days_range_witness :
  Forall boolean_like
         (week_cols (tour "T1" "Alpha" "Rome" "9" "12" 1 1 0 0 0 1 1)) /\
  0 <= Tours_Operating_Days (tour "T1" "Alpha" "Rome" "9" "12" 1 1 0 0 0 1 1)
  <= 7.
Proof.
  assert (H : Forall boolean_like
                (week_cols (tour "T1" "Alpha" "Rome" "9" "12" 1 1 0 0 0 1 1))).
  { unfold boolean_like. simpl.
    repeat apply Forall_cons; try apply Forall_nil;
      (left; reflexivity) || (right; reflexivity). }
  split; [exact H|].
  apply (Tours_Operating_Days_range _ H).
Defined.

(* ------------------------------------------------------------------ *)
(** ** Occupancy *)

Lemma Qeq_bool_inject_Z (z : Z) : Qeq_bool (inject_Z z) 0 = (z =? 0).
Proof.
  destruct (Z.eqb_spec z 0) as [->|Hne]; [reflexivity|].
  apply not_true_is_false. intros H. apply Qeq_bool_iff in H.
  unfold Qeq in H. simpl in H. lia.
Qed.

Lemma Qle_bool_inject_Z (z : Z) : Qle_bool 0 (inject_Z z) = (0 <=? z).
Proof.
  unfold Qle_bool. simpl. rewrite Z.mul_1_r. reflexivity.
Qed.

Lemma index_equals_eq (i1 i2 : list string) :
  index_equals i1 i2 = true -> i1 = i2.
Proof.
  revert i2. induction i1 as [|a r IH]; intros [|b r2]; simpl;
    try discriminate; auto.
  intros H. apply andb_true_iff in H. destruct H as [Hab Hr].
  apply String.eqb_eq in Hab. subst. f_equal. apply IH, Hr.
Qed.

Lemma stats_index_In (occupied available : Series Z) (g : string) :
  In g (stats_index occupied available) <->
  In g (map fst occupied) \/ In g (map fst available).
Proof.
  unfold stats_index.
  destruct (index_equals (map fst occupied) (map fst available)) eqn:E.
  - apply index_equals_eq in E. rewrite <- E. tauto.
  - unfold sort_index. rewrite sort_rows_In.
    rewrite <- (map_id (drop_duplicates _ _ _)).
    rewrite (drop_duplicates_keys (fun x => x) String.eqb String.eqb_spec).
    rewrite map_id. apply in_app_iff.
Qed.

Lemma stats_index_NoDup (occupied available : Series Z) :
  NoDup (map fst occupied) -> NoDup (stats_index occupied available).
Proof.
  intros Hnd. unfold stats_index.
  destruct (index_equals (map fst occupied) (map fst available)); auto.
  unfold sort_index. eapply Permutation_NoDup; [apply sort_rows_perm|].
  rewrite <- (map_id (drop_duplicates _ _ _)).
  apply (drop_duplicates_NoDup (fun x => x) String.eqb String.eqb_spec).
Qed.

Lemma stats_labels (occupied available : Series Z) :
  map stats_GuideName (stats occupied available)
  = stats_index occupied available.
Proof. unfold stats. rewrite map_map. simpl. apply map_id. Qed.

Lemma stats_names (occupied available : Series Z) (g : string) :
  In g (map stats_GuideName (stats occupied available)) <->
  In g (map fst occupied) \/ In g (map fst available).
Proof. rewrite stats_labels. apply stats_index_In. Qed.

(** Known [float64] values: one tenth and one third, rounded to 53 bits;
    a tie, rounded to the even neighbour; a whole number, kept. *)
Lemma round64_examples :
  round64 (1 # 10) = FNum (3602879701896397 # 36028797018963968) /\
  round64 (1 # 3) = FNum (6004799503160661 # 18014398509481984) /\
  round64 (inject_Z (2 ^ 53 + 1)) = FNum (inject_Z (2 ^ 53)) /\
  round64 (inject_Z (2 ^ 53 + 3)) = FNum (inject_Z (2 ^ 53 + 4)) /\
  round64 (inject_Z 160) = FNum (inject_Z 160).
Proof. repeat split; vm_compute; reflexivity. Qed.

Lemma fdiv_finite (a b : Q) :
  Qeq_bool b 0 = false -> fdiv (FNum a) (FNum b) = round64 (a / b).
Proof. intros H. unfold fdiv. rewrite H. reflexivity. Qed.

Lemma occupancy_pct_cases (d a : option Z) :
  occupancy_pct d a = occupancy_cases d a.
Proof.
  unfold occupancy_pct, occupancy_cases.
  destruct d as [d|], a as [a|]; try reflexivity.
  unfold of_cell.
  destruct (Z.eqb_spec a 0) as [->|Ha].
  - unfold fdiv. rewrite !Qeq_bool_inject_Z, Qle_bool_inject_Z.
    destruct (Z.eqb_spec d 0); [reflexivity|].
    destruct (Z.leb_spec 0 d), (Z.ltb_spec 0 d); try reflexivity; lia.
  - rewrite fdiv_finite; [reflexivity|].
    rewrite Qeq_bool_inject_Z. apply Z.eqb_neq, Ha.
Qed.

(** C1, as stated, fails: with 5 occupied days and 0 available days the
    occupancy cell is plus infinity, not an undefined value. *)
Lemma occupancy_zero_available_is_infinite :
  exists r,
    In r (stats [("G1", 5)] [("G1", 0)]) /\
    DaysOccupied r = Some 5 /\ AvailableDays r = Some 0 /\
    OccupancyPct r = FPosInf /\ OccupancyPct r <> FNaN.
Proof.
  eexists. split; [left; reflexivity|].
  repeat split; try reflexivity. discriminate.
Qed.

(** C1, amended.  Both series come out of a [groupby], so each lists a
    guide once.  The occupancy table has one row per guide of either
    series, carrying the guide's two counts (missing when the guide is
    absent from a series).  With a non-zero AvailableDays, OccupancyPct is
    round(DaysOccupied / AvailableDays * 100, 2), every step computed in
    float64: the quotient is the nearest float64 of the exact quotient, and
    so on (23 over 160 gives the float64 of 14.37, the exact percentage
    being 14.375).  With AvailableDays 0 the computation does not fail: the
    cell is plus infinity when DaysOccupied is positive (5 over 0 gives
    infinity) and undefined (NaN) only when DaysOccupied is 0 as well; it
    is never 0.  A missing count makes the cell undefined. *)
Theorem occupancy_stats_cells :
  forall (occupied available : Series Z),
    NoDup (map fst occupied) -> NoDup (map fst available) ->
    NoDup (map stats_GuideName (stats occupied available)) /\
    (forall g,
        In g (map stats_GuideName (stats occupied available)) <->
        In g (map fst occupied) \/ In g (map fst available)) /\
    (forall r,
        In r (stats occupied available) ->
        DaysOccupied r = lookup (stats_GuideName r) occupied /\
        AvailableDays r = lookup (stats_GuideName r) available /\
        OccupancyPct r = occupancy_cases (DaysOccupied r) (AvailableDays r)) /\
    (forall d a,
        a <> 0 ->
        occupancy_pct (Some d) (Some a)
        = fround2 (fmul (round64 (inject_Z d / inject_Z a)) (FNum 100))) /\
    (forall d,
        0 < d ->
        occupancy_pct (Some d) (Some 0) = FPosInf) /\
    occupancy_pct (Some 0) (Some 0) = FNaN /\
    (forall a, occupancy_pct None a = FNaN) /\
    (forall d, occupancy_pct d None = FNaN) /\
    occupancy_pct (Some 23) (Some 160) = round64 (1437 # 100) /\
    occupancy_pct (Some 1) (Some 32) = round64 (312 # 100).
Proof.
  intros occupied available Hocc Hav.
  split; [|split; [|split; [|split; [|split; [|split; [|split;
    [|split; [|split]]]]]]]].
  - rewrite stats_labels. apply stats_index_NoDup, Hocc.
  - apply stats_names.
  - intros r Hr. unfold stats in Hr. apply in_map_iff in Hr.
    destruct Hr as (g & <- & _). simpl. repeat split.
    apply occupancy_pct_cases.
  - intros d a Ha. rewrite occupancy_pct_cases. unfold occupancy_cases.
    destruct (Z.eqb_spec a 0); congruence.
  - intros d Hd. rewrite occupancy_pct_cases. unfold occupancy_cases.
    destruct (Z.eqb_spec d 0); [lia|].
    destruct (Z.ltb_spec 0 d); [reflexivity|lia].
  - reflexivity.
  - intros a. reflexivity.
  - intros [d|]; reflexivity.
  - vm_compute. reflexivity.
  - vm_compute. reflexivity.
Qed.

Lemma occupancy_stats_cells_witness :
  let occupied := [("Ann", 23); ("Bob", 5); ("Cy", 0)] in
  let available := [("Ann", 160); ("Bob", 0); ("Cy", 0); ("Dee", 4)] in
  map (fun r => (stats_GuideName r, OccupancyPct r))
      (stats occupied available)
  = [("Ann", round64 (1437 # 100)); ("Bob", FPosInf); ("Cy", FNaN);
     ("Dee", FNaN)] /\
  NoDup (map stats_GuideName (stats occupied available)) /\
  occupancy_pct (Some 1) (Some 3)
  = fround2 (fmul (round64 (inject_Z 1 / inject_Z 3)) (FNum 100)) /\
  fround2 (fmul (round64 (inject_Z 1 / inject_Z 3)) (FNum 100))
  = round64 (3333 # 100) /\
  occupancy_pct (Some 5) (Some 0) = FPosInf.
Proof.
  intros occupied available.
  assert (Hocc : NoDup (map fst occupied)).
  { apply distinct_NoDup. reflexivity. }
  assert (Hav : NoDup (map fst available)).
  { apply distinct_NoDup. reflexivity. }
  destruct (occupancy_stats_cells occupied available Hocc Hav)
    as (Hnd & _ & _ & Hr & Hinf & _).
  split; [vm_compute; reflexivity|]. split; [exact Hnd|].
  split; [apply Hr; lia|]. split; [vm_compute; reflexivity|].
  apply Hinf. lia.
Defined.

(* ------------------------------------------------------------------ *)
(** ** Days not available *)

(** C5, as stated, fails: availability recorded for a date outside March
    gives a guide 32 available days, and the March table reports -1 days
    not available for that guide, as a plain count. *)
Lemma not_available_negative_reported :
  get_days_in_month 3 YEAR = Some 31 /\
  available_days_per_guide [guide "G1" "Ann" "Rome"] thirty_two_days
  = [("Ann", 32)] /\
  not_available_period 3 [guide "G1" "Ann" "Rome"] thirty_two_days
  = Some [("Ann", -1)].
Proof. vm_compute. repeat split. Qed.

(** C5, amended.  For every guide of the available-days series the
    not-available count is the month's number of days minus the guide's
    available-day count, whatever its sign: the table holds exactly these
    differences, in descending order, and a count above the number of days
    of the month shows up as a negative value, without any warning or
    error.  March and May 2025 have 31 days, April and June 30. *)
Theorem not_available_is_difference :
  forall (days_in_month : Z) (available : Series Z),
    (forall g n,
        In (g, n) (not_available days_in_month available) <->
        exists v, In (g, v) available /\ n = days_in_month - v) /\
    length (not_available days_in_month available) = length available /\
    StronglySorted (fun a b => snd b <= snd a)
                   (not_available days_in_month available) /\
    (forall g v,
        In (g, v) available -> days_in_month < v ->
        exists n, In (g, n) (not_available days_in_month available) /\ n < 0) /\
    get_days_in_month 3 YEAR = Some 31 /\
    get_days_in_month 4 YEAR = Some 30 /\
    get_days_in_month 5 YEAR = Some 31 /\
    get_days_in_month 6 YEAR = Some 30 /\
    (forall month days guides availability,
        get_days_in_month month YEAR = Some days ->
        not_available_period month guides availability
        = Some (not_available days
                  (available_days_per_guide guides availability))).
Proof.
  intros days available.
  assert (Hin : forall g n,
             In (g, n) (not_available days available) <->
             exists v, In (g, v) available /\ n = days - v).
  { intros g n. unfold not_available, sort_values_desc.
    rewrite sort_rows_In, in_map_iff. split.
    - intros ([g' v] & E & H). inversion E; subst. exists v. auto.
    - intros (v & H & ->). exists (g, v). auto. }
  split; [exact Hin|]. split; [|split; [|split]].
  - unfold not_available, sort_values_desc.
    rewrite sort_rows_length, length_map. reflexivity.
  - apply sort_values_desc_sorted.
  - intros g v Hv Hlt. exists (days - v). split; [|lia].
    apply Hin. exists v. auto.
  - repeat split.
    intros month d guides availability E.
    unfold not_available_period. rewrite E. reflexivity.
Qed.

Lemma not_available_is_difference_witness :
  exists n, In ("Ann", n) (not_available 31 [("Ann", 32); ("Bob", 3)]) /\ n < 0.
Proof.
  destruct (not_available_is_difference 31 [("Ann", 32); ("Bob", 3)])
    as (_ & _ & _ & H & _).
  apply (H "Ann" 32); [left; reflexivity|lia].
Defined.

(* ------------------------------------------------------------------ *)
(** ** Grouping *)

Lemma dropna_In {A : Type} (col : list (option A)) (a : A) :
  In a (dropna col) <-> In (Some a) col.
Proof.
  induction col as [|[x|] r IH]; simpl; [tauto| |].
  - rewrite IH. split; intros [H|H]; auto; left; congruence.
  - rewrite IH. split; auto. intros [H|H]; auto. discriminate.
Qed.

Lemma drop_duplicates_id_In {A : Type} (eqb : A -> A -> bool)
      (eqb_spec : forall x y, reflect (x = y) (eqb x y)) (l : list A) (a : A) :
  In a (drop_duplicates (fun x => x) eqb l) <-> In a l.
Proof.
  pose proof (drop_duplicates_keys (fun x => x) eqb eqb_spec l a) as H.
  rewrite !map_id in H. exact H.
Qed.

Lemma drop_duplicates_id_NoDup {A : Type} (eqb : A -> A -> bool)
      (eqb_spec : forall x y, reflect (x = y) (eqb x y)) (l : list A) :
  NoDup (drop_duplicates (fun x => x) eqb l).
Proof.
  pose proof (drop_duplicates_NoDup (fun x => x) eqb eqb_spec l) as H.
  rewrite map_id in H. exact H.
Qed.

Lemma group_labels_In (by_col : list (option string)) (k : string) :
  In k (group_labels by_col) <-> In (Some k) by_col.
Proof.
  unfold group_labels, sort_index. rewrite sort_rows_In.
  rewrite (drop_duplicates_id_In _ String.eqb_spec). apply dropna_In.
Qed.

Lemma group_labels_NoDup (by_col : list (option string)) :
  NoDup (group_labels by_col).
Proof.
  unfold group_labels, sort_index.
  eapply Permutation_NoDup; [apply sort_rows_perm|].
  apply (drop_duplicates_id_NoDup _ String.eqb_spec).
Qed.

Lemma label_is_true (k : string) (o : option string) :
  label_is k o = true <-> o = Some k.
Proof.
  destruct o as [s|]; simpl; [|split; discriminate].
  rewrite String.eqb_eq. split; congruence.
Qed.

Lemma groupby_nunique_In {A : Type} (by_col : A -> option string)
      (col : A -> option Timestamp) (df : list A) (k : string) (c : Z) :
  In (k, c) (groupby_nunique by_col col df) <->
  In (Some k) (map by_col df) /\
  c = nunique (map col (filter (fun r => label_is k (by_col r)) df)).
Proof.
  unfold groupby_nunique. rewrite in_map_iff. split.
  - intros (k' & E & Hk). inversion E; subst.
    split; auto. apply group_labels_In, Hk.
  - intros (Hk & ->). exists k. split; auto. apply group_labels_In, Hk.
Qed.

Lemma groupby_nunique_labels {A : Type} (by_col : A -> option string)
      (col : A -> option Timestamp) (df : list A) :
  map fst (groupby_nunique by_col col df) = group_labels (map by_col df).
Proof.
  unfold groupby_nunique. rewrite map_map. simpl. apply map_id.
Qed.

(** The distinct dates behind a [nunique] cell. *)
Lemma nunique_dates (col : list (option Timestamp)) :
  exists ds, NoDup ds /\ nunique col = Z.of_nat (length ds) /\
             forall d, In d ds <-> In (Some d) col.
Proof.
  exists (drop_duplicates (fun x => x) Timestamp_eqb (dropna col)).
  split; [apply (drop_duplicates_id_NoDup _ Timestamp_eqb_spec)|].
  split; [reflexivity|].
  intros d. rewrite (drop_duplicates_id_In _ Timestamp_eqb_spec).
  apply dropna_In.
Qed.

(* ------------------------------------------------------------------ *)
(** ** Availability days *)

Lemma valid_avail_In guides availability g o :
  In (g, o) (valid_avail (availability_days_guides guides availability)) <->
  exists a, o = Some a /\ In g guides /\ In a availability /\
            Availability.GuideID a = Guides.id g /\
            present_nonempty (Availability.GuideAvailability a) = true.
Proof.
  unfold valid_avail, availability_days_guides.
  rewrite filter_In, merge_left_In. unfold GuideAvailability_of. simpl.
  split.
  - intros ((Hg & Ho) & Hp). destruct o as [a|]; [|discriminate].
    exists a. tauto.
  - intros (a & -> & Hg & Ha & E & Hp). tauto.
Qed.

(** The available-days series, row by row, in terms of the two input
    tables. *)
Lemma available_days_by_name :
  forall (guides : list Guides.row) (availability : list Availability.row),
    let result := available_days_per_guide guides availability in
    StronglySorted (fun a b => snd b <= snd a) result /\
    NoDup (map fst result) /\
    (forall name,
        In name (map fst result) <->
        exists d, has_slot_on guides availability name d) /\
    (forall name c,
        In (name, c) result ->
        exists dates,
          NoDup dates /\ c = Z.of_nat (length dates) /\
          forall d, In d dates <->
                    has_slot_on guides availability name (Some d)) /\
    (forall n,
        let top := most_available_guides n guides availability in
        (length top <= n)%nat /\ incl top result /\
        StronglySorted (fun a b => snd b <= snd a) top) /\
    available_days_per_guide
      [guide "G1" "G1" "Rome"]
      [avail "G1" (Some (mar 1)) (Some "9-12");
       avail "G1" (Some (mar 1)) (Some "13-15");
       avail "G1" (Some (mar 2)) (Some "")]
    = [("G1", 1)].
Proof.
  intros guides availability result.
  unfold result, available_days_per_guide.
  set (df := valid_avail (availability_days_guides guides availability)).
  set (by_col := fun r : Guides.row * option Availability.row =>
                   Some (Guides.GuideName (fst r))).
  assert (Hby : forall name d,
             (exists r, In r df /\ by_col r = Some name /\
                        AvailabilityDate_of r = d) <->
             has_slot_on guides availability name d).
  { intros name d. unfold has_slot_on, df, by_col. split.
    - intros ([g o] & Hin & E & Hd). apply valid_avail_In in Hin.
      destruct Hin as (a & -> & Hg & Ha & Hid & Hp).
      simpl in E. inversion E. exists g, a. tauto.
    - intros (g & a & Hg & Ha & Hid & Hn & Hp & Hd).
      exists (g, Some a). split; [|split].
      + apply valid_avail_In. exists a. tauto.
      + simpl. congruence.
      + exact Hd. }
  split; [apply sort_values_desc_sorted|]. split; [|split; [|split; [|split]]].
  - eapply Permutation_NoDup.
    + apply Permutation_map. apply sort_rows_perm.
    + rewrite groupby_nunique_labels. apply group_labels_NoDup.
  - intros name. unfold sort_values_desc. split.
    + intros H. apply in_map_iff in H. destruct H as ([k c] & E & H).
      simpl in E. subst k. apply sort_rows_In in H.
      apply groupby_nunique_In in H. destruct H as [H _].
      apply in_map_iff in H. destruct H as (r & E & Hr).
      exists (AvailabilityDate_of r). apply Hby. exists r. auto.
    + intros (d & H). apply Hby in H. destruct H as (r & Hr & E & _).
      apply in_map_iff.
      exists (name, nunique (map AvailabilityDate_of
                                 (filter (fun r => label_is name (by_col r)) df))).
      split; auto. apply sort_rows_In. apply groupby_nunique_In.
      split; auto. apply in_map_iff. exists r. auto.
  - intros name c H. unfold sort_values_desc in H. apply sort_rows_In in H.
    apply groupby_nunique_In in H. destruct H as [_ ->].
    destruct (nunique_dates
                (map AvailabilityDate_of
                     (filter (fun r => label_is name (by_col r)) df)))
      as (ds & Hnd & Hc & Hds).
    exists ds. split; auto. split; auto.
    intros d. rewrite Hds, <- Hby, in_map_iff. split.
    + intros (r & E & Hr). apply filter_In in Hr. destruct Hr as [Hr Hl].
      apply label_is_true in Hl. exists r. auto.
    + intros (r & Hr & E & Hd). exists r. split; auto.
      apply filter_In. split; auto. apply label_is_true, E.
  - intros n. unfold most_available_guides, available_days_per_guide.
    fold df. fold by_col.
    split; [apply firstn_le_length|]. split.
    + intros x Hx. eapply head_In. exact Hx.
    + apply StronglySorted_firstn, sort_values_desc_sorted.
  - reflexivity.
Qed.

Lemma NoDup_map_eq {A B : Type} (f : A -> B) (l : list A) (x y : A) :
  NoDup (map f l) -> In x l -> In y l -> f x = f y -> x = y.
Proof.
  induction l as [|a l IH]; simpl; intros Hnd Hx Hy E; [contradiction|].
  inversion Hnd; subst.
  destruct Hx as [<-|Hx], Hy as [<-|Hy]; auto.
  - exfalso. apply H1. rewrite E. apply in_map, Hy.
  - exfalso. apply H1. rewrite <- E. apply in_map, Hx.
Qed.

(** C4. [available_days_per_guide] has one row per guide name that has a
    record with a present, non-empty GuideAvailability; the row's count is
    the number of distinct AvailabilityDate values among those records of
    that guide name; the rows come in descending order of count.  On the
    three records of the example (two slots on March 1, an empty slot on
    March 2) the result for G1 is 1.  The ten-row table of insight 4.1 is
    the head of that series.  When no two guides share a name, the count of
    a guide's row is the number of distinct dates among the guide's own
    records with a present, non-empty slot. *)
Theorem available_days_per_guide_counts :
  forall (guides : list Guides.row) (availability : list Availability.row),
    let result := available_days_per_guide guides availability in
    StronglySorted (fun a b => snd b <= snd a) result /\
    NoDup (map fst result) /\
    (forall name,
        In name (map fst result) <->
        exists d, has_slot_on guides availability name d) /\
    (forall name c,
        In (name, c) result ->
        exists dates,
          NoDup dates /\ c = Z.of_nat (length dates) /\
          forall d, In d dates <->
                    has_slot_on guides availability name (Some d)) /\
    (forall n,
        let top := most_available_guides n guides availability in
        (length top <= n)%nat /\ incl top result /\
        StronglySorted (fun a b => snd b <= snd a) top) /\
    available_days_per_guide
      [guide "G1" "G1" "Rome"]
      [avail "G1" (Some (mar 1)) (Some "9-12");
       avail "G1" (Some (mar 1)) (Some "13-15");
       avail "G1" (Some (mar 2)) (Some "")]
    = [("G1", 1)] /\
    (NoDup (map Guides.GuideName guides) ->
     forall g c,
       In g guides -> In (Guides.GuideName g, c) result ->
       exists dates,
         NoDup dates /\ c = Z.of_nat (length dates) /\
         forall d,
           In d dates <->
           exists a,
             In a availability /\
             Availability.GuideID a = Guides.id g /\
             present_nonempty (Availability.GuideAvailability a) = true /\
             Availability.AvailabilityDate a = Some d).
Proof.
  intros guides availability result.
  destruct (available_days_by_name guides availability)
    as (H1 & H2 & H3 & H4 & H5 & H6).
  repeat (split; [assumption|]).
  intros Hnames g c Hg Hc.
  destruct (H4 _ _ Hc) as (dates & Hnd & Hlen & Hdates).
  exists dates. split; auto. split; auto.
  intros d. rewrite Hdates. unfold has_slot_on. split.
  - intros (g' & a & Hg' & Ha & Hid & Hn & Hp & Hd).
    assert (g' = g) by (eapply NoDup_map_eq; eauto). subst g'.
    exists a. auto.
  - intros (a & Ha & Hid & Hp & Hd). exists g, a. auto 10.
Qed.

(** The example's guide has a slot on March 1, so it has a row. *)
Lemma available_days_per_guide_counts_witness :
  let guides := [guide "G1" "G1" "Rome"] in
  let availability :=
    [avail "G1" (Some (mar 1)) (Some "9-12");
     avail "G1" (Some (mar 1)) (Some "13-15");
     avail "G1" (Some (mar 2)) (Some "")] in
  In "G1" (map fst (available_days_per_guide guides availability)).
Proof.
  intros guides availability.
  destruct (available_days_per_guide_counts guides availability)
    as (_ & _ & Hnames & _).
  apply Hnames. exists (Some (mar 1)).
  exists (guide "G1" "G1" "Rome"), (avail "G1" (Some (mar 1)) (Some "9-12")).
  simpl. repeat split; auto.
Defined.

(* ------------------------------------------------------------------ *)
(** ** Counting values *)

Lemma cell_eqb_spec (a b : option string) : reflect (a = b) (cell_eqb a b).
Proof.
  destruct a as [x|], b as [y|]; simpl; try (constructor; congruence).
  destruct (String.eqb_spec x y); constructor; congruence.
Qed.

Lemma count_dropna {A : Type} (col : A -> option string) (k : string)
      (df : list A) :
  count_key (fun x => x) String.eqb k (dropna (map col df))
  = rows_with col k df.
Proof.
  unfold rows_with, count_key.
  induction df as [|r df IH]; simpl; auto.
  destruct (col r) as [s|]; simpl; auto.
  destruct (String.eqb s k); simpl; auto.
Qed.

Lemma first_pos_dropna {A : Type} (col : A -> option string) (a b : string)
      (df : list A) :
  (first_pos (fun x => x) String.eqb a (dropna (map col df))
   < first_pos (fun x => x) String.eqb b (dropna (map col df)))%nat ->
  (first_row col a df < first_row col b df)%nat.
Proof.
  unfold first_row.
  induction df as [|r df IH]; simpl; auto.
  destruct (col r) as [s|]; simpl.
  - destruct (String.eqb s a), (String.eqb s b); lia.
  - lia.
Qed.

Lemma StronglySorted_map {A B : Type} (f : A -> B) (R : B -> B -> Prop)
      (l : list A) :
  StronglySorted (fun x y => R (f x) (f y)) l -> StronglySorted R (map f l).
Proof.
  induction 1 as [|a l Hl IH Ha]; simpl; constructor; auto.
  rewrite Forall_forall in *. intros y Hy. apply in_map_iff in Hy.
  destruct Hy as (x & <- & Hx). apply Ha, Hx.
Qed.

Lemma StronglySorted_app_inv {A : Type} (R : A -> A -> Prop)
      (l1 l2 : list A) :
  StronglySorted R (l1 ++ l2)%list ->
  forall x y, In x l1 -> In y l2 -> R x y.
Proof.
  induction l1 as [|a l1 IH]; simpl; intros H x y Hx Hy; [contradiction|].
  inversion H; subst. destruct Hx as [<-|Hx].
  - rewrite Forall_forall in H3. apply H3. apply in_or_app. auto.
  - apply IH; auto.
Qed.

Lemma sumZ_perm (l l' : list Z) : Permutation l l' -> sumZ l = sumZ l'.
Proof.
  induction 1; simpl; lia.
Qed.

Lemma sumZ_firstn_le (n : nat) (l : list Z) :
  Forall (fun z => 0 <= z) l -> sumZ (firstn n l) <= sumZ l.
Proof.
  intros H. revert n. induction H as [|z l Hz Hl IH]; intros [|n]; simpl;
    try lia.
  - assert (0 <= sumZ l); [|lia].
    clear -Hl. induction Hl; simpl; lia.
  - specialize (IH n). lia.
Qed.

Lemma dropna_length {A : Type} (col : list (option A)) :
  (length (dropna col) <= length col)%nat /\
  (In None col -> (length (dropna col) < length col)%nat).
Proof.
  induction col as [|[x|] r [IH1 IH2]]; simpl.
  - split; [lia|tauto].
  - split; [lia|]. intros [H|H]; [discriminate|]. specialize (IH2 H). lia.
  - split; lia.
Qed.

Section ValueCounts.
Context {A : Type}.
Variable col : A -> option string.
Variable df : list A.

Lemma value_counts_In (k : string) (c : Z) :
  In (k, c) (value_counts (map col df)) <->
  In (Some k) (map col df) /\ c = Z.of_nat (rows_with col k df).
Proof.
  unfold value_counts, counts, sort_values_desc.
  rewrite sort_rows_In, in_map_iff. rewrite <- count_dropna. split.
  - intros (k' & E & Hk). inversion E; subst. split; auto.
    apply dropna_In. apply (drop_duplicates_id_In _ String.eqb_spec), Hk.
  - intros (Hk & ->). exists k. split; auto.
    apply (drop_duplicates_id_In _ String.eqb_spec). apply dropna_In, Hk.
Qed.

Lemma value_counts_NoDup : NoDup (map fst (value_counts (map col df))).
Proof.
  unfold value_counts, counts, sort_values_desc.
  eapply Permutation_NoDup;
    [apply Permutation_map, sort_rows_perm|].
  rewrite map_map. simpl. rewrite map_id.
  apply (drop_duplicates_id_NoDup _ String.eqb_spec).
Qed.

(** The stable outcome: descending counts, equal counts by first appearance
    in the column. *)
Lemma value_counts_order :
  StronglySorted
    (fun a b =>
       snd b < snd a \/
       (snd a = snd b /\
        (first_row col (fst a) df < first_row col (fst b) df)%nat))
    (value_counts (map col df)).
Proof.
  unfold value_counts, counts.
  apply (sort_values_desc_stable snd
           (fun a b => (first_row col (fst a) df
                        < first_row col (fst b) df)%nat)).
  apply StronglySorted_map. simpl.
  eapply StronglySorted_impl_in;
    [|apply (drop_duplicates_order (fun x => x) String.eqb String.eqb_spec)].
  intros x y _ _ H. apply first_pos_dropna. exact H.
Qed.

Lemma value_counts_positive :
  Forall (fun z => 0 < z) (map snd (value_counts (map col df))).
Proof.
  apply Forall_forall. intros z Hz. apply in_map_iff in Hz.
  destruct Hz as ([k c] & E & H). simpl in E. subst c.
  apply value_counts_In in H. destruct H as [Hk ->].
  rewrite <- count_dropna.
  apply dropna_In in Hk.
  pose proof (proj1 (count_key_pos (fun x => x) String.eqb String.eqb_spec
                       k (dropna (map col df)))) as Hp.
  rewrite map_id in Hp. specialize (Hp Hk). lia.
Qed.

(** The counts add up to the number of rows with a present value. *)
Lemma value_counts_total :
  sumZ (map snd (value_counts (map col df)))
  = Z.of_nat (length (dropna (map col df))).
Proof.
  unfold value_counts, counts, sort_values_desc.
  rewrite <- (sumZ_perm _ _ (Permutation_map snd (sort_rows_perm _ _))).
  rewrite map_map. simpl.
  rewrite <- (count_key_total (fun x => x) String.eqb String.eqb_spec
                (dropna (map col df))).
  induction (drop_duplicates (fun x => x) String.eqb (dropna (map col df)))
    as [|k ks IH]; simpl; auto.
  rewrite IH. lia.
Qed.

End ValueCounts.

Lemma NoDup_firstn {A : Type} (n : nat) (l : list A) :
  NoDup l -> NoDup (firstn n l).
Proof.
  intros H. rewrite <- (firstn_skipn n l) in H.
  apply NoDup_app_remove_r in H. exact H.
Qed.

Section TopN.
Context {A : Type}.
Variable col : A -> option string.
Variable df : list A.
Variable n : nat.

Let result : Series Z := head n (value_counts (map col df)).

Lemma top_n_length : (length result <= n)%nat.
Proof. apply firstn_le_length. Qed.

Lemma top_n_NoDup : NoDup (map fst result).
Proof.
  unfold result, head. rewrite <- firstn_map.
  apply NoDup_firstn, value_counts_NoDup.
Qed.

Lemma top_n_In k c :
  In (k, c) result ->
  In (Some k) (map col df) /\ c = Z.of_nat (rows_with col k df) /\ 0 < c.
Proof.
  intros H. apply head_In in H.
  pose proof (value_counts_positive col df) as Hp.
  rewrite Forall_forall in Hp.
  assert (0 < c) by (apply Hp; apply in_map_iff; exists (k, c); auto).
  apply value_counts_In in H. tauto.
Qed.

Lemma top_n_order :
  StronglySorted
    (fun a b =>
       snd b < snd a \/
       (snd a = snd b /\
        (first_row col (fst a) df < first_row col (fst b) df)%nat))
    result.
Proof. apply StronglySorted_firstn, value_counts_order. Qed.

Lemma top_n_total :
  sumZ (map snd result) <= Z.of_nat (length (dropna (map col df))).
Proof.
  rewrite <- value_counts_total. unfold result, head.
  rewrite <- firstn_map. apply sumZ_firstn_le.
  eapply Forall_impl; [|apply value_counts_positive].
  simpl. intros; lia.
Qed.

Lemma top_n_total_lt :
  In None (map col df) ->
  sumZ (map snd result) < Z.of_nat (length df).
Proof.
  intros H. pose proof top_n_total as Ht.
  apply (dropna_length (map col df)) in H.
  rewrite length_map in H. lia.
Qed.

End TopN.

(** The stable outcome is one of the outcomes of [value_counts]. *)
Lemma value_counts_is_outcome (col : list (option string)) :
  is_value_counts col (value_counts col).
Proof.
  split; [apply sort_rows_perm|apply sort_values_desc_sorted].
Qed.

Lemma top_tours_is_outcome (n : nat)
      (bt : list (Bookings.row * option Tours.row)) :
  is_top_tours n bt (top_tours n bt).
Proof.
  exists (value_counts (map TourName_of bt)).
  split; [apply value_counts_is_outcome|reflexivity].
Qed.

Lemma top_guides_is_outcome (n : nat)
      (bm : list (Bookings.row * option Tours.row * option Guides.row)) :
  is_top_guides n bm (top_guides n bm).
Proof.
  exists (value_counts (map GuideName_of bm)).
  split; [apply value_counts_is_outcome|reflexivity].
Qed.

(** Any two outcomes of [value_counts] hold the same entries. *)
Lemma is_value_counts_perm (col : list (option string)) (vc : Series Z) :
  is_value_counts col vc -> Permutation (value_counts col) vc.
Proof.
  intros [Hp _]. eapply perm_trans; [|exact Hp].
  apply Permutation_sym, sort_rows_perm.
Qed.

Section TopNOutcome.
Context {A : Type}.
Variable col : A -> option string.
Variable df : list A.
Variable n : nat.
Variable vc : Series Z.
Hypothesis outcome : is_value_counts (map col df) vc.

Lemma outcome_In (k : string) (c : Z) :
  In (k, c) vc <->
  In (Some k) (map col df) /\ c = Z.of_nat (rows_with col k df).
Proof.
  rewrite <- value_counts_In. split; apply Permutation_in.
  - apply Permutation_sym, is_value_counts_perm, outcome.
  - apply is_value_counts_perm, outcome.
Qed.

Lemma outcome_NoDup : NoDup (map fst vc).
Proof.
  eapply Permutation_NoDup;
    [apply Permutation_map, is_value_counts_perm, outcome|].
  apply value_counts_NoDup.
Qed.

Lemma outcome_positive : Forall (fun z => 0 < z) (map snd vc).
Proof.
  eapply Permutation_Forall;
    [apply Permutation_map, is_value_counts_perm, outcome|].
  apply value_counts_positive.
Qed.

Lemma outcome_total :
  sumZ (map snd vc) = Z.of_nat (length (dropna (map col df))).
Proof.
  rewrite <- value_counts_total. apply sumZ_perm, Permutation_sym.
  apply Permutation_map, is_value_counts_perm, outcome.
Qed.

Lemma outcome_top_length : (length (head n vc) <= n)%nat.
Proof. apply firstn_le_length. Qed.

Lemma outcome_top_NoDup : NoDup (map fst (head n vc)).
Proof.
  unfold head. rewrite <- firstn_map. apply NoDup_firstn, outcome_NoDup.
Qed.

Lemma outcome_top_In k c :
  In (k, c) (head n vc) ->
  In (Some k) (map col df) /\ c = Z.of_nat (rows_with col k df) /\ 0 < c.
Proof.
  intros H. apply head_In in H.
  pose proof outcome_positive as Hp. rewrite Forall_forall in Hp.
  assert (0 < c) by (apply Hp; apply in_map_iff; exists (k, c); auto).
  apply outcome_In in H. tauto.
Qed.

Lemma outcome_top_sorted :
  StronglySorted (fun a b => snd b <= snd a) (head n vc).
Proof. apply StronglySorted_firstn, outcome. Qed.

(** A value left out of the first [n] is counted no more often than any
    value kept, and then the table is full. *)
Lemma outcome_top_left_out k :
  In (Some k) (map col df) -> ~ In k (map fst (head n vc)) ->
  length (head n vc) = n /\
  forall e, In e (head n vc) -> Z.of_nat (rows_with col k df) <= snd e.
Proof.
  intros Hk Hout.
  assert (Hin : In (k, Z.of_nat (rows_with col k df)) vc)
    by (apply outcome_In; auto).
  rewrite <- (firstn_skipn n vc) in Hin.
  apply in_app_or in Hin. destruct Hin as [Hin|Hin].
  { exfalso. apply Hout. apply in_map_iff. eexists. split; [|exact Hin].
    reflexivity. }
  split.
  - unfold head. apply firstn_length_le.
    destruct (Nat.le_gt_cases n (length vc)) as [Hle|Hgt]; auto.
    rewrite skipn_all2 in Hin by lia. destruct Hin.
  - intros e He. destruct outcome as [_ Hs].
    rewrite <- (firstn_skipn n vc) in Hs.
    pose proof (StronglySorted_app_inv _ _ _ Hs e _ He Hin) as H.
    simpl in H. exact H.
Qed.

(** A table that holds every value counts every row with a present
    value. *)
Lemma outcome_top_complete :
  (length (counts (map col df)) <= n)%nat ->
  head n vc = vc /\
  sumZ (map snd (head n vc)) = Z.of_nat (length (dropna (map col df))).
Proof.
  intros H. destruct outcome as [Hp _].
  rewrite (Permutation_length Hp) in H.
  unfold head. rewrite firstn_all2 by exact H.
  split; [reflexivity|]. apply outcome_total.
Qed.

(** The counts of the table add up to at most the number of rows with a
    present value: rows with a missing value are counted nowhere. *)
Lemma outcome_top_total :
  sumZ (map snd (head n vc)) <= Z.of_nat (length (dropna (map col df))).
Proof.
  rewrite <- outcome_total. unfold head.
  rewrite <- firstn_map. apply sumZ_firstn_le.
  eapply Forall_impl; [|apply outcome_positive].
  simpl. intros; lia.
Qed.

Lemma outcome_top_total_lt :
  In None (map col df) ->
  sumZ (map snd (head n vc)) < Z.of_nat (length df).
Proof.
  intros H. pose proof outcome_top_total as Ht.
  apply (dropna_length (map col df)) in H.
  rewrite length_map in H. lia.
Qed.

End TopNOutcome.

Lemma StronglySorted_equal_counts (l : Series Z) (c : Z) :
  Forall (fun e => snd e = c) l ->
  StronglySorted (fun a b : string * Z => snd b <= snd a) l.
Proof.
  induction 1 as [|e l He Hl IH]; constructor; auto.
  rewrite Forall_forall in *. intros x Hx. rewrite (Hl x Hx), He. lia.
Qed.

(** C6, as stated, fails: the counts are sorted with the default algorithm
    of the library, a quicksort, which promises no order among equal
    counts.  With twenty tours booked once each, in the order Tour01 to
    Tour20, every arrangement of the twenty counts is in descending order.
    The one below, which keeps the two ends of the run and reverses the
    rest as a partitioning sort does, is an outcome of the computation: its
    first ten entries list Tour19 ahead of Tour18 and leave out Tour03,
    against the order of first appearance. *)
Lemma top_tours_tie_order_not_fixed :
  let bt := bookings_tours twenty_bookings twenty_tours in
  let result :=
    [("Tour01", 1); ("Tour02", 1); ("Tour19", 1); ("Tour18", 1);
     ("Tour17", 1); ("Tour16", 1); ("Tour15", 1); ("Tour14", 1);
     ("Tour13", 1); ("Tour12", 1)] in
  is_top_tours 10 bt result /\
  (first_row TourName_of "Tour18" bt
   < first_row TourName_of "Tour19" bt)%nat /\
  (first_row TourName_of "Tour03" bt
   < first_row TourName_of "Tour19" bt)%nat /\
  ~ In "Tour03" (map fst result) /\
  ~ StronglySorted
      (fun a b =>
         snd b < snd a \/
         (snd a = snd b /\
          (first_row TourName_of (fst a) bt
           < first_row TourName_of (fst b) bt)%nat))
      result.
Proof.
  intros bt result.
  set (ends := [("Tour01", 1); ("Tour02", 1)]).
  set (run := map (fun i => (("Tour" ++ i)%string, 1))
                  ["03"; "04"; "05"; "06"; "07"; "08"; "09"; "10"; "11";
                   "12"; "13"; "14"; "15"; "16"; "17"; "18"; "19"]).
  split; [|split; [|split; [|split]]].
  - exists (ends ++ rev run ++ [("Tour20", 1)])%list.
    split; [|reflexivity]. split.
    + change (counts (map TourName_of bt))
        with (ends ++ run ++ [("Tour20", 1)])%list.
      apply Permutation_app_head, Permutation_app_tail, Permutation_rev.
    + apply (StronglySorted_equal_counts _ 1).
      repeat constructor.
  - vm_compute. lia.
  - vm_compute. lia.
  - vm_compute. intuition discriminate.
  - intros H.
    pose proof (StronglySorted_app_inv _
                  [("Tour01", 1); ("Tour02", 1); ("Tour19", 1)]
                  [("Tour18", 1); ("Tour17", 1); ("Tour16", 1);
                   ("Tour15", 1); ("Tour14", 1); ("Tour13", 1);
                   ("Tour12", 1)] H ("Tour19", 1) ("Tour18", 1)) as Hx.
    simpl in Hx.
    destruct Hx as [Hx|[_ Hx]]; [tauto|tauto|lia|].
    vm_compute in Hx. lia.
Qed.

(** C6, amended.  For every bookings table, tours table and [n], whatever
    order the sort leaves equal counts in, the top-tours table has at most
    [n] entries, one per tour name; each entry carries the number of
    booking rows with that tour name; the entries come in descending order
    of count; a tour name left out is booked no more often than any tour
    kept.  The order among entries of equal count is not determined. *)
Theorem top_tours_at_most_n_sorted :
  forall (n : nat) (bookings : list Bookings.row) (tours : list Tours.row)
         (result : Series Z),
    let bt := bookings_tours bookings tours in
    is_top_tours n bt result ->
    (length result <= n)%nat /\
    NoDup (map fst result) /\
    (forall name c,
        In (name, c) result ->
        In (Some name) (map TourName_of bt) /\
        c = Z.of_nat (rows_with TourName_of name bt) /\ 0 < c) /\
    StronglySorted (fun a b => snd b <= snd a) result /\
    (forall a b l1 l2 l3,
        result = (l1 ++ a :: l2 ++ b :: l3)%list -> snd b <= snd a) /\
    (forall name,
        In (Some name) (map TourName_of bt) ->
        ~ In name (map fst result) ->
        length result = n /\
        forall e, In e result ->
                  Z.of_nat (rows_with TourName_of name bt) <= snd e).
Proof.
  intros n bookings tours result bt (vc & Hvc & ->).
  split; [apply outcome_top_length|].
  split; [apply (outcome_top_NoDup TourName_of bt n vc Hvc)|].
  split; [apply (outcome_top_In TourName_of bt n vc Hvc)|].
  split; [apply (outcome_top_sorted TourName_of bt n vc Hvc)|].
  split; [|apply (outcome_top_left_out TourName_of bt n vc Hvc)].
  intros a b l1 l2 l3 E.
  pose proof (outcome_top_sorted TourName_of bt n vc Hvc) as Hs.
  rewrite E in Hs.
  apply (StronglySorted_app_inv (fun a b : string * Z => snd b <= snd a)
           (l1 ++ [a]) (l2 ++ b :: l3) ).
  - rewrite <- app_assoc. exact Hs.
  - apply in_or_app. right. left. reflexivity.
  - apply in_or_app. right. left. reflexivity.
Qed.

(** The example of the specification: T1 booked twice, T2 once.  The table
    computed with a stable sort is one of the outcomes. *)
Lemma top_tours_at_most_n_sorted_witness :
  let bt := bookings_tours
              [booking "1" "G1" 1; booking "1" "G2" 1; booking "2" "G1" 2]
              [tour "1" "T1" "Rome" "9" "12" 1 1 0 0 0 0 0;
               tour "2" "T2" "Rome" "9" "12" 1 1 0 0 0 0 0] in
  top_tours 10 bt = [("T1", 2); ("T2", 1)] /\
  is_top_tours 10 bt [("T1", 2); ("T2", 1)] /\
  (length [("T1", 2); ("T2", 1)] <= 10)%nat /\
  StronglySorted (fun a b : string * Z => snd b <= snd a)
                 [("T1", 2); ("T2", 1)].
Proof.
  intros bt.
  assert (E : top_tours 10 bt = [("T1", 2); ("T2", 1)]) by reflexivity.
  assert (H : is_top_tours 10 bt [("T1", 2); ("T2", 1)])
    by apply (top_tours_is_outcome 10 bt).
  split; [exact E|]. split; [exact H|].
  destruct (top_tours_at_most_n_sorted
              10 [booking "1" "G1" 1; booking "1" "G2" 1; booking "2" "G1" 2]
              [tour "1" "T1" "Rome" "9" "12" 1 1 0 0 0 0 0;
               tour "2" "T2" "Rome" "9" "12" 1 1 0 0 0 0 0]
              [("T1", 2); ("T2", 1)] H)
    as (Hlen & _ & _ & Hs & _).
  split; [exact Hlen|exact Hs].
Defined.

(* ------------------------------------------------------------------ *)
(** ** Orphan bookings *)

Lemma bookings_tours_length bookings tours :
  NoDup (map Tours.id tours) ->
  length (bookings_tours bookings tours) = length bookings.
Proof. apply merge_left_length. Qed.

Lemma bookings_merged_length bookings tours guides :
  NoDup (map Tours.id tours) -> NoDup (map Guides.id guides) ->
  length (bookings_merged bookings tours guides) = length bookings.
Proof.
  intros Ht Hg. unfold bookings_merged.
  rewrite merge_left_length by exact Hg.
  apply bookings_tours_length, Ht.
Qed.

(** C10, as stated, fails: the left join repeats a booking once per tour
    row that carries its TourID.  With the tour T1 listed three times, one
    booking of T1 and one orphan booking, the joined frame has four rows,
    the orphan is counted nowhere, and the counts add up to 3, which is not
    less than the 2 booking rows of the input. *)
Lemma orphan_total_exceeds_bookings :
  let bookings := [booking "T1" "G1" 1; booking "T9" "G1" 3] in
  let tours := [tour "T1" "Alpha" "Rome" "9" "12" 1 1 0 0 0 0 0;
                tour "T1" "Alpha" "Rome" "9" "12" 1 1 0 0 0 0 0;
                tour "T1" "Alpha" "Rome" "9" "12" 1 1 0 0 0 0 0] in
  let bt := bookings_tours bookings tours in
  In (booking "T9" "G1" 3) bookings /\
  no_tour tours (booking "T9" "G1" 3) /\
  top_tours 10 bt = [("Alpha", 3)] /\
  is_top_tours 10 bt [("Alpha", 3)] /\
  sumZ (map snd (top_tours 10 bt)) = 3 /\
  Z.of_nat (length bookings) = 2 /\
  ~ sumZ (map snd (top_tours 10 bt)) < Z.of_nat (length bookings).
Proof.
  intros bookings tours bt.
  split; [right; left; reflexivity|].
  split; [intros t [<-|[<-|[<-|[]]]]; discriminate|].
  split; [reflexivity|].
  split; [apply (top_tours_is_outcome 10 bt)|].
  split; [reflexivity|]. split; [reflexivity|].
  change (~ 3 < 2). lia.
Qed.

(** C10, amended.  A booking whose TourID matches no tour row is kept by the
    join with a missing TourName, and a booking whose GuideID matches no
    guide row with a missing GuideName.  The counts drop missing names:
    whatever the order among equal counts, they add up to at most the
    number of rows with a present name, so with an orphan booking the
    counts of the top tours (of the top guides) add up to strictly less
    than the number of rows of the joined bookings frame.  That number is
    the number of booking rows of the input when no two tours and no two
    guides share an id, and only then are the counts sure to add up to
    less than the number of booking rows. *)
Theorem orphan_bookings_not_counted :
  forall (n : nat) (bookings : list Bookings.row) (tours : list Tours.row)
         (guides : list Guides.row) (b : Bookings.row)
         (tours_table guides_table : Series Z),
    In b bookings ->
    let bt := bookings_tours bookings tours in
    let bm := bookings_merged bookings tours guides in
    is_top_tours n bt tours_table ->
    is_top_guides n bm guides_table ->
    sumZ (map snd tours_table)
    <= Z.of_nat (length (dropna (map TourName_of bt))) /\
    sumZ (map snd guides_table)
    <= Z.of_nat (length (dropna (map GuideName_of bm))) /\
    (no_tour tours b ->
     In (b, None) bt /\ In None (map TourName_of bt) /\
     sumZ (map snd tours_table) < Z.of_nat (length bt) /\
     (NoDup (map Tours.id tours) ->
      sumZ (map snd tours_table) < Z.of_nat (length bookings))) /\
    (no_guide guides b ->
     (exists t, In (b, t, None) bm) /\ In None (map GuideName_of bm) /\
     sumZ (map snd guides_table) < Z.of_nat (length bm) /\
     (NoDup (map Tours.id tours) -> NoDup (map Guides.id guides) ->
      sumZ (map snd guides_table) < Z.of_nat (length bookings))).
Proof.
  intros n bookings tours guides b tt gt Hb bt bm
         (vt & Hvt & ->) (vg & Hvg & ->).
  split; [apply (outcome_top_total TourName_of bt n vt Hvt)|].
  split; [apply (outcome_top_total GuideName_of bm n vg Hvg)|]. split.
  - intros Hno.
    assert (Hin : In (b, None) bt) by (apply bookings_tours_In; auto).
    assert (Hnone : In None (map TourName_of bt)).
    { apply in_map_iff. exists (b, None). auto. }
    split; auto. split; auto.
    split; [apply (outcome_top_total_lt TourName_of bt n vt Hvt), Hnone|].
    intros Hnd.
    rewrite <- (bookings_tours_length bookings tours Hnd).
    apply (outcome_top_total_lt TourName_of bt n vt Hvt), Hnone.
  - intros Hno.
    destruct (merge_left_total Bookings.TourID Tours.id bookings tours b Hb)
      as [t Ht].
    assert (Hin : In (b, t, None) bm) by (apply bookings_merged_In; auto).
    assert (Hnone : In None (map GuideName_of bm)).
    { apply in_map_iff. exists (b, t, None). auto. }
    split; [exists t; exact Hin|]. split; auto.
    split; [apply (outcome_top_total_lt GuideName_of bm n vg Hvg), Hnone|].
    intros Hnt Hng.
    rewrite <- (bookings_merged_length bookings tours guides Hnt Hng).
    apply (outcome_top_total_lt GuideName_of bm n vg Hvg), Hnone.
Qed.

Lemma orphan_bookings_not_counted_witness :
  let bookings := [booking "T1" "G1" 1; booking "T9" "G7" 3] in
  let tours := [tour "T1" "Alpha" "Rome" "9" "12" 1 1 0 0 0 0 0] in
  let guides := [guide "G1" "Ann" "Rome"] in
  In (booking "T9" "G7" 3) bookings /\
  no_tour tours (booking "T9" "G7" 3) /\
  NoDup (map Tours.id tours) /\
  top_tours 10 (bookings_tours bookings tours) = [("Alpha", 1)] /\
  sumZ (map snd (top_tours 10 (bookings_tours bookings tours)))
  < Z.of_nat (length bookings) /\
  top_guides 10 (bookings_merged bookings tours guides) = [("Ann", 1)] /\
  sumZ (map snd (top_guides 10 (bookings_merged bookings tours guides)))
  < Z.of_nat (length (bookings_merged bookings tours guides)).
Proof.
  intros bookings tours guides.
  assert (Hb : In (booking "T9" "G7" 3) bookings)
    by (right; left; reflexivity).
  assert (Hno : no_tour tours (booking "T9" "G7" 3)).
  { intros t [<-|[]]. simpl. discriminate. }
  assert (Hng : no_guide guides (booking "T9" "G7" 3)).
  { intros g [<-|[]]. simpl. discriminate. }
  assert (Hnd : NoDup (map Tours.id tours)).
  { simpl. constructor; [intros []|constructor]. }
  assert (Htt : is_top_tours 10 (bookings_tours bookings tours)
                  (top_tours 10 (bookings_tours bookings tours)))
    by apply top_tours_is_outcome.
  assert (Hgt : is_top_guides 10 (bookings_merged bookings tours guides)
                  (top_guides 10 (bookings_merged bookings tours guides)))
    by apply top_guides_is_outcome.
  destruct (orphan_bookings_not_counted 10 bookings tours guides _ _ _
              Hb Htt Hgt)
    as (_ & _ & Ht & Hg).
  destruct (Ht Hno) as (_ & _ & _ & H).
  destruct (Hg Hng) as (_ & _ & H' & _).
  split; [exact Hb|]. split; [exact Hno|]. split; [exact Hnd|].
  split; [reflexivity|]. split; [apply H, Hnd|].
  split; [reflexivity|exact H'].
Defined.

(* ------------------------------------------------------------------ *)
(** ** Dominant time slot *)

Lemma pair_eqb_spec (a b : string * string) : reflect (a = b) (pair_eqb a b).
Proof.
  destruct a as [a1 a2], b as [b1 b2]. unfold pair_eqb. simpl.
  destruct (String.eqb_spec a1 b1), (String.eqb_spec a2 b2); simpl;
    constructor; congruence.
Qed.

(** After a sort, the row kept for a key is ahead of every other row of that
    key. *)
Lemma drop_duplicates_first {A K : Type} (key : A -> K)
      (eqb : K -> K -> bool)
      (eqb_spec : forall x y, reflect (x = y) (eqb x y))
      (R : A -> A -> Prop) (l : list A) :
  StronglySorted R l ->
  forall r r', In r (drop_duplicates key eqb l) -> In r' l ->
               key r' = key r -> r = r' \/ R r r'.
Proof.
  induction 1 as [|x xs Hxs IH Hx]; simpl; intros r r' Hr Hr' Hk.
  - contradiction.
  - destruct Hr as [<-|Hr].
    + destruct Hr' as [Hr'|Hr']; auto.
      right. rewrite Forall_forall in Hx. apply Hx, Hr'.
    + apply filter_In in Hr. destruct Hr as [Hr Hne].
      apply negb_true_iff in Hne.
      destruct Hr' as [<-|Hr'].
      * rewrite <- Hk in Hne.
        destruct (eqb_spec (key x) (key x)); congruence.
      * apply IH; auto.
Qed.

Lemma count_slot_key (loc slot : string) (tours : list Tours.row) :
  count_key slot_key pair_eqb (loc, slot) (active_tours tours)
  = tours_in_slot loc slot tours.
Proof.
  unfold count_key, active_tours, tours_in_slot, pair_eqb, slot_key.
  induction tours as [|t ts IH]; simpl; auto.
  destruct (0 <? Tours_Operating_Days t); simpl; auto.
  destruct (String.eqb (Tours.TourLocation t) loc
            && String.eqb (TimeSlot t) slot); simpl; auto.
Qed.

Lemma slot_counts_In (active : list Tours.row) (r : slot_row) :
  In r (slot_counts active) <->
  In (slot_TourLocation r, slot_TimeSlot r) (map slot_key active) /\
  Count r = Z.of_nat (count_key slot_key pair_eqb
                                (slot_TourLocation r, slot_TimeSlot r) active).
Proof.
  unfold slot_counts. rewrite in_map_iff. split.
  - intros (k & <- & Hk). simpl. apply sort_rows_In in Hk.
    apply (proj1 (drop_duplicates_id_In _ pair_eqb_spec _ _)) in Hk.
    destruct k as [k1 k2]. simpl. split; [exact Hk|reflexivity].
  - intros (Hk & Hc). exists (slot_TourLocation r, slot_TimeSlot r).
    split.
    + destruct r; simpl in *. congruence.
    + apply sort_rows_In. apply (drop_duplicates_id_In _ pair_eqb_spec), Hk.
Qed.

(** The first row per location of the slot counts put in any descending
    order of count, whatever the order of equal counts. *)
Lemma dominant_slots_any_order (tours : list Tours.row)
      (sorted : list slot_row) :
  Permutation (slot_counts (active_tours tours)) sorted ->
  StronglySorted (fun a b => Count b <= Count a) sorted ->
  dominant_slots tours (drop_duplicates slot_TourLocation String.eqb sorted).
Proof.
  intros Hperm Hdesc.
  assert (Hsorted : forall r,
             In r sorted <->
             In (slot_TourLocation r, slot_TimeSlot r)
                (map slot_key (active_tours tours)) /\
             Count r = Z.of_nat (tours_in_slot (slot_TourLocation r)
                                               (slot_TimeSlot r) tours)).
  { intros r. rewrite <- count_slot_key, <- slot_counts_In.
    split; apply Permutation_in;
      [apply Permutation_sym|]; exact Hperm. }
  assert (Hactive : forall t,
             In t (active_tours tours) <->
             In t tours /\ 0 < Tours_Operating_Days t).
  { intros t. unfold active_tours. rewrite filter_In, Z.ltb_lt. tauto. }
  assert (Hpos : forall loc slot,
             In (loc, slot) (map slot_key (active_tours tours)) <->
             (0 < tours_in_slot loc slot tours)%nat).
  { intros loc slot. rewrite <- count_slot_key.
    apply (count_key_pos slot_key pair_eqb pair_eqb_spec). }
  split; [|split].
  - apply drop_duplicates_NoDup. apply String.eqb_spec.
  - intros loc.
    rewrite (drop_duplicates_keys slot_TourLocation String.eqb
               String.eqb_spec).
    rewrite in_map_iff. split.
    + intros (r & <- & Hr). apply Hsorted in Hr. destruct Hr as [Hk _].
      apply in_map_iff in Hk. destruct Hk as (t & E & Ht).
      apply Hactive in Ht. exists t. inversion E. tauto.
    + intros (t & Ht & Hop & <-).
      exists {| slot_TourLocation := Tours.TourLocation t;
                slot_TimeSlot := TimeSlot t;
                Count := Z.of_nat (tours_in_slot (Tours.TourLocation t)
                                                 (TimeSlot t) tours) |}.
      split; auto. apply Hsorted. simpl. split; auto.
      apply in_map_iff. exists t. split; auto. apply Hactive. auto.
  - intros r Hr.
    assert (Hin : In r sorted) by (eapply drop_duplicates_incl; eauto).
    apply Hsorted in Hin. destruct Hin as [Hk Hc].
    split; auto. split.
    + rewrite Hc. apply Hpos in Hk. lia.
    + intros slot.
      destruct (tours_in_slot (slot_TourLocation r) slot tours) eqn:E;
        [apply Hpos in Hk; lia|].
      rewrite <- E.
      set (r' := {| slot_TourLocation := slot_TourLocation r;
                    slot_TimeSlot := slot;
                    Count := Z.of_nat (tours_in_slot (slot_TourLocation r)
                                                     slot tours) |}).
      assert (Hr' : In r' sorted).
      { apply Hsorted. simpl. split; auto. apply Hpos. lia. }
      destruct (drop_duplicates_first slot_TourLocation String.eqb
                  String.eqb_spec (fun a b => Count b <= Count a) sorted
                  Hdesc r r' Hr Hr' eq_refl)
        as [Heq|Hle].
      * rewrite Heq. simpl. lia.
      * simpl in Hle. exact Hle.
Qed.

(** C8. The dominant-slot table is built from the tours whose weekly
    operating-day count is above 0, with TimeSlot made from TimeStart and
    TimeEnd.  It has exactly one row per location of such a tour; the row's
    count is the number of those tours at that location in the row's slot,
    and no slot of that location has a higher count.  This does not depend
    on how the sort orders slots of equal count: it holds for the first row
    per location of any descending arrangement of the slot counts. *)
Theorem top_slot_is_dominant :
  forall tours : list Tours.row,
    let result := top_slot tours in
    (forall t, TimeSlot t
               = (Tours.TimeStart t ++ " - " ++ Tours.TimeEnd t)%string) /\
    NoDup (map slot_TourLocation result) /\
    (forall loc,
        In loc (map slot_TourLocation result) <->
        exists t, In t tours /\ 0 < Tours_Operating_Days t /\
                  Tours.TourLocation t = loc) /\
    (forall r,
        In r result ->
        Count r = Z.of_nat (tours_in_slot (slot_TourLocation r)
                                          (slot_TimeSlot r) tours) /\
        0 < Count r /\
        forall slot,
          Z.of_nat (tours_in_slot (slot_TourLocation r) slot tours)
          <= Count r) /\
    (forall sorted,
        Permutation (slot_counts (active_tours tours)) sorted ->
        StronglySorted (fun a b => Count b <= Count a) sorted ->
        dominant_slots tours
          (drop_duplicates slot_TourLocation String.eqb sorted)).
Proof.
  intros tours result.
  split; [reflexivity|].
  assert (H : dominant_slots tours result).
  { apply dominant_slots_any_order.
    - apply sort_rows_perm.
    - apply sort_values_desc_sorted. }
  destruct H as (H1 & H2 & H3).
  repeat (split; [assumption|]).
  intros sorted. apply dominant_slots_any_order.
Qed.

(** Two morning tours and one afternoon tour in Rome, an idle tour in Pisa:
    the row kept for Rome counts at least as much as the afternoon slot. *)
Lemma top_slot_is_dominant_witness :
  let tours :=
    [tour "T1" "Alpha" "Rome" "9" "12" 1 1 0 0 0 0 0;
     tour "T2" "Beta" "Rome" "9" "12" 0 0 0 0 0 1 1;
     tour "T3" "Gamma" "Rome" "14" "16" 1 1 1 1 1 1 1;
     tour "T4" "Delta" "Pisa" "14" "16" 0 0 0 0 0 0 0] in
  let r := {| slot_TourLocation := "Rome"; slot_TimeSlot := "9 - 12";
              Count := 2 |} in
  top_slot tours = [r] /\
  Z.of_nat (tours_in_slot "Rome" "14 - 16" tours) <= Count r.
Proof.
  intros tours r. split; [reflexivity|].
  destruct (top_slot_is_dominant tours) as (_ & _ & _ & Hmax & _).
  apply (Hmax r). left. reflexivity.
Defined.

(* ------------------------------------------------------------------ *)
(** ** The cross-period tables *)

Lemma matching_rows (k : string) (right : Series Z) :
  match filter (fun r : string * Z => String.eqb (fst r) k) right with
  | [] => ~ In k (map fst right)
  | rs => forall r, In r rs -> In (k, snd r) right
  end.
Proof.
  destruct (filter (fun r : string * Z => String.eqb (fst r) k) right)
    as [|r0 rs] eqn:Ef.
  - intros H. apply in_map_iff in H. destruct H as (r & E & Hr).
    assert (Hin : In r (filter (fun r : string * Z => String.eqb (fst r) k)
                               right)).
    { apply filter_In. split; auto. apply String.eqb_eq, E. }
    rewrite Ef in Hin. exact Hin.
  - intros r Hr. rewrite <- Ef in Hr. apply filter_In in Hr.
    destruct Hr as [Hr E]. apply String.eqb_eq in E.
    destruct r as [k' v]. simpl in *. subst k'. exact Hr.
Qed.

Lemma or_iff_both (A B C D : Prop) :
  (A <-> B) -> (C <-> D) -> (A \/ C <-> B \/ D).
Proof. tauto. Qed.

Lemma merge_outer_In (width : nat) (left : list wide_row) (right : Series Z)
      (w : wide_row) :
  In w (merge_outer width left right) <->
  (exists l, In l left /\ fst w = fst l /\
             ((exists v, In (fst l, v) right /\
                         snd w = (snd l ++ [Some v])%list) \/
              (~ In (fst l) (map fst right) /\
               snd w = (snd l ++ [None])%list))) \/
  (exists v, In (fst w, v) right /\ ~ In (fst w) (map fst left) /\
             snd w = (repeat None width ++ [Some v])%list).
Proof.
  unfold merge_outer, sort_index. rewrite sort_rows_In, in_app_iff.
  apply or_iff_both.
  - rewrite in_flat_map. split.
    + intros (l & Hl & Hw). exists l. split; auto.
      pose proof (matching_rows (fst l) right) as Hm.
      destruct (filter (fun r : string * Z => String.eqb (fst r) (fst l))
                       right) as [|r0 rs].
      * destruct Hw as [<-|[]]. simpl. auto.
      * apply in_map_iff in Hw. destruct Hw as (r & <- & Hr). simpl.
        split; auto. left. exists (snd r). auto.
    + intros (l & Hl & Hk & [(v & Hv & Hs)|(Hno & Hs)]); exists l;
        split; auto.
      * assert (Hin : In (fst l, v)
                         (filter (fun r : string * Z =>
                                    String.eqb (fst r) (fst l)) right)).
        { apply filter_In. split; auto. apply String.eqb_refl. }
        destruct (filter (fun r : string * Z => String.eqb (fst r) (fst l))
                         right) as [|r0 rs]; [destruct Hin|].
        apply in_map_iff. exists (fst l, v). split; auto.
        destruct w. simpl in *. congruence.
      * pose proof (matching_rows (fst l) right) as Hm.
        destruct (filter (fun r : string * Z => String.eqb (fst r) (fst l))
                         right) as [|r0 rs].
        -- left. destruct w. simpl in *. congruence.
        -- exfalso. apply Hno. apply in_map_iff.
           exists (fst l, snd r0). split; auto. apply Hm. left. reflexivity.
  - split.
    + intros H. apply in_map_iff in H.
      destruct H as ([k v] & <- & Hr). apply filter_In in Hr. simpl in *.
      destruct Hr as [Hr Hm]. apply negb_true_iff, mem_not_In in Hm.
      exists v. auto.
    + intros (v & Hv & Hno & Hs). apply in_map_iff.
      exists (fst w, v). split.
      * destruct w. simpl in *. congruence.
      * apply filter_In. split; auto. simpl.
        apply negb_true_iff, mem_not_In. exact Hno.
Qed.

Lemma merge_outer_ok (done : list (Series Z)) (acc : list wide_row)
      (p : Series Z) :
  wide_ok done acc ->
  wide_ok (done ++ [p])%list (merge_outer (length done) acc p).
Proof.
  intros [Hkeys Hrows]. split.
  - intros k. split.
    + intros H. apply in_map_iff in H. destruct H as (w & <- & Hw).
      apply merge_outer_In in Hw.
      destruct Hw as [(l & Hl & Hk & _)|(v & Hv & _)].
      * assert (Hin : In (fst w) (map fst acc))
          by (rewrite Hk; apply in_map, Hl).
        apply Hkeys in Hin. destruct Hin as (s & Hs & Hks).
        exists s. split; auto. apply in_or_app. auto.
      * exists p. split; [apply in_or_app; right; left; reflexivity|].
        apply in_map_iff. exists (fst w, v). auto.
    + intros (s & Hs & Hks). apply in_app_or in Hs.
      assert (Hacc : In k (map fst acc) ->
                     In k (map fst (merge_outer (length done) acc p))).
      { intros Hin. apply in_map_iff in Hin. destruct Hin as (l & <- & Hl).
        pose proof (matching_rows (fst l) p) as Hm.
        destruct (filter (fun r : string * Z => String.eqb (fst r) (fst l)) p)
          as [|r0 rs] eqn:Ef.
        - apply in_map_iff. exists (fst l, (snd l ++ [None])%list).
          split; auto. apply merge_outer_In. left. exists l. auto.
        - apply in_map_iff. exists (fst l, (snd l ++ [Some (snd r0)])%list).
          split; auto. apply merge_outer_In. left. exists l.
          split; auto. split; auto. left. exists (snd r0). split; auto.
          apply Hm. left. reflexivity. }
      destruct Hs as [Hs|[<-|[]]].
      * apply Hacc. apply Hkeys. exists s. auto.
      * destruct (in_dec string_dec k (map fst acc)) as [Hin|Hout]; auto.
        apply in_map_iff in Hks. destruct Hks as ([k' v] & E & Hv).
        simpl in E. subst k'.
        apply in_map_iff.
        exists (k, (repeat None (length done) ++ [Some v])%list).
        split; auto. apply merge_outer_In. right. exists v. auto.
  - intros w Hw. apply merge_outer_In in Hw.
    destruct Hw as [(l & Hl & Hk & Hc)|(v & Hv & Hno & Hs)].
    + specialize (Hrows l Hl). rewrite Hk.
      destruct Hc as [(v & Hv & ->)|(Hno & ->)];
        apply Forall2_app; auto; repeat constructor; auto.
    + rewrite Hs. apply Forall2_app; [|repeat constructor; auto].
      assert (Hall : forall s, In s done -> ~ In (fst w) (map fst s)).
      { intros s Hsd Hin. apply Hno. apply Hkeys. exists s. auto. }
      clear -Hall. induction done as [|s done IH]; simpl; constructor.
      * apply Hall. left. reflexivity.
      * apply IH. intros s' Hs'. apply Hall. right. exact Hs'.
Qed.

Lemma merge_all_ok (rest : list (Series Z)) :
  forall (done : list (Series Z)) (acc : list wide_row),
    wide_ok done acc ->
    wide_ok (done ++ rest)%list (merge_all (length done) acc rest).
Proof.
  induction rest as [|p rest IH]; intros done acc H; simpl.
  - rewrite app_nil_r. exact H.
  - replace (done ++ p :: rest)%list with ((done ++ [p]) ++ rest)%list
      by (rewrite <- app_assoc; reflexivity).
    replace (S (length done)) with (length (done ++ [p])%list)
      by (rewrite length_app; simpl; lia).
    apply IH. apply merge_outer_ok. exact H.
Qed.

Lemma first_period_ok (first : Series Z) :
  wide_ok [first] (map (fun kv => (fst kv, [Some (snd kv)])) first).
Proof.
  split.
  - intros k. rewrite map_map. simpl. split.
    + intros H. exists first. split; auto.
    + intros (s & [<-|[]] & H). exact H.
  - intros w Hw. apply in_map_iff in Hw. destruct Hw as ([k v] & <- & H).
    simpl. repeat constructor. exact H.
Qed.

Lemma fold_left_add (l : list Z) (a : Z) :
  fold_left Z.add l a = a + sumZ l.
Proof.
  revert a. induction l as [|x l IH]; intros a; simpl; [lia|].
  rewrite IH. lia.
Qed.

(** C2. The combined table of per-period results has exactly the entities of
    the union of the periods' entity sets, so an entity present in a single
    period still has its row.  Every row has one integer cell per period:
    the entity's value in that period, or the number 0 when the period does
    not have the entity.  The Total column is the sum of the row's period
    cells.  The script's two tables are this one over March to June, the
    location table re-sorted by Total. *)
Theorem combined_table_outer_join :
  forall (first : Series Z) (rest : list (Series Z)),
    let table := combine first rest in
    (forall k,
        In k (map entity table) <->
        exists s, In s (first :: rest) /\ In k (map fst s)) /\
    (forall r,
        In r table ->
        Forall2 (fun v s => In (entity r, v) s \/
                            (v = 0 /\ ~ In (entity r) (map fst s)))
                (period_values r) (first :: rest) /\
        Total r = sumZ (period_values r)) /\
    (forall m03 m04 m05 m06 r,
        (In r (merged m03 m04 m05 m06) <->
         In r (combine m03 [m04; m05; m06])) /\
        (In r (location_days_combined m03 m04 m05 m06) <->
         In r (combine m03 [m04; m05; m06]))) /\
    (forall l03 l04 l05 l06,
        StronglySorted (fun a b => Total b <= Total a)
                       (location_days_combined l03 l04 l05 l06)).
Proof.
  intros first rest table.
  pose proof (merge_all_ok rest [first] _ (first_period_ok first))
    as [Hkeys Hrows].
  simpl in Hkeys, Hrows.
  split; [|split; [|split]].
  - intros k. unfold table, combine. rewrite map_map. simpl.
    apply Hkeys.
  - intros r Hr. unfold table, combine in Hr. apply in_map_iff in Hr.
    destruct Hr as (w & <- & Hw). simpl. split.
    + specialize (Hrows w Hw).
      clear -Hrows. induction Hrows as [|c s cs ss Hc Hcs IH]; simpl;
        constructor; auto.
      destruct c as [v|]; simpl in *; auto.
    + rewrite fold_left_add. lia.
  - intros m03 m04 m05 m06 r. split; [reflexivity|].
    unfold location_days_combined, sort_values_desc. apply sort_rows_In.
  - intros. apply sort_values_desc_sorted.
Qed.

(** An entity of a single period has its row, with zeros elsewhere. *)
Lemma combined_table_outer_join_witness :
  let m03 := [("Ann", 1); ("Bob", 2)] in
  let rest := [[("Bob", 3)]; [("Cy", 4)]; [("Ann", 7); ("Dee", 1)]] in
  In "Cy" (map entity (combine m03 rest)) /\
  merged m03 [("Bob", 3)] [("Cy", 4)] [("Ann", 7); ("Dee", 1)]
  = [ {| entity := "Ann"; period_values := [1; 0; 0; 7]; Total := 8 |};
      {| entity := "Bob"; period_values := [2; 3; 0; 0]; Total := 5 |};
      {| entity := "Cy"; period_values := [0; 0; 4; 0]; Total := 4 |};
      {| entity := "Dee"; period_values := [0; 0; 0; 1]; Total := 1 |} ].
Proof.
  intros m03 rest. split; [|reflexivity].
  destruct (combined_table_outer_join m03 rest) as (Hkeys & _).
  apply Hkeys. exists [("Cy", 4)]. split.
  - right. right. left. reflexivity.
  - left. reflexivity.
Defined.

(* ================================================================== *)
(** * Further properties of the script *)
(* ================================================================== *)

(* ------------------------------------------------------------------ *)
(** ** Standardized text columns *)

Lemma to_upper_facts (c : ascii) :
  to_upper (to_upper c) = to_upper c /\
  to_lower (to_upper c) = to_lower c /\
  is_upper (to_upper c) || is_lower (to_upper c) = is_upper c || is_lower c /\
  is_strip (to_upper c) = is_strip c.
Proof.
  destruct c as [[] [] [] [] [] [] [] []]; vm_compute; repeat split.
Qed.

Lemma to_lower_facts (c : ascii) :
  to_lower (to_lower c) = to_lower c /\
  to_upper (to_lower c) = to_upper c /\
  is_upper (to_lower c) || is_lower (to_lower c) = is_upper c || is_lower c /\
  is_strip (to_lower c) = is_strip c.
Proof.
  destruct c as [[] [] [] [] [] [] [] []]; vm_compute; repeat split.
Qed.

Lemma title_from_idempotent (l : list ascii) :
  forall p, title_from p (title_from p l) = title_from p l.
Proof.
  induction l as [|c r IH]; intros p; simpl; [reflexivity|].
  destruct (to_upper_facts c) as (Hu & _ & Hcu & _).
  destruct (to_lower_facts c) as (Hl & _ & Hcl & _).
  destruct p; [rewrite Hl, Hcl|rewrite Hu, Hcu]; f_equal; apply IH.
Qed.

(** Letter case of the input does not reach the title-cased text. *)
Lemma title_from_to_lower (l : list ascii) :
  forall p, title_from p (map to_lower l) = title_from p l.
Proof.
  induction l as [|c r IH]; intros p; simpl; [reflexivity|].
  destruct (to_lower_facts c) as (Hl & Hu & Hcl & _).
  destruct p; [rewrite Hl|rewrite Hu]; rewrite Hcl; f_equal; apply IH.
Qed.

Lemma lstrip_no_strip_head (l : list ascii) : no_strip_head (lstrip l).
Proof.
  induction l as [|c r IH]; simpl; auto.
  destruct (is_strip c) eqn:E; simpl; auto.
Qed.

Lemma lstrip_fixed (l : list ascii) : no_strip_head l -> lstrip l = l.
Proof.
  destruct l as [|c r]; simpl; auto. intros ->. reflexivity.
Qed.

Lemma lstrip_split (l : list ascii) :
  exists s, l = (s ++ lstrip l)%list /\ Forall (fun c => is_strip c = true) s.
Proof.
  induction l as [|c r (s & E & Hs)]; simpl.
  - exists []. auto.
  - destruct (is_strip c) eqn:Ec.
    + exists (c :: s). simpl. split; [congruence|constructor; auto].
    + exists []. auto.
Qed.

Lemma rstrip_no_strip_head (m : list ascii) :
  no_strip_head m -> no_strip_head (rev (lstrip (rev m))).
Proof.
  intros Hm. destruct (lstrip_split (rev m)) as (s & E & _).
  apply (f_equal (@rev ascii)) in E.
  rewrite rev_involutive, rev_app_distr in E.
  destruct (rev (lstrip (rev m))) as [|c t]; simpl; auto.
  rewrite E in Hm. exact Hm.
Qed.

Lemma strip_trimmed (l : list ascii) : trimmed (strip l).
Proof.
  unfold trimmed, strip. split.
  - apply rstrip_no_strip_head, lstrip_no_strip_head.
  - rewrite rev_involutive. apply lstrip_no_strip_head.
Qed.

Lemma strip_fixed (l : list ascii) : trimmed l -> strip l = l.
Proof.
  intros [H1 H2]. unfold strip.
  rewrite (lstrip_fixed l H1), (lstrip_fixed _ H2). apply rev_involutive.
Qed.

Lemma title_from_snoc (l : list ascii) (c : ascii) :
  forall p, exists c',
      title_from p (l ++ [c])%list = (title_from p l ++ [c'])%list /\
      is_strip c' = is_strip c.
Proof.
  induction l as [|a r IH]; intros p; simpl.
  - destruct (to_upper_facts c) as (_ & _ & _ & Hu).
    destruct (to_lower_facts c) as (_ & _ & _ & Hl).
    destruct p; eexists; split; try reflexivity; assumption.
  - destruct (IH (is_upper a || is_lower a)) as (c' & E & Hc).
    exists c'. rewrite E. auto.
Qed.

Lemma title_trimmed (l : list ascii) : trimmed l -> trimmed (title l).
Proof.
  unfold trimmed, title. intros [H1 H2]. split.
  - destruct l as [|c r]; simpl in *; auto.
    destruct (to_upper_facts c) as (_ & _ & _ & Hu). congruence.
  - destruct (rev l) as [|c t] eqn:E; simpl in *.
    + apply (f_equal (@rev ascii)) in E. rewrite rev_involutive in E.
      subst l. simpl. exact I.
    + apply (f_equal (@rev ascii)) in E. rewrite rev_involutive in E.
      simpl in E. subst l.
      destruct (title_from_snoc (rev t) c false) as (c' & E' & Hc).
      rewrite E', rev_app_distr. simpl. congruence.
Qed.

(** X1. Standardizing a text cell of ASCII characters a second time changes
    nothing, and a standardized text has no quote or space at either end. *)
Theorem standardize_idempotent :
  forall cell : option string,
    ascii_text (astype_str cell) ->
    standardize (Some (standardize cell)) = standardize cell /\
    trimmed (list_ascii_of_string (standardize cell)).
Proof.
  intros cell _. unfold standardize. simpl.
  rewrite list_ascii_of_string_of_list_ascii.
  set (l := list_ascii_of_string (astype_str cell)).
  assert (Ht : trimmed (title (strip l)))
    by (apply title_trimmed, strip_trimmed).
  split; [|exact Ht].
  rewrite (strip_fixed _ Ht). unfold title.
  rewrite title_from_idempotent. reflexivity.
Qed.

Lemma standardize_idempotent_witness :
  ascii_text " 'o'neil  mcDONALD' " /\
  standardize (Some " 'o'neil  mcDONALD' ") = "O'Neil  Mcdonald" /\
  standardize (Some (standardize (Some " 'o'neil  mcDONALD' ")))
  = standardize (Some " 'o'neil  mcDONALD' ").
Proof.
  assert (H : ascii_text (astype_str (Some " 'o'neil  mcDONALD' "))).
  { unfold ascii_text. simpl. repeat constructor. }
  split; [exact H|]. split; [reflexivity|].
  apply (standardize_idempotent _ H).
Defined.

Lemma lstrip_app_strip (q l : list ascii) :
  Forall (fun c => is_strip c = true) q -> lstrip (q ++ l)%list = lstrip l.
Proof.
  induction 1 as [|c q Hc Hq IH]; simpl; auto. rewrite Hc. exact IH.
Qed.

Lemma strip_surrounded (q l q' : list ascii) :
  Forall (fun c => is_strip c = true) q ->
  Forall (fun c => is_strip c = true) q' ->
  strip (q ++ l ++ q')%list = strip l.
Proof.
  intros Hq Hq'. unfold strip. rewrite (lstrip_app_strip q _ Hq).
  destruct (lstrip l) as [|c r] eqn:E.
  - assert (Hl : lstrip (l ++ q')%list = []).
    { clear -E Hq'. induction l as [|a l IH]; simpl in *.
      - rewrite <- (app_nil_r q'). rewrite (lstrip_app_strip q' [] Hq').
        reflexivity.
      - destruct (is_strip a); [auto|discriminate]. }
    rewrite Hl. reflexivity.
  - assert (Hl : lstrip (l ++ q')%list = (c :: r ++ q')%list).
    { clear -E. induction l as [|a l IH]; simpl in *; [discriminate|].
      destruct (is_strip a); [auto|]. inversion E; subst. reflexivity. }
    rewrite Hl. f_equal.
    change (c :: r ++ q')%list with ((c :: r) ++ q')%list.
    rewrite rev_app_distr. apply lstrip_app_strip.
    apply Forall_rev. exact Hq'.
Qed.

(** X2. Two ASCII texts that differ only in letter case and in the quotes
    and spaces around them get the same standardized text. *)
Theorem standardize_ignores_case_and_quotes :
  forall (s1 s2 : string) (q1 q1' q2 q2' l1 l2 : list ascii),
    ascii_text s1 -> ascii_text s2 ->
    list_ascii_of_string s1 = (q1 ++ l1 ++ q1')%list ->
    list_ascii_of_string s2 = (q2 ++ l2 ++ q2')%list ->
    Forall (fun c => is_strip c = true) (q1 ++ q1' ++ q2 ++ q2')%list ->
    map to_lower (strip l1) = map to_lower (strip l2) ->
    standardize (Some s1) = standardize (Some s2).
Proof.
  intros s1 s2 q1 q1' q2 q2' l1 l2 _ _ E1 E2 Hq Hl.
  repeat (apply Forall_app in Hq; destruct Hq as [? Hq]).
  unfold standardize. simpl. rewrite E1, E2.
  rewrite !strip_surrounded by assumption.
  unfold title. f_equal.
  rewrite <- (title_from_to_lower (strip l1)), Hl.
  apply title_from_to_lower.
Qed.

Lemma standardize_ignores_case_and_quotes_witness :
  standardize (Some "'CITY walk' ") = standardize (Some " City Walk").
Proof.
  apply (standardize_ignores_case_and_quotes
           "'CITY walk' " " City Walk"
           (list_ascii_of_string "'") (list_ascii_of_string "' ")
           (list_ascii_of_string " ") []
           (list_ascii_of_string "CITY walk")
           (list_ascii_of_string "City Walk")).
  - unfold ascii_text. simpl. repeat constructor.
  - unfold ascii_text. simpl. repeat constructor.
  - reflexivity.
  - reflexivity.
  - simpl. repeat constructor.
  - reflexivity.
Defined.

(* ------------------------------------------------------------------ *)
(** ** Days of the month and days not available *)

Lemma get_days_in_month_Some (month year days : Z) :
  get_days_in_month month year = Some days -> 28 <= days <= 31.
Proof.
  unfold get_days_in_month.
  destruct (month =? 2); [destruct (isleap year); intros E; inversion E; lia|].
  destruct ((month =? 4) || (month =? 6) || (month =? 9) || (month =? 11));
    [intros E; inversion E; lia|].
  destruct ((1 <=? month) && (month <=? 12)); intros E; inversion E; lia.
Qed.

(** X3. [get_days_in_month] answers for the months 1 to 12 only, with 28 to
    31 days, and the twelve months of a year add up to 365 days, or 366 in a
    leap year. *)
Theorem get_days_in_month_range :
  forall month year : Z,
    (1 <= month <= 12 ->
     exists days, get_days_in_month month year = Some days /\
                  28 <= days <= 31) /\
    (month < 1 \/ 12 < month -> get_days_in_month month year = None) /\
    sumZ (map (fun m => match get_days_in_month m year with
                        | Some days => days
                        | None => 0
                        end)
              [1; 2; 3; 4; 5; 6; 7; 8; 9; 10; 11; 12])
    = (if isleap year then 366 else 365).
Proof.
  intros month year. split; [|split].
  - intros H. unfold get_days_in_month.
    assert (Hm : month = 1 \/ month = 2 \/ month = 3 \/ month = 4 \/
                 month = 5 \/ month = 6 \/ month = 7 \/ month = 8 \/
                 month = 9 \/ month = 10 \/ month = 11 \/ month = 12) by lia.
    repeat (destruct Hm as [->|Hm]); try subst month; simpl;
      try (destruct (isleap year)); eexists; split; try reflexivity; lia.
  - intros H. unfold get_days_in_month.
    destruct (Z.eqb_spec month 2); [lia|].
    destruct (Z.eqb_spec month 4); [lia|].
    destruct (Z.eqb_spec month 6); [lia|].
    destruct (Z.eqb_spec month 9); [lia|].
    destruct (Z.eqb_spec month 11); [lia|]. simpl.
    destruct (Z.leb_spec 1 month), (Z.leb_spec month 12); simpl; auto; lia.
  - unfold get_days_in_month. simpl. destruct (isleap year); reflexivity.
Qed.

Lemma get_days_in_month_range_witness :
  get_days_in_month 2 2024 = Some 29 /\ get_days_in_month 13 YEAR = None.
Proof.
  destruct (get_days_in_month_range 13 YEAR) as (_ & Hnone & _).
  split; [reflexivity|]. apply Hnone. lia.
Defined.

Lemma distinct_days_bound (month days : Z) (dates : list Timestamp) :
  NoDup dates ->
  (forall t, In t dates ->
             exists d, t = (YEAR, month, d, 0) /\ 1 <= d <= days) ->
  Z.of_nat (length dates) <= Z.max 0 days.
Proof.
  intros Hnd Hin.
  assert (Hmap : NoDup (map (fun t : Timestamp => snd (fst t)) dates)).
  { clear -Hnd Hin. induction dates as [|t ts IH]; simpl; constructor.
    - inversion Hnd; subst. intros H. apply H1.
      apply in_map_iff in H. destruct H as (t' & E & Ht').
      destruct (Hin t (or_introl eq_refl)) as (d & -> & _).
      destruct (Hin t' (or_intror Ht')) as (d' & -> & _).
      simpl in E. subst d'. exact Ht'.
    - inversion Hnd; subst. apply IH; auto.
      intros t' Ht'. apply Hin. right. exact Ht'. }
  assert (Hincl : incl (map (fun t : Timestamp => snd (fst t)) dates)
                       (map (fun n => Z.of_nat n) (seq 1 (Z.to_nat days)))).
  { intros z Hz. apply in_map_iff in Hz. destruct Hz as (t & <- & Ht).
    destruct (Hin t Ht) as (d & -> & Hd). simpl.
    apply in_map_iff. exists (Z.to_nat d). split; [lia|].
    apply in_seq. lia. }
  pose proof (NoDup_incl_length Hmap Hincl) as Hlen.
  rewrite !length_map, length_seq in Hlen. lia.
Qed.

(** X4. When every availability date of the period is a date-only value
    (midnight) of a day of the period's month, no guide has more available
    days than the month has days, and every not-available count lies
    between 0 and the number of days of the month. *)
Theorem not_available_in_month_nonnegative :
  forall (month days : Z) (guides : list Guides.row)
         (availability : list Availability.row) (table : Series Z),
    get_days_in_month month YEAR = Some days ->
    dates_in_month month days availability ->
    not_available_period month guides availability = Some table ->
    (forall g v,
        In (g, v) (available_days_per_guide guides availability) ->
        0 <= v <= days) /\
    (forall g n, In (g, n) table -> 0 <= n <= days).
Proof.
  intros month days guides availability table Hdays Hdates Htable.
  assert (Hpos : 0 <= days)
    by (pose proof (get_days_in_month_Some _ _ _ Hdays); lia).
  assert (Hav : forall g v,
             In (g, v) (available_days_per_guide guides availability) ->
             0 <= v <= days).
  { intros g v Hv.
    destruct (available_days_by_name guides availability)
      as (_ & _ & _ & Hcount & _).
    destruct (Hcount g v Hv) as (dates & Hnd & -> & Hd).
    split; [lia|].
    pose proof (distinct_days_bound month days dates Hnd) as Hb.
    rewrite Z.max_r in Hb by lia. apply Hb.
    intros t Ht. apply Hd in Ht.
    destruct Ht as (gr & a & _ & Ha & _ & _ & _ & Et).
    exact (Hdates a t Ha Et). }
  split; [exact Hav|].
  intros g n Hn. unfold not_available_period in Htable.
  rewrite Hdays in Htable. inversion Htable; subst table; clear Htable.
  unfold not_available, sort_values_desc in Hn.
  apply sort_rows_In in Hn. apply in_map_iff in Hn.
  destruct Hn as ([g' v] & E & Hv). inversion E; subst.
  specialize (Hav _ _ Hv). simpl. lia.
Qed.

Lemma not_available_in_month_nonnegative_witness :
  let guides := [guide "G1" "Ann" "Rome"] in
  let availability :=
    [avail "G1" (Some (mar 1)) (Some "9-12");
     avail "G1" (Some (mar 31)) (Some "9-12")] in
  dates_in_month 3 31 availability /\
  not_available_period 3 guides availability = Some [("Ann", 29)] /\
  forall g n, In (g, n) [("Ann", 29)] -> 0 <= n <= 31.
Proof.
  intros guides availability.
  assert (Hd : dates_in_month 3 31 availability).
  { intros a t [<-|[<-|[]]] E; inversion E; subst; eexists;
      (split; [reflexivity|lia]). }
  split; [exact Hd|]. split; [reflexivity|].
  apply (not_available_in_month_nonnegative 3 31 guides availability
           [("Ann", 29)] eq_refl Hd eq_refl).
Defined.

(** The distinct values counted are timestamps: two records of one day at
    two times of day count as two available days, so the bound needs the
    dates to be date-only values. *)
Lemma available_days_count_times_of_day :
  available_days_per_guide
    [guide "G1" "Ann" "Rome"]
    [avail "G1" (Some (2025, 3, 1, 32400000000000)) (Some "9-12");
     avail "G1" (Some (2025, 3, 1, 50400000000000)) (Some "14-17")]
  = [("Ann", 2)].
Proof. reflexivity. Qed.

(* ------------------------------------------------------------------ *)
(** ** Bookings per day *)

Lemma Timestamp_ltb_spec (a b : Timestamp) :
  Timestamp_ltb a b = true <->
  fst (fst (fst a)) < fst (fst (fst b)) \/
  (fst (fst (fst a)) = fst (fst (fst b)) /\
   (snd (fst (fst a)) < snd (fst (fst b)) \/
    (snd (fst (fst a)) = snd (fst (fst b)) /\
     (snd (fst a) < snd (fst b) \/
      (snd (fst a) = snd (fst b) /\ snd a < snd b))))).
Proof.
  destruct a as [[[y1 m1] d1] t1], b as [[[y2 m2] d2] t2].
  unfold Timestamp_ltb. simpl.
  rewrite !orb_true_iff, !andb_true_iff, !orb_true_iff, !andb_true_iff,
    !orb_true_iff, !andb_true_iff.
  rewrite !Z.ltb_lt, !Z.eqb_eq. tauto.
Qed.

Lemma Timestamp_ltb_trans (a b c : Timestamp) :
  Timestamp_ltb a b = true -> Timestamp_ltb b c = true ->
  Timestamp_ltb a c = true.
Proof. rewrite !Timestamp_ltb_spec. lia. Qed.

Lemma Timestamp_ltb_total (a b : Timestamp) :
  a <> b -> Timestamp_ltb a b = false -> Timestamp_ltb b a = true.
Proof.
  intros Hne Hab. apply Timestamp_ltb_spec.
  assert (H : ~ (Timestamp_ltb a b = true)) by congruence.
  rewrite Timestamp_ltb_spec in H.
  destruct a as [[[y1 m1] d1] t1], b as [[[y2 m2] d2] t2]. simpl in *.
  assert (~ (y1 = y2 /\ m1 = m2 /\ d1 = d2 /\ t1 = t2))
    by (intros (-> & -> & -> & ->); apply Hne; reflexivity).
  lia.
Qed.

(** Sorting rows of distinct keys by a strict total order of the keys puts
    them in strictly increasing order. *)
Lemma sort_rows_strict {A K : Type} (key : A -> K) (ltb : K -> K -> bool)
      (l : list A) :
  (forall a b c, ltb a b = true -> ltb b c = true -> ltb a c = true) ->
  (forall a b, a <> b -> ltb a b = false -> ltb b a = true) ->
  NoDup (map key l) ->
  StronglySorted (fun x y => ltb (key x) (key y) = true)
                 (sort_rows (fun y x => ltb (key y) (key x)) l).
Proof.
  intros Htrans Htotal. induction l as [|x r IH]; simpl; intros Hnd.
  - constructor.
  - inversion Hnd; subst. specialize (IH H2).
    assert (Hx : forall z,
               In z (sort_rows (fun y x => ltb (key y) (key x)) r) ->
               key z <> key x).
    { intros z Hz E. apply sort_rows_In in Hz. apply H1. rewrite <- E.
      apply in_map, Hz. }
    clear H1 H2 Hnd.
    induction IH as [|y ys Hys IHys Hy]; simpl.
    + repeat constructor.
    + destruct (ltb (key y) (key x)) eqn:E.
      * constructor.
        -- apply IHys. intros z Hz. apply Hx. right. exact Hz.
        -- apply Forall_forall. intros z Hz.
           apply (Permutation_in _
                    (Permutation_sym (insert_row_perm _ x ys))) in Hz.
           destruct Hz as [<-|Hz]; auto.
           rewrite Forall_forall in Hy. apply Hy, Hz.
      * assert (Hxy : ltb (key x) (key y) = true).
        { apply Htotal; auto. apply Hx. left. reflexivity. }
        constructor; [constructor; assumption|].
        apply Forall_forall. intros z [<-|Hz]; auto.
        rewrite Forall_forall in Hy. eapply Htrans; [exact Hxy|].
        apply Hy, Hz.
Qed.

Lemma value_counts_dates_In (col : list (option Timestamp))
      (d : Timestamp) (c : Z) :
  In (d, c) (value_counts_dates col) <->
  In (Some d) col /\
  c = Z.of_nat (count_key (fun x => x) Timestamp_eqb d (dropna col)).
Proof.
  unfold value_counts_dates, sort_values_desc.
  rewrite sort_rows_In, in_map_iff. split.
  - intros (k & E & Hk). inversion E; subst. split; auto.
    apply dropna_In.
    apply (proj1 (drop_duplicates_id_In _ Timestamp_eqb_spec _ _)), Hk.
  - intros (Hk & ->). exists d. split; auto.
    apply (drop_duplicates_id_In _ Timestamp_eqb_spec). apply dropna_In, Hk.
Qed.

Lemma value_counts_dates_NoDup (col : list (option Timestamp)) :
  NoDup (map fst (value_counts_dates col)).
Proof.
  unfold value_counts_dates, sort_values_desc.
  eapply Permutation_NoDup; [apply Permutation_map, sort_rows_perm|].
  rewrite map_map. simpl. rewrite map_id.
  apply (drop_duplicates_id_NoDup _ Timestamp_eqb_spec).
Qed.

Lemma value_counts_dates_total (col : list (option Timestamp)) :
  sumZ (map snd (value_counts_dates col)) = Z.of_nat (length (dropna col)).
Proof.
  unfold value_counts_dates, sort_values_desc.
  rewrite <- (sumZ_perm _ _ (Permutation_map snd (sort_rows_perm _ _))).
  rewrite map_map. simpl.
  rewrite <- (count_key_total (fun x => x) Timestamp_eqb Timestamp_eqb_spec
                (dropna col)).
  induction (drop_duplicates (fun x => x) Timestamp_eqb (dropna col))
    as [|k ks IH]; simpl; auto.
  rewrite IH. lia.
Qed.

Lemma count_dates_dropna (d : Timestamp) (bookings : list Bookings.row) :
  count_key (fun x => x) Timestamp_eqb d
            (dropna (map Bookings.BookingDate bookings))
  = bookings_on d bookings.
Proof.
  unfold count_key, bookings_on.
  induction bookings as [|b r IH]; simpl; auto.
  destruct (Bookings.BookingDate b) as [t|]; simpl; auto.
  destruct (Timestamp_eqb t d); simpl; auto.
Qed.

(** X5. The daily booking counts have one entry per date on which a booking
    falls, in strictly chronological order; the entry of a date carries the
    number of bookings of that date, and the counts add up to the number of
    bookings that have a date. *)
Theorem daily_bookings_chronological :
  forall bookings : list Bookings.row,
    let result := daily_bookings bookings in
    StronglySorted (fun a b => Timestamp_ltb (fst a) (fst b) = true) result /\
    (forall d c,
        In (d, c) result <->
        (exists b, In b bookings /\ Bookings.BookingDate b = Some d) /\
        c = Z.of_nat (bookings_on d bookings)) /\
    sumZ (map snd result)
    = Z.of_nat (length (dropna (map Bookings.BookingDate bookings))) /\
    (length result <= length bookings)%nat.
Proof.
  intros bookings result. unfold result, daily_bookings.
  split; [|split; [|split]].
  - apply (sort_rows_strict fst Timestamp_ltb).
    + apply Timestamp_ltb_trans.
    + apply Timestamp_ltb_total.
    + apply value_counts_dates_NoDup.
  - intros d c. rewrite sort_rows_In, value_counts_dates_In.
    rewrite count_dates_dropna, in_map_iff. split.
    + intros ((b & E & Hb) & Hc). split; auto. exists b. auto.
    + intros ((b & Hb & E) & Hc). split; auto. exists b. auto.
  - rewrite <- (sumZ_perm _ _ (Permutation_map snd (sort_rows_perm _ _))).
    apply value_counts_dates_total.
  - rewrite sort_rows_length.
    unfold value_counts_dates, sort_values_desc.
    rewrite sort_rows_length, length_map.
    pose proof (count_key_total (fun x => x) Timestamp_eqb Timestamp_eqb_spec
                  (dropna (map Bookings.BookingDate bookings))) as Ht.
    pose proof (proj1 (dropna_length (map Bookings.BookingDate bookings)))
      as Hl.
    rewrite length_map in Hl.
    assert (Hge : (length (drop_duplicates (fun x => x) Timestamp_eqb
                             (dropna (map Bookings.BookingDate bookings)))
                   <= length (dropna (map Bookings.BookingDate bookings)))%nat).
    { apply NoDup_incl_length.
      - apply (drop_duplicates_id_NoDup _ Timestamp_eqb_spec).
      - intros x Hx.
        apply (proj1 (drop_duplicates_id_In _ Timestamp_eqb_spec _ _)), Hx. }
    lia.
Qed.

(* ------------------------------------------------------------------ *)
(** ** Most active guides and certifications *)

Lemma top_n_complete {A : Type} (col : A -> option string) (df : list A)
      (n : nat) :
  (length (value_counts (map col df)) <= n)%nat ->
  head n (value_counts (map col df)) = value_counts (map col df) /\
  sumZ (map snd (head n (value_counts (map col df))))
  = Z.of_nat (length (dropna (map col df))).
Proof.
  intros H. unfold head. rewrite firstn_all2 by exact H.
  split; [reflexivity|]. apply value_counts_total.
Qed.

(** X6. Whatever order the sort leaves equal counts in, the
    most-active-guides table has at most [n] entries, one per guide name;
    each carries the number of rows of the merged bookings with that guide
    name; the entries come in descending order of count; a guide name left
    out has no more rows than any guide kept; and when the table holds
    every guide name its counts add up to the number of merged rows that
    have a guide. *)
Theorem top_guides_at_most_n_sorted :
  forall (n : nat) (bookings : list Bookings.row) (tours : list Tours.row)
         (guides : list Guides.row) (result : Series Z),
    let bm := bookings_merged bookings tours guides in
    is_top_guides n bm result ->
    (length result <= n)%nat /\
    NoDup (map fst result) /\
    (forall name c,
        In (name, c) result ->
        In (Some name) (map GuideName_of bm) /\
        c = Z.of_nat (rows_with GuideName_of name bm) /\ 0 < c) /\
    StronglySorted (fun a b => snd b <= snd a) result /\
    (forall name,
        In (Some name) (map GuideName_of bm) ->
        ~ In name (map fst result) ->
        length result = n /\
        forall e, In e result ->
                  Z.of_nat (rows_with GuideName_of name bm) <= snd e) /\
    ((length (counts (map GuideName_of bm)) <= n)%nat ->
     sumZ (map snd result)
     = Z.of_nat (length (dropna (map GuideName_of bm)))).
Proof.
  intros n bookings tours guides result bm (vc & Hvc & ->).
  split; [apply outcome_top_length|].
  split; [apply (outcome_top_NoDup GuideName_of bm n vc Hvc)|].
  split; [apply (outcome_top_In GuideName_of bm n vc Hvc)|].
  split; [apply (outcome_top_sorted GuideName_of bm n vc Hvc)|].
  split; [apply (outcome_top_left_out GuideName_of bm n vc Hvc)|].
  intros H. apply (outcome_top_complete GuideName_of bm n vc Hvc), H.
Qed.

Lemma top_guides_at_most_n_sorted_witness :
  let bm := bookings_merged
              [booking "T1" "G2" 1; booking "T1" "G1" 1; booking "T2" "G2" 2;
               booking "T2" "G9" 2]
              [tour "T1" "Alpha" "Rome" "9" "12" 1 1 0 0 0 0 0]
              [guide "G1" "Ann" "Rome"; guide "G2" "Bob" "Rome"] in
  top_guides 10 bm = [("Bob", 2); ("Ann", 1)] /\
  is_top_guides 10 bm [("Bob", 2); ("Ann", 1)] /\
  sumZ (map snd [("Bob", 2); ("Ann", 1)])
  = Z.of_nat (length (dropna (map GuideName_of bm))).
Proof.
  intros bm.
  assert (H : is_top_guides 10 bm [("Bob", 2); ("Ann", 1)])
    by apply (top_guides_is_outcome 10 bm).
  split; [reflexivity|]. split; [exact H|].
  destruct (top_guides_at_most_n_sorted
              10 [booking "T1" "G2" 1; booking "T1" "G1" 1;
                  booking "T2" "G2" 2; booking "T2" "G9" 2]
              [tour "T1" "Alpha" "Rome" "9" "12" 1 1 0 0 0 0 0]
              [guide "G1" "Ann" "Rome"; guide "G2" "Bob" "Rome"]
              [("Bob", 2); ("Ann", 1)] H)
    as (_ & _ & _ & _ & _ & Hsum).
  apply Hsum. vm_compute. lia.
Defined.

(** With a key on the right side, the left merge returns the left rows
    themselves, in their order, each once. *)
Lemma merge_left_rows {L R : Type} (kl : L -> string) (kr : R -> string)
      (left : list L) (right : list R) :
  NoDup (map kr right) ->
  map fst (merge_left kl kr left right) = left.
Proof.
  intros Hnd. unfold merge_left.
  induction left as [|l ls IH]; [reflexivity|].
  cbn [flat_map]. rewrite map_app, IH.
  assert (H : (length (filter (fun r => String.eqb (kr r) (kl l)) right)
               <= 1)%nat).
  { clear -Hnd. induction right as [|r rs IHr]; simpl; auto.
    inversion Hnd; subst.
    destruct (String.eqb_spec (kr r) (kl l)) as [E|E]; auto.
    simpl.
    destruct (filter (fun r0 => String.eqb (kr r0) (kl l)) rs) as [|r0 s]
      eqn:Ef; auto.
    exfalso. assert (Hin : In r0 (r0 :: s)) by (left; reflexivity).
    rewrite <- Ef in Hin. apply filter_In in Hin. destruct Hin as [Hr Hk].
    apply String.eqb_eq in Hk. apply H1. rewrite E, <- Hk.
    apply in_map, Hr. }
  destruct (filter (fun r => String.eqb (kr r) (kl l)) right) as [|r0 [|r1 rs]];
    simpl in *; auto.
  exfalso. clear -H. lia.
Qed.

(** X7. The Skills-Guides join is a left join from the skill records: every
    skill record is kept, with a missing guide when no guide row carries its
    GuideID; a joined row pairs a skill record with a guide of that id; and
    when no two guides share an id the join returns the skill records
    themselves, in their order, each once. *)
Theorem skills_named_keeps_skills :
  forall (skills : list Skills.row) (guides : list Guides.row),
    let joined := skills_named skills guides in
    (forall s, In s skills -> exists g, In (s, g) joined) /\
    (forall s g,
        In (s, Some g) joined <->
        In s skills /\ In g guides /\ Guides.id g = Skills.GuideID s) /\
    (forall s,
        In (s, None) joined <-> In s skills /\ no_guide_for_skill guides s) /\
    (NoDup (map Guides.id guides) -> map fst joined = skills).
Proof.
  intros skills guides joined. unfold joined, skills_named.
  split; [|split; [|split]].
  - intros s Hs. apply merge_left_total, Hs.
  - intros s g. rewrite merge_left_In. tauto.
  - intros s. rewrite merge_left_In. unfold no_guide_for_skill. tauto.
  - apply merge_left_rows.
Qed.

Lemma skills_named_keeps_skills_witness :
  let skills := [ {| Skills.GuideID := "G1"; Skills.TourID := "T1" |};
                  {| Skills.GuideID := "G9"; Skills.TourID := "T2" |} ] in
  let guides := [guide "G1" "Ann" "Rome"] in
  NoDup (map Guides.id guides) /\
  map fst (skills_named skills guides) = skills /\
  In ({| Skills.GuideID := "G9"; Skills.TourID := "T2" |}, None)
     (skills_named skills guides).
Proof.
  intros skills guides.
  assert (Hnd : NoDup (map Guides.id guides)).
  { simpl. constructor; [intros []|constructor]. }
  destruct (skills_named_keeps_skills skills guides) as (_ & _ & Hn & Hrows).
  split; [exact Hnd|]. split; [apply Hrows, Hnd|].
  apply Hn. split; [right; left; reflexivity|].
  intros g [<-|[]]. simpl. discriminate.
Defined.

Lemma rows_with_skills (name : string) (skills : list Skills.row)
      (guides : list Guides.row) :
  NoDup (map Guides.id guides) ->
  rows_with skill_GuideName_of name (skills_named skills guides)
  = certifications_of name skills guides.
Proof.
  intros Hnd. unfold rows_with, count_key, certifications_of, skills_named,
                merge_left.
  induction skills as [|s ss IH]; [reflexivity|].
  cbn [flat_map filter]. rewrite filter_app, length_app, IH. clear IH.
  assert (H : forall gs,
             NoDup (map Guides.id gs) ->
             length
               (filter (fun y => cell_eqb (skill_GuideName_of y) (Some name))
                  match filter (fun r => String.eqb (Guides.id r)
                                                    (Skills.GuideID s)) gs with
                  | [] => [(s, None)]
                  | r :: l => map (fun r0 => (s, Some r0)) (r :: l)
                  end)
             = if existsb (fun g => String.eqb (Guides.id g) (Skills.GuideID s)
                                    && String.eqb (Guides.GuideName g) name) gs
               then 1%nat else 0%nat).
  { clear. induction gs as [|g gs IHg]; intros Hnd; [reflexivity|].
    inversion Hnd; subst. specialize (IHg H2). simpl.
    destruct (String.eqb_spec (Guides.id g) (Skills.GuideID s)) as [E|E].
    - assert (Hnone : filter (fun r => String.eqb (Guides.id r)
                                                  (Skills.GuideID s)) gs = []).
      { destruct (filter (fun r => String.eqb (Guides.id r)
                                              (Skills.GuideID s)) gs)
          as [|r0 rs] eqn:Ef; auto.
        exfalso. assert (Hin : In r0 (r0 :: rs)) by (left; reflexivity).
        rewrite <- Ef in Hin. apply filter_In in Hin.
        destruct Hin as [Hr Hk]. apply String.eqb_eq in Hk.
        apply H1. rewrite E, <- Hk. apply in_map, Hr. }
      assert (Hex : existsb (fun g0 => String.eqb (Guides.id g0)
                                                  (Skills.GuideID s)
                                       && String.eqb (Guides.GuideName g0) name)
                            gs = false).
      { apply not_true_is_false. intros Hx. apply existsb_exists in Hx.
        destruct Hx as (g0 & Hg0 & Hk). apply andb_true_iff in Hk.
        destruct Hk as [Hk _]. apply String.eqb_eq in Hk.
        apply H1. rewrite E, <- Hk. apply in_map, Hg0. }
      rewrite Hnone, Hex. simpl. unfold skill_GuideName_of. simpl.
      destruct (String.eqb (Guides.GuideName g) name); reflexivity.
    - simpl. exact IHg. }
  rewrite (H guides Hnd).
  destruct (existsb _ guides); reflexivity.
Qed.

(** X8. The certification table has at most [n] entries in descending order
    of count, and when no two guides share an id the count of a guide name
    is the number of skill records of the guides of that name; skill records
    of an unknown guide are in no count. *)
Theorem top_skilled_guides_counts :
  forall (n : nat) (skills : list Skills.row) (guides : list Guides.row),
    NoDup (map Guides.id guides) ->
    let result := top_skilled_guides n (skills_named skills guides) in
    (length result <= n)%nat /\
    NoDup (map fst result) /\
    StronglySorted (fun a b => snd b <= snd a) result /\
    (forall name c,
        In (name, c) result ->
        c = Z.of_nat (certifications_of name skills guides) /\ 0 < c) /\
    sumZ (map snd result) <= Z.of_nat (length skills) /\
    (forall s,
        In s skills -> no_guide_for_skill guides s ->
        sumZ (map snd result) < Z.of_nat (length skills)).
Proof.
  intros n skills guides Hnd result. unfold result, top_skilled_guides.
  assert (Hlen : length (skills_named skills guides) = length skills)
    by (apply merge_left_length, Hnd).
  split; [apply top_n_length|].
  split; [apply top_n_NoDup|].
  split; [|split; [|split]].
  - eapply StronglySorted_impl_in; [|apply top_n_order].
    intros x y _ _ [H|[H _]]; lia.
  - intros name c H. apply top_n_In in H. destruct H as (_ & -> & Hpos).
    rewrite rows_with_skills in * by exact Hnd. auto.
  - rewrite <- Hlen.
    pose proof (top_n_total skill_GuideName_of (skills_named skills guides) n)
      as Ht.
    pose proof (proj1 (dropna_length
                         (map skill_GuideName_of (skills_named skills guides))))
      as Hd.
    rewrite length_map in Hd. lia.
  - intros s Hs Hno. rewrite <- Hlen. apply top_n_total_lt.
    apply in_map_iff. exists (s, None). split; [reflexivity|].
    unfold skills_named. apply merge_left_In. auto.
Qed.

Lemma top_skilled_guides_counts_witness :
  let skills := [ {| Skills.GuideID := "G1"; Skills.TourID := "T1" |};
                  {| Skills.GuideID := "G1"; Skills.TourID := "T2" |};
                  {| Skills.GuideID := "G9"; Skills.TourID := "T2" |} ] in
  let guides := [guide "G1" "Ann" "Rome"] in
  top_skilled_guides 10 (skills_named skills guides) = [("Ann", 2)] /\
  sumZ (map snd (top_skilled_guides 10 (skills_named skills guides)))
  <= Z.of_nat (length skills).
Proof.
  intros skills guides. split; [reflexivity|].
  assert (Hnd : NoDup (map Guides.id guides)).
  { simpl. constructor; [intros []|constructor]. }
  destruct (top_skilled_guides_counts 10 skills guides Hnd)
    as (_ & _ & _ & _ & H & _).
  exact H.
Defined.

(* ------------------------------------------------------------------ *)
(** ** The merged bookings and the occupied days *)

(** X9. When no two tours share an id and no two guides share an id, the
    two merges return the bookings themselves: the booking column of the
    merged frame is the bookings table, row for row and in its order, and a
    row's tour and guide are determined by the booking. *)
Theorem bookings_merged_one_row_per_booking :
  forall (bookings : list Bookings.row) (tours : list Tours.row)
         (guides : list Guides.row),
    NoDup (map Tours.id tours) ->
    NoDup (map Guides.id guides) ->
    map fst (bookings_tours bookings tours) = bookings /\
    map (fun r => fst (fst r)) (bookings_merged bookings tours guides)
    = bookings /\
    (forall b t t' g g',
        In (b, t, g) (bookings_merged bookings tours guides) ->
        In (b, t', g') (bookings_merged bookings tours guides) ->
        t = t' /\ g = g').
Proof.
  intros bookings tours guides Ht Hg.
  assert (H1 : map fst (bookings_tours bookings tours) = bookings)
    by (apply merge_left_rows, Ht).
  split; [exact H1|]. split.
  - rewrite <- H1 at 2. rewrite <- map_map. f_equal.
    apply (merge_left_rows (fun bt => Bookings.GuideID (fst bt))), Hg.
  - intros b t t' g g' Hin Hin'.
    apply bookings_merged_In in Hin, Hin'.
    destruct Hin as [Hbt Hbg], Hin' as [Hbt' Hbg'].
    apply bookings_tours_In in Hbt, Hbt'.
    destruct Hbt as [_ Hbt], Hbt' as [_ Hbt']. split.
    + destruct t as [tr|], t' as [tr'|]; auto.
      * f_equal. destruct Hbt as [Hi E], Hbt' as [Hi' E'].
        eapply NoDup_map_eq; eauto. congruence.
      * destruct Hbt as [Hi E]. exfalso. exact (Hbt' tr Hi E).
      * destruct Hbt' as [Hi E]. exfalso. exact (Hbt tr' Hi E).
    + destruct g as [gr|], g' as [gr'|]; auto.
      * f_equal. destruct Hbg as [Hi E], Hbg' as [Hi' E'].
        eapply NoDup_map_eq; eauto. congruence.
      * destruct Hbg as [Hi E]. exfalso. exact (Hbg' gr Hi E).
      * destruct Hbg' as [Hi E]. exfalso. exact (Hbg gr' Hi E).
Qed.

Lemma bookings_merged_one_row_per_booking_witness :
  let bookings := [booking "T1" "G1" 1; booking "T9" "G1" 3] in
  map (fun r => fst (fst r))
      (bookings_merged bookings
                       [tour "T1" "Alpha" "Rome" "9" "12" 1 1 0 0 0 0 0]
                       [guide "G1" "Ann" "Rome"])
  = bookings.
Proof.
  intros bookings.
  apply (bookings_merged_one_row_per_booking
           bookings [tour "T1" "Alpha" "Rome" "9" "12" 1 1 0 0 0 0 0]
           [guide "G1" "Ann" "Rome"]).
  - simpl. constructor; [intros []|constructor].
  - simpl. constructor; [intros []|constructor].
Defined.

Lemma bookings_merged_guide_rows bookings tours guides name d :
  (exists r, In r (bookings_merged bookings tours guides) /\
             GuideName_of r = Some name /\ BookingDate_of r = d) <->
  booked_on bookings guides name d.
Proof.
  unfold booked_on. split.
  - intros ([[b t] g] & Hin & En & Ed).
    apply bookings_merged_In in Hin. destruct Hin as [Hbt Hg].
    apply bookings_tours_In in Hbt. destruct Hbt as [Hb _].
    unfold GuideName_of in En. simpl in En.
    destruct g as [gr|]; [|discriminate]. simpl in En. inversion En.
    destruct Hg as [Hgr E]. exists b, gr. auto 10.
  - intros (b & g & Hb & Hg & E & En & Ed).
    destruct (merge_left_total Bookings.TourID Tours.id bookings tours b Hb)
      as [t Ht].
    exists (b, t, Some g). split; [|split].
    + apply bookings_merged_In. auto.
    + unfold GuideName_of. simpl. congruence.
    + exact Ed.
Qed.

(** The rows of the occupied-days table, in terms of the bookings and the
    guides. *)
Lemma occupied_days_rows (bookings : list Bookings.row)
      (guides : list Guides.row) :
  forall tours0 name c,
    In (name, c)
       (occupied_days (bookings_merged bookings tours0 guides)) <->
    (exists d, booked_on bookings guides name d) /\
    exists dates,
      NoDup dates /\ c = Z.of_nat (length dates) /\
      forall d, In d dates <->
                booked_on bookings guides name (Some d).
Proof.
  intros tours0 name c. unfold occupied_days, sort_values_desc.
  rewrite sort_rows_In, groupby_nunique_In.
  set (bm := bookings_merged bookings tours0 guides).
  assert (Hcol : forall d,
             In (Some d)
                (map BookingDate_of
                     (filter (fun r => label_is name (GuideName_of r)) bm)) <->
             booked_on bookings guides name (Some d)).
  { intros d. rewrite <- (bookings_merged_guide_rows bookings tours0 guides).
    rewrite in_map_iff. split.
    - intros (r & E & Hr). apply filter_In in Hr. destruct Hr as [Hr Hl].
      apply label_is_true in Hl. exists r. auto.
    - intros (r & Hr & En & Ed). exists r. split; auto.
      apply filter_In. split; auto. apply label_is_true, En. }
  split.
  - intros (Hname & ->). split.
    + apply in_map_iff in Hname. destruct Hname as (r & E & Hr).
      exists (BookingDate_of r).
      apply (bookings_merged_guide_rows bookings tours0 guides).
      exists r. auto.
    + destruct (nunique_dates
                  (map BookingDate_of
                       (filter (fun r => label_is name (GuideName_of r)) bm)))
        as (ds & Hnd & Hc & Hds).
      exists ds. split; auto. split; auto.
      intros d. rewrite Hds. apply Hcol.
  - intros ((d0 & Hb) & dates & Hnd & -> & Hd). split.
    + apply (bookings_merged_guide_rows bookings tours0 guides) in Hb.
      destruct Hb as (r & Hr & En & _). apply in_map_iff. exists r. auto.
    + destruct (nunique_dates
                  (map BookingDate_of
                       (filter (fun r => label_is name (GuideName_of r)) bm)))
        as (ds & Hnd' & Hc & Hds).
      rewrite Hc. f_equal. apply Permutation_length.
      apply NoDup_Permutation; auto.
      intros d. rewrite Hd, Hds. symmetry. apply Hcol.
Qed.

(** X10. The occupied-days table has one row per guide name that has a
    booking, in descending order of count; the count is the number of
    distinct booking dates of the guides of that name.  It is read off the
    bookings and the guides alone: the tours table, through which the merged
    frame is built, has no influence on it. *)
Theorem occupied_days_counts :
  forall (bookings : list Bookings.row) (tours : list Tours.row)
         (guides : list Guides.row),
    let result := occupied_days (bookings_merged bookings tours guides) in
    StronglySorted (fun a b => snd b <= snd a) result /\
    NoDup (map fst result) /\
    (forall name,
        In name (map fst result) <->
        exists d, booked_on bookings guides name d) /\
    (forall name c,
        In (name, c) result ->
        0 <= c <= Z.of_nat (length bookings) /\
        exists dates,
          NoDup dates /\ c = Z.of_nat (length dates) /\
          forall d, In d dates <-> booked_on bookings guides name (Some d)) /\
    (forall tours' name c,
        In (name, c) result <->
        In (name, c)
           (occupied_days (bookings_merged bookings tours' guides))).
Proof.
  intros bookings tours guides result.
  pose proof (occupied_days_rows bookings guides) as Hdates.
  split; [apply sort_values_desc_sorted|]. split; [|split; [|split]].
  - unfold result, occupied_days, sort_values_desc.
    eapply Permutation_NoDup; [apply Permutation_map, sort_rows_perm|].
    rewrite groupby_nunique_labels. apply group_labels_NoDup.
  - intros name. split.
    + intros H. apply in_map_iff in H. destruct H as ([k c] & E & H).
      simpl in E. subst k. apply Hdates in H. tauto.
    + intros (d & Hb). unfold result, occupied_days, sort_values_desc.
      apply (bookings_merged_guide_rows bookings tours guides) in Hb.
      destruct Hb as (r & Hr & En & _).
      apply in_map_iff.
      eexists (name, _). split; [reflexivity|].
      apply sort_rows_In. apply groupby_nunique_In. split; [|reflexivity].
      apply in_map_iff. exists r. auto.
  - intros name c H. apply Hdates in H.
    destruct H as (_ & dates & Hnd & -> & Hd). split.
    + split; [lia|].
      assert (Hincl : incl (map Some dates)
                           (map Bookings.BookingDate bookings)).
      { intros o Ho. apply in_map_iff in Ho. destruct Ho as (d & <- & Hin).
        apply Hd in Hin. destruct Hin as (b & g & Hb & _ & _ & _ & E).
        apply in_map_iff. exists b. auto. }
      assert (Hnd' : NoDup (map Some dates)).
      { clear -Hnd. induction Hnd; simpl; constructor; auto.
        intros Hin. apply in_map_iff in Hin.
        destruct Hin as (y & E & Hy). inversion E; subst. contradiction. }
      pose proof (NoDup_incl_length Hnd' Hincl) as Hl.
      rewrite !length_map in Hl. lia.
    + exists dates. auto.
  - intros tours' name c. unfold result. rewrite !Hdates. tauto.
Qed.

Lemma occupied_days_counts_witness :
  occupied_days
    (bookings_merged
       [booking "T1" "G1" 1; booking "T2" "G1" 1; booking "T1" "G2" 2;
        booking "T1" "G1" 3]
       [tour "T1" "Alpha" "Rome" "9" "12" 1 1 0 0 0 0 0;
        tour "T1" "Alpha bis" "Rome" "9" "12" 1 1 0 0 0 0 0]
       [guide "G1" "Ann" "Rome"; guide "G2" "Bob" "Rome"])
  = [("Ann", 2); ("Bob", 1)] /\
  In ("Ann", 2)
     (occupied_days
        (bookings_merged
           [booking "T1" "G1" 1; booking "T2" "G1" 1; booking "T1" "G2" 2;
            booking "T1" "G1" 3]
           []
           [guide "G1" "Ann" "Rome"; guide "G2" "Bob" "Rome"])).
Proof.
  split; [reflexivity|].
  destruct (occupied_days_counts
              [booking "T1" "G1" 1; booking "T2" "G1" 1; booking "T1" "G2" 2;
               booking "T1" "G1" 3]
              [tour "T1" "Alpha" "Rome" "9" "12" 1 1 0 0 0 0 0;
               tour "T1" "Alpha bis" "Rome" "9" "12" 1 1 0 0 0 0 0]
              [guide "G1" "Ann" "Rome"; guide "G2" "Bob" "Rome"])
    as (_ & _ & _ & _ & Hind).
  apply (Hind [] "Ann" 2). left. reflexivity.
Defined.

(* ------------------------------------------------------------------ *)
(** ** Bounds of the occupancy percentage *)

Lemma rint_close (x : Q) :
  (inject_Z (rint x) - x <= 1 # 2)%Q /\ (x - inject_Z (rint x) <= 1 # 2)%Q.
Proof.
  unfold rint.
  pose proof (Qfloor_le x) as Hlo. pose proof (Qlt_floor x) as Hhi.
  rewrite inject_Z_plus in Hhi. change (inject_Z 1) with 1%Q in Hhi.
  destruct (Qcompare (x - inject_Z (Qfloor x)) (1 # 2)) eqn:E.
  - apply Qeq_alt in E.
    destruct (Z.even (Qfloor x)); [|rewrite inject_Z_plus;
                                     change (inject_Z 1) with 1%Q]; lra.
  - apply Qlt_alt in E. lra.
  - apply Qgt_alt in E. rewrite inject_Z_plus.
    change (inject_Z 1) with 1%Q. lra.
Qed.

Lemma rint_le (x : Q) (m : Z) : (x <= inject_Z m)%Q -> rint x <= m.
Proof.
  intros H. destruct (rint_close x) as [H1 _].
  assert (Hlt : (inject_Z (rint x) < inject_Z (m + 1))%Q).
  { rewrite inject_Z_plus. change (inject_Z 1) with 1%Q. lra. }
  rewrite <- Zlt_Qlt in Hlt. lia.
Qed.

Lemma rint_ge (x : Q) (m : Z) : (inject_Z m <= x)%Q -> m <= rint x.
Proof.
  intros H. destruct (rint_close x) as [_ H2].
  assert (Hlt : (inject_Z m < inject_Z (rint x + 1))%Q).
  { rewrite inject_Z_plus. change (inject_Z 1) with 1%Q. lra. }
  rewrite <- Zlt_Qlt in Hlt. lia.
Qed.

Lemma pow2_pos (e : Z) : (0 < pow2 e)%Q.
Proof.
  unfold pow2. destruct (0 <=? e) eqn:E.
  - apply Z.leb_le in E. change 0%Q with (inject_Z 0). rewrite <- Zlt_Qlt.
    apply Z.pow_pos_nonneg; lia.
  - reflexivity.
Qed.

(** For [e <= 0], [pow2 e] is one over the whole number [2 ^ (- e)]. *)
Lemma pow2_nonpos (e : Z) :
  e <= 0 -> (pow2 e * inject_Z (2 ^ (- e)) == 1)%Q.
Proof.
  intros He. unfold pow2. destruct (Z.leb_spec 0 e).
  - assert (e = 0) by lia. subst. reflexivity.
  - assert (Hp : 0 < 2 ^ (- e)) by (apply Z.pow_pos_nonneg; lia).
    unfold Qeq, Qmult, inject_Z. cbn [Qnum Qden].
    rewrite Pos.mul_1_r, Z2Pos.id by exact Hp. lia.
Qed.

Lemma pow2_ge (k : Z) : 53 <= k -> (inject_Z (2 ^ 53) <= pow2 k)%Q.
Proof.
  intros Hk. unfold pow2. destruct (Z.leb_spec 0 k); [|lia].
  rewrite <- Zle_Qle. apply Z.pow_le_mono_r; lia.
Qed.

(** A positive value of at most [n < 2 ^ 53] has its binary exponent below
    53. *)
Lemma Qlog2_small (q : Q) (n : Z) :
  (0 < q)%Q -> (q <= inject_Z n)%Q -> n < 2 ^ 53 -> Qlog2 q <= 52.
Proof.
  intros Hq Hn Hb. unfold Qlog2.
  set (k := Z.log2 (Qnum q) - Z.log2 (Z.pos (Qden q))).
  destruct (Qle_bool (pow2 k) q) eqn:E.
  - apply Qle_bool_iff in E.
    destruct (Z_lt_le_dec k 53) as [|Hk]; [lia|].
    pose proof (pow2_ge k Hk) as H.
    assert (Hlt : (inject_Z n < inject_Z (2 ^ 53))%Q)
      by (rewrite <- Zlt_Qlt; exact Hb).
    exfalso. lra.
  - assert (Hk : k <= 53); [|lia].
    destruct q as [a b]. unfold k. cbn [Qnum Qden].
    unfold Qlt in Hq. unfold Qle in Hn. cbn [Qnum Qden inject_Z] in Hq, Hn.
    assert (Ha : 0 < a) by lia.
    assert (Hab : a <= n * Z.pos b) by lia.
    assert (Hn0 : 0 < n) by nia.
    pose proof (Z.log2_le_mono _ _ Hab) as H1.
    assert (H2 : Z.log2 (n * Z.pos b) <= Z.log2 n + Z.log2 (Z.pos b) + 1)
      by (apply Z.log2_mul_above; lia).
    assert (H3 : Z.log2 n < 53).
    { apply Z.log2_lt_pow2; lia. }
    lia.
Qed.

(** Rounding a positive value of at most the whole number [n < 2 ^ 53]
    gives a finite value between 0 and [n]. *)
Lemma round64_pos_bounded (q : Q) (n : Z) :
  (0 < q)%Q -> (q <= inject_Z n)%Q -> n < 2 ^ 53 ->
  exists v, round64_pos q = FNum v /\ (0 <= v)%Q /\ (v <= inject_Z n)%Q.
Proof.
  intros Hq Hn Hb. unfold round64_pos.
  pose proof (Qlog2_small q n Hq Hn Hb) as Hk.
  set (e := Z.max (Qlog2 q - 52) (-1074)).
  assert (He : e <= 0) by (unfold e; lia).
  pose proof (pow2_pos e) as Hp. pose proof (pow2_nonpos e He) as Hinv.
  set (s := 2 ^ (- e)) in *.
  assert (Hs : (0 < inject_Z s)%Q).
  { change 0%Q with (inject_Z 0). rewrite <- Zlt_Qlt.
    apply Z.pow_pos_nonneg; lia. }
  assert (Hdiv : (q / pow2 e == q * inject_Z s)%Q).
  { apply Qmult_inj_r with (z := pow2 e); [lra|].
    rewrite Qmult_comm, Qmult_div_r by lra.
    rewrite <- Qmult_assoc, (Qmult_comm (inject_Z s)), Hinv. lra. }
  set (m := rint (q / pow2 e)).
  assert (Hm0 : 0 <= m).
  { apply rint_ge. change (inject_Z 0) with 0%Q. rewrite Hdiv.
    apply Qmult_le_0_compat; lra. }
  assert (Hm1 : m <= n * s).
  { apply rint_le. rewrite Hdiv, inject_Z_mult.
    apply Qmult_le_compat_r; lra. }
  assert (Hv0 : (0 <= inject_Z m * pow2 e)%Q).
  { apply Qmult_le_0_compat; [|lra].
    change 0%Q with (inject_Z 0). rewrite <- Zle_Qle. exact Hm0. }
  assert (Hv1 : (inject_Z m * pow2 e <= inject_Z n)%Q).
  { apply Qle_trans with (inject_Z (n * s) * pow2 e)%Q.
    - apply Qmult_le_compat_r; [|lra]. rewrite <- Zle_Qle. exact Hm1.
    - rewrite inject_Z_mult, <- Qmult_assoc, (Qmult_comm (inject_Z s)), Hinv.
      lra. }
  destruct (Qle_bool (pow2 1024) (inject_Z m * pow2 e)) eqn:E.
  - apply Qle_bool_iff in E. exfalso.
    assert (H53 : (inject_Z (2 ^ 53) <= pow2 1024)%Q) by (apply pow2_ge; lia).
    assert (Hlt : (inject_Z n < inject_Z (2 ^ 53))%Q)
      by (rewrite <- Zlt_Qlt; exact Hb).
    lra.
  - eexists. split; [reflexivity|]. rewrite Qred_correct. split; assumption.
Qed.

Lemma round64_bounded (q : Q) (n : Z) :
  (0 <= q)%Q -> (q <= inject_Z n)%Q -> n < 2 ^ 53 ->
  exists v, round64 q = FNum v /\ (0 <= v)%Q /\ (v <= inject_Z n)%Q.
Proof.
  intros Hq Hn Hb. unfold round64. destruct q as [a b]. simpl.
  destruct a as [|a|a].
  - exists 0%Q. split; [reflexivity|]. split; [lra|].
    apply Qle_trans with (0 # b)%Q; [|exact Hn]. unfold Qle. simpl. lia.
  - apply round64_pos_bounded; auto. reflexivity.
  - exfalso. unfold Qle in Hq. simpl in Hq. lia.
Qed.

Lemma fround2_bounded (v : Q) (n : Z) :
  (0 <= v)%Q -> (v <= inject_Z n)%Q -> 100 * n < 2 ^ 53 ->
  exists hundredths w,
    0 <= hundredths <= 100 * n /\
    fround2 (FNum v) = round64 (inject_Z hundredths / 100) /\
    fround2 (FNum v) = FNum w /\ (0 <= w)%Q /\ (w <= inject_Z n)%Q.
Proof.
  intros Hv0 Hv1 Hb.
  assert (Hn : 0 <= n).
  { rewrite Zle_Qle. change (inject_Z 0) with 0%Q. lra. }
  destruct (round64_bounded (v * 100) (100 * n)) as (x & Ex & Hx0 & Hx1);
    [lra| |exact Hb|].
  { rewrite inject_Z_mult. change (inject_Z 100) with 100%Q. lra. }
  set (k := rint x).
  assert (Hk0 : 0 <= k) by (apply rint_ge; exact Hx0).
  assert (Hk1 : k <= 100 * n) by (apply rint_le; exact Hx1).
  assert (Hq0 : (0 <= inject_Z k / 100)%Q).
  { rewrite Zle_Qle in Hk0. change (inject_Z 0) with 0%Q in Hk0.
    unfold Qdiv. change (/ 100)%Q with (1 # 100)%Q. lra. }
  assert (Hq1 : (inject_Z k / 100 <= inject_Z n)%Q).
  { rewrite Zle_Qle, inject_Z_mult in Hk1.
    change (inject_Z 100) with 100%Q in Hk1.
    unfold Qdiv. change (/ 100)%Q with (1 # 100)%Q. lra. }
  destruct (round64_bounded (inject_Z k / 100) n Hq0 Hq1) as (w & Ew & Hw);
    [lia|].
  assert (E : fround2 (FNum v) = round64 (inject_Z k / 100)).
  { unfold fround2. change (fmul (FNum v) (FNum 100)) with (round64 (v * 100)).
    rewrite Ex. reflexivity. }
  exists k, w. split; [lia|]. split; [exact E|]. rewrite E. split; tauto.
Qed.

(** X11. For a guide with a positive number of available days and a
    non-negative number of occupied days that is at most n times the
    available days, the occupancy cell is finite, between 0 and 100 * n,
    and it is the float64 nearest to a whole number of hundredths; with no
    more occupied than available days it lies between 0 and 100.  Nothing
    caps it otherwise: 3 occupied days over 2 available days give 150.  The
    cell is computed in float64, so it can differ from the exact percentage
    rounded to two decimals: 23 over 160 is 14.375 and gives the float64 of
    14.37. *)
Theorem occupancy_pct_bounds :
  forall (occupied available : Series Z) (r : stats_row) (d a n : Z),
    In r (stats occupied available) ->
    DaysOccupied r = Some d -> AvailableDays r = Some a ->
    0 <= d -> 0 < a -> d <= n * a -> 10000 * n < 2 ^ 53 ->
    (exists (hundredths : Z) (v : Q),
        0 <= hundredths <= 10000 * n /\
        OccupancyPct r = round64 (inject_Z hundredths / 100) /\
        OccupancyPct r = FNum v /\
        (0 <= v)%Q /\ (v <= inject_Z (100 * n))%Q) /\
    occupancy_pct (Some 3) (Some 2) = FNum 150 /\
    occupancy_pct (Some 23) (Some 160) = round64 (1437 # 100) /\
    (inject_Z 23 / inject_Z 160 * 100 == 14375 # 1000)%Q.
Proof.
  intros occupied available r d a n Hr Hd Ha Hd0 Ha0 Hdn Hb.
  split; [|split; [vm_compute; reflexivity|split; [vm_compute|]; reflexivity]].
  unfold stats in Hr. apply in_map_iff in Hr. destruct Hr as (g & <- & _).
  cbn [DaysOccupied AvailableDays OccupancyPct] in *.
  rewrite Hd, Ha, occupancy_pct_cases. unfold occupancy_cases.
  destruct (Z.eqb_spec a 0) as [E|_]; [lia|].
  set (x := (inject_Z d / inject_Z a)%Q).
  assert (Hn : 0 <= n) by nia.
  assert (HaQ : (0 < inject_Z a)%Q).
  { change 0%Q with (inject_Z 0). rewrite <- Zlt_Qlt. exact Ha0. }
  assert (Hx0 : (0 <= x)%Q).
  { apply Qle_shift_div_l; [exact HaQ|].
    rewrite Qmult_0_l. change 0%Q with (inject_Z 0). rewrite <- Zle_Qle.
    exact Hd0. }
  assert (Hx1 : (x <= inject_Z n)%Q).
  { apply Qle_shift_div_r; [exact HaQ|].
    rewrite <- inject_Z_mult, <- Zle_Qle. exact Hdn. }
  destruct (round64_bounded x n Hx0 Hx1) as (v1 & E1 & H10 & H11); [lia|].
  rewrite E1.
  destruct (round64_bounded (v1 * 100) (100 * n)) as (v2 & E2 & H20 & H21);
    [lra| |lia|].
  { rewrite inject_Z_mult. change (inject_Z 100) with 100%Q. lra. }
  change (fmul (FNum v1) (FNum 100)) with (round64 (v1 * 100)). rewrite E2.
  destruct (fround2_bounded v2 (100 * n) H20 H21)
    as (k & w & Hk & Ek & Ew & Hw0 & Hw1); [lia|].
  exists k, w. split; [lia|]. split; [exact Ek|]. split; [exact Ew|].
  split; assumption.
Qed.

Lemma occupancy_pct_bounds_witness :
  exists (hundredths : Z) (v : Q),
    0 <= hundredths <= 10000 /\
    occupancy_pct (Some 1) (Some 3) = round64 (inject_Z hundredths / 100) /\
    occupancy_pct (Some 1) (Some 3) = FNum v /\
    (0 <= v)%Q /\ (v <= 100)%Q.
Proof.
  destruct (occupancy_pct_bounds
              [("Ann", 1)] [("Ann", 3)]
              {| stats_GuideName := "Ann"; DaysOccupied := Some 1;
                 AvailableDays := Some 3;
                 OccupancyPct := occupancy_pct (Some 1) (Some 3) |} 1 3 1)
    as ((h & v & Hh & E & Ev & Hv) & _).
  - left. reflexivity.
  - reflexivity.
  - reflexivity.
  - lia.
  - lia.
  - lia.
  - reflexivity.
  - exists h, v. cbn [OccupancyPct] in E, Ev.
    split; [lia|]. split; [exact E|]. split; [exact Ev|]. exact Hv.
Defined.

(* ------------------------------------------------------------------ *)
(** ** The sorted occupancy table *)

(** Sorting rows on which [before] is a strict weak order leaves no row
    ahead of a row that has to come before it. *)
Lemma sort_rows_sorted_on {A : Type} (before : A -> A -> bool)
      (D : A -> Prop) (l : list A) :
  (forall x y, D x -> D y -> before y x = true -> before x y = false) ->
  (forall x y z, D x -> D y -> D z ->
                 before y x = false -> before z y = false ->
                 before z x = false) ->
  Forall D l ->
  StronglySorted (fun a b => before b a = false) (sort_rows before l).
Proof.
  intros Hasym Htrans. induction l as [|x r IH]; simpl; intros HD.
  - constructor.
  - inversion HD as [|? ? Hx Hr]; subst. specialize (IH Hr).
    assert (HDs : Forall D (sort_rows before r)).
    { apply Forall_forall. intros z Hz. apply sort_rows_In in Hz.
      rewrite Forall_forall in Hr. apply Hr, Hz. }
    clear Hr HD.
    induction IH as [|y ys Hys IHys Hy]; simpl.
    + repeat constructor.
    + inversion HDs as [|? ? Hdy Hdys]; subst.
      destruct (before y x) eqn:E.
      * constructor; [apply IHys, Hdys|].
        apply Forall_forall. intros z Hz.
        apply (Permutation_in _
                 (Permutation_sym (insert_row_perm _ x ys))) in Hz.
        destruct Hz as [<-|Hz]; [apply Hasym; auto|].
        rewrite Forall_forall in Hy. apply Hy, Hz.
      * constructor; [constructor; assumption|].
        apply Forall_forall. intros z [<-|Hz]; auto.
        rewrite Forall_forall in Hy, Hdys.
        apply (Htrans x y z); auto.
Qed.

Lemma float_ltb_asym (x y : float) :
  float_ltb x y = true -> float_ltb y x = false.
Proof.
  destruct x as [a| | |], y as [b| | |]; simpl; auto; try discriminate.
  intros H. apply negb_true_iff in H. apply negb_false_iff.
  apply Qle_bool_iff.
  assert (Hn : ~ (b <= a)%Q).
  { intros Hle. apply Qle_bool_iff in Hle. congruence. }
  lra.
Qed.

Lemma float_geb_trans (x y z : float) :
  isnan x = false -> isnan y = false -> isnan z = false ->
  float_ltb x y = false -> float_ltb y z = false -> float_ltb x z = false.
Proof.
  destruct x as [a| | |], y as [b| | |], z as [c| | |]; simpl; auto;
    try discriminate.
  intros _ _ _ H1 H2.
  apply negb_false_iff in H1, H2. apply negb_false_iff.
  apply Qle_bool_iff in H1, H2. apply Qle_bool_iff. lra.
Qed.

Lemma filter_partition_perm {A : Type} (f : A -> bool) (l : list A) :
  Permutation l (filter (fun x => negb (f x)) l ++ filter f l)%list.
Proof.
  induction l as [|x r IH]; simpl; auto.
  destruct (f x); simpl.
  - apply Permutation_cons_app. exact IH.
  - constructor. exact IH.
Qed.

Lemma stats_sorted_perm (st : list stats_row) :
  Permutation st (stats_sorted st).
Proof.
  unfold stats_sorted.
  eapply perm_trans;
    [apply (filter_partition_perm (fun r => isnan (OccupancyPct r)))|].
  apply Permutation_app_tail. apply sort_rows_perm.
Qed.

(** X12. The sorted occupancy table holds the rows of the occupancy
    statistics, rearranged: first the rows whose OccupancyPct is defined, in
    descending order (an infinite occupancy ahead of every finite one), then
    the rows whose OccupancyPct is undefined, in their former order. *)
Theorem stats_sorted_descending_nan_last :
  forall st : list stats_row,
    Permutation st (stats_sorted st) /\
    exists defined undefined,
      stats_sorted st = (defined ++ undefined)%list /\
      Forall (fun r => isnan (OccupancyPct r) = false) defined /\
      StronglySorted
        (fun a b => float_ltb (OccupancyPct a) (OccupancyPct b) = false)
        defined /\
      undefined = filter (fun r => isnan (OccupancyPct r)) st /\
      (forall a b,
          In a defined -> In b defined ->
          OccupancyPct a = FPosInf -> OccupancyPct b <> FPosInf ->
          exists l1 l2 l3, defined = (l1 ++ a :: l2 ++ b :: l3)%list).
Proof.
  intros st. unfold stats_sorted.
  set (f := fun r => isnan (OccupancyPct r)).
  set (before := fun y x => float_ltb (OccupancyPct x) (OccupancyPct y)).
  assert (Hdef : Forall (fun r => isnan (OccupancyPct r) = false)
                   (sort_rows before (filter (fun r => negb (f r)) st))).
  { apply Forall_forall. intros r Hr. apply sort_rows_In in Hr.
    apply filter_In in Hr. destruct Hr as [_ Hr].
    apply negb_true_iff in Hr. exact Hr. }
  assert (Hsorted : StronglySorted
            (fun a b => float_ltb (OccupancyPct a) (OccupancyPct b) = false)
            (sort_rows before (filter (fun r => negb (f r)) st))).
  { apply (sort_rows_sorted_on before
             (fun r => isnan (OccupancyPct r) = false)).
    - intros x y _ _. unfold before. apply float_ltb_asym.
    - intros x y z Hx Hy Hz. unfold before. intros H1 H2.
      apply (float_geb_trans _ (OccupancyPct y)); auto.
    - apply Forall_forall. intros r Hr. apply filter_In in Hr.
      destruct Hr as [_ Hr]. apply negb_true_iff in Hr. exact Hr. }
  split.
  - eapply perm_trans; [apply (filter_partition_perm f)|].
    apply Permutation_app_tail. apply sort_rows_perm.
  - exists (sort_rows before (filter (fun r => negb (f r)) st)),
           (filter f st).
    split; [reflexivity|]. split; [exact Hdef|]. split; [exact Hsorted|].
    split; [reflexivity|].
    intros a b Ha Hb Einf Hfin.
    destruct (in_split a _ Ha) as (l1 & l2 & E).
    rewrite E in Hb. apply in_app_or in Hb.
    destruct Hb as [Hb|[Hb|Hb]].
    + exfalso.
      assert (Hnb : isnan (OccupancyPct b) = false).
      { rewrite Forall_forall in Hdef. apply Hdef. rewrite E.
        apply in_or_app. left. exact Hb. }
      rewrite E in Hsorted.
      assert (Hba : float_ltb (OccupancyPct b) (OccupancyPct a) = false).
      { apply (StronglySorted_app_inv _ l1 (a :: l2) Hsorted b a Hb).
        left. reflexivity. }
      rewrite Einf in Hba.
      destruct (OccupancyPct b); simpl in *; congruence.
    + subst b. congruence.
    + destruct (in_split b _ Hb) as (m1 & m2 & E1).
      exists l1, m1, m2. rewrite E, E1. reflexivity.
Qed.

Lemma stats_sorted_descending_nan_last_witness :
  map (fun r => (stats_GuideName r, OccupancyPct r))
      (stats_sorted
         (stats [("Ann", 5); ("Bob", 1); ("Dee", 0); ("Eve", 3)]
                [("Ann", 0); ("Bob", 32); ("Cy", 2); ("Dee", 0);
                 ("Eve", 4)]))
  = [("Ann", FPosInf); ("Eve", occupancy_pct (Some 3) (Some 4));
     ("Bob", occupancy_pct (Some 1) (Some 32)); ("Cy", FNaN);
     ("Dee", FNaN)] /\
  Permutation
    (stats [("Ann", 5)] [("Ann", 0)])
    (stats_sorted (stats [("Ann", 5)] [("Ann", 0)])).
Proof.
  split; [reflexivity|].
  apply (stats_sorted_descending_nan_last (stats [("Ann", 5)] [("Ann", 0)])).
Defined.

(* ------------------------------------------------------------------ *)
(** ** Operating days by location *)

Lemma sumZ_split_label (F : string -> Z) (k : string) (s : list string) :
  NoDup s ->
  sumZ (map F s)
  = sumZ (map F (filter (fun y => negb (String.eqb y k)) s))
    + (if mem k s then F k else 0).
Proof.
  induction s as [|b s IH]; simpl; intros Hnd; auto.
  inversion Hnd; subst. rewrite (IH H2). unfold mem. simpl.
  rewrite (String.eqb_sym k b).
  destruct (String.eqb_spec b k) as [E|E]; simpl.
  - subst b. fold (mem k s).
    replace (mem k s) with false
      by (symmetry; apply mem_not_In; assumption).
    lia.
  - fold (mem k s). lia.
Qed.

Lemma operating_days_total (tours : list Tours.row) :
  sumZ (map (fun loc => operating_days_at loc tours)
            (drop_duplicates (fun x => x) String.eqb
                             (map Tours.TourLocation tours)))
  = sumZ (map Tours_Operating_Days tours).
Proof.
  induction tours as [|t ts IH]; [reflexivity|].
  cbn [map drop_duplicates sumZ fold_right].
  fold (sumZ (map Tours_Operating_Days ts)).
  match goal with
  | |- ?a + fold_right Z.add 0 ?l = _ => change (a + sumZ l = 
        Tours_Operating_Days t + sumZ (map Tours_Operating_Days ts))
  end.
  rewrite <- IH.
  rewrite (sumZ_split_label (fun loc => operating_days_at loc ts)
             (Tours.TourLocation t) _
             (drop_duplicates_id_NoDup _ String.eqb_spec _)).
  assert (Hrest :
            map (fun loc => operating_days_at loc (t :: ts))
                (filter (fun y => negb (String.eqb y (Tours.TourLocation t)))
                        (drop_duplicates (fun x => x) String.eqb
                                         (map Tours.TourLocation ts)))
            = map (fun loc => operating_days_at loc ts)
                  (filter (fun y => negb (String.eqb y (Tours.TourLocation t)))
                          (drop_duplicates (fun x => x) String.eqb
                                           (map Tours.TourLocation ts)))).
  { apply map_ext_in. intros loc Hloc. apply filter_In in Hloc.
    destruct Hloc as [_ Hloc]. apply negb_true_iff in Hloc.
    unfold operating_days_at. simpl.
    rewrite String.eqb_sym, Hloc. reflexivity. }
  rewrite Hrest.
  assert (Hhead : operating_days_at (Tours.TourLocation t) (t :: ts)
                  = Tours_Operating_Days t
                    + operating_days_at (Tours.TourLocation t) ts).
  { unfold operating_days_at. simpl. rewrite String.eqb_refl. reflexivity. }
  rewrite Hhead.
  assert (Htail : (if mem (Tours.TourLocation t)
                          (drop_duplicates (fun x => x) String.eqb
                                           (map Tours.TourLocation ts))
                   then operating_days_at (Tours.TourLocation t) ts else 0)
                  = operating_days_at (Tours.TourLocation t) ts).
  { destruct (mem (Tours.TourLocation t) _) eqn:Em; auto.
    apply mem_not_In in Em.
    unfold operating_days_at.
    replace (filter (fun t0 => String.eqb (Tours.TourLocation t0)
                                          (Tours.TourLocation t)) ts)
      with (@nil Tours.row); [reflexivity|].
    symmetry.
    destruct (filter (fun t0 => String.eqb (Tours.TourLocation t0)
                                           (Tours.TourLocation t)) ts)
      as [|t0 r] eqn:Ef; auto.
    exfalso. apply Em.
    apply (drop_duplicates_id_In _ String.eqb_spec).
    assert (Hin : In t0 (t0 :: r)) by (left; reflexivity).
    rewrite <- Ef in Hin. apply filter_In in Hin. destruct Hin as [Hin Hk].
    apply String.eqb_eq in Hk. rewrite <- Hk. apply in_map, Hin. }
  rewrite Htail. lia.
Qed.

Lemma dropna_map_Some {A B : Type} (f : A -> B) (l : list A) :
  dropna (map (fun x => Some (f x)) l) = map f l.
Proof. induction l; simpl; congruence. Qed.

(** X13. The operating-days table has one row per tour location, in
    descending order of total; a location's total is the sum of the weekly
    operating-day counts of its tours, and the totals of all locations add
    up to the operating-day counts of all tours. *)
Theorem location_totals_sums :
  forall tours : list Tours.row,
    let result := location_totals tours in
    StronglySorted (fun a b => snd b <= snd a) result /\
    NoDup (map fst result) /\
    (forall loc v,
        In (loc, v) result <->
        (exists t, In t tours /\ Tours.TourLocation t = loc) /\
        v = operating_days_at loc tours) /\
    sumZ (map snd result) = sumZ (map Tours_Operating_Days tours).
Proof.
  intros tours result. unfold result, location_totals.
  split; [apply sort_values_desc_sorted|]. split; [|split].
  - unfold sort_values_desc.
    eapply Permutation_NoDup; [apply Permutation_map, sort_rows_perm|].
    unfold groupby_sum. rewrite map_map. simpl. rewrite map_id.
    apply group_labels_NoDup.
  - intros loc v. unfold sort_values_desc, groupby_sum.
    rewrite sort_rows_In, in_map_iff. split.
    + intros (k & E & Hk). inversion E; subst. split; [|reflexivity].
      apply group_labels_In in Hk. apply in_map_iff in Hk.
      destruct Hk as (t & Et & Ht). inversion Et. exists t. auto.
    + intros ((t & Ht & El) & ->). exists loc. split; [reflexivity|].
      apply group_labels_In. apply in_map_iff. exists t. subst loc. auto.
  - unfold sort_values_desc.
    rewrite <- (sumZ_perm _ _ (Permutation_map snd (sort_rows_perm _ _))).
    unfold groupby_sum. rewrite map_map. simpl.
    rewrite <- operating_days_total.
    unfold group_labels, sort_index. rewrite dropna_map_Some.
    apply sumZ_perm. apply Permutation_map. apply Permutation_sym.
    apply sort_rows_perm.
Qed.

(* ------------------------------------------------------------------ *)
(** ** The cross-period tables over series with one row per entity *)

Lemma lookup_In {V : Type} (k : string) (v : V) (s : Series V) :
  NoDup (map fst s) -> In (k, v) s -> lookup k s = Some v.
Proof.
  induction s as [|[k' v'] s IH]; simpl; intros Hnd Hin; [contradiction|].
  inversion Hnd; subst.
  destruct Hin as [E|Hin].
  - inversion E; subst. rewrite String.eqb_refl. reflexivity.
  - destruct (String.eqb_spec k' k) as [->|Hne]; [|auto].
    exfalso. apply H1. apply in_map_iff. exists (k, v). auto.
Qed.

Lemma lookup_None {V : Type} (k : string) (s : Series V) :
  ~ In k (map fst s) -> lookup k s = None.
Proof.
  induction s as [|[k' v'] s IH]; simpl; intros Hout; auto.
  destruct (String.eqb_spec k' k) as [->|Hne]; [tauto|].
  apply IH. tauto.
Qed.

Lemma merge_outer_NoDup (width : nat) (left : list wide_row)
      (right : Series Z) :
  NoDup (map fst left) -> NoDup (map fst right) ->
  NoDup (map fst (merge_outer width left right)).
Proof.
  intros Hl Hr. unfold merge_outer, sort_index.
  eapply Permutation_NoDup; [apply Permutation_map, sort_rows_perm|].
  rewrite map_app. apply NoDup_app.
  - assert (E : map fst
                  (flat_map
                     (fun l : wide_row =>
                        match filter (fun r : string * Z =>
                                        String.eqb (fst r) (fst l)) right with
                        | [] => [(fst l, (snd l ++ [None])%list)]
                        | rs => map (fun r => (fst l,
                                               (snd l ++ [Some (snd r)])%list))
                                    rs
                        end) left)
                = map fst left).
    { clear Hl. induction left as [|l ls IH]; [reflexivity|].
      cbn [flat_map]. rewrite map_app, IH. clear IH.
      assert (H : (length (filter (fun r : string * Z =>
                                     String.eqb (fst r) (fst l)) right)
                   <= 1)%nat).
      { clear -Hr. induction right as [|r rs IHr]; simpl; auto.
        inversion Hr; subst.
        destruct (String.eqb_spec (fst r) (fst l)) as [E|E]; auto.
        simpl.
        destruct (filter (fun r0 : string * Z =>
                            String.eqb (fst r0) (fst l)) rs) as [|r0 s]
          eqn:Ef; auto.
        exfalso. assert (Hin : In r0 (r0 :: s)) by (left; reflexivity).
        rewrite <- Ef in Hin. apply filter_In in Hin.
        destruct Hin as [Hin Hk]. apply String.eqb_eq in Hk.
        apply H1. rewrite E, <- Hk. apply in_map, Hin. }
      destruct (filter (fun r : string * Z => String.eqb (fst r) (fst l))
                       right) as [|r0 [|r1 rs]]; simpl in *; auto.
      exfalso. clear -H. lia. }
    rewrite E. exact Hl.
  - rewrite map_map. simpl.
    clear -Hr. induction right as [|r rs IH]; simpl; [constructor|].
    inversion Hr; subst.
    destruct (negb (mem (fst r) (map fst left))); simpl; auto.
    constructor; auto. intros Hin. apply H1.
    apply in_map_iff in Hin. destruct Hin as (y & E & Hy).
    apply filter_In in Hy. rewrite <- E. apply in_map, Hy.
  - intros k Hk1 Hk2.
    apply in_map_iff in Hk1. destruct Hk1 as (w & <- & Hw).
    apply in_flat_map in Hw. destruct Hw as (l & Hl' & Hw).
    assert (Efst : fst w = fst l).
    { destruct (filter (fun r : string * Z => String.eqb (fst r) (fst l))
                       right) as [|r0 rs].
      - destruct Hw as [<-|[]]. reflexivity.
      - apply in_map_iff in Hw. destruct Hw as (r & <- & _). reflexivity. }
    apply in_map_iff in Hk2. destruct Hk2 as (w' & E' & Hw').
    apply in_map_iff in Hw'. destruct Hw' as (r & <- & Hr').
    apply filter_In in Hr'. destruct Hr' as [_ Hm].
    apply negb_true_iff, mem_not_In in Hm. apply Hm.
    simpl in E'. rewrite E', Efst. apply in_map, Hl'.
Qed.

Lemma merge_all_NoDup (rest : list (Series Z)) :
  forall (width : nat) (acc : list wide_row),
    NoDup (map fst acc) ->
    Forall (fun s => NoDup (map fst s)) rest ->
    NoDup (map fst (merge_all width acc rest)).
Proof.
  induction rest as [|p rest IH]; intros width acc Hacc Hrest; simpl; auto.
  inversion Hrest; subst. apply IH; auto.
  apply merge_outer_NoDup; auto.
Qed.

Lemma sumZ_map_add {A : Type} (f g : A -> Z) (l : list A) :
  sumZ (map (fun x => f x + g x) l) = sumZ (map f l) + sumZ (map g l).
Proof. induction l; simpl; lia. Qed.

Lemma sumZ_exchange {A B : Type} (g : A -> B -> Z) (rows : list A)
      (cols : list B) :
  sumZ (map (fun r => sumZ (map (g r) cols)) rows)
  = sumZ (map (fun c => sumZ (map (fun r => g r c) rows)) cols).
Proof.
  induction rows as [|r rows IH]; simpl.
  - induction cols; simpl; lia.
  - rewrite IH. rewrite <- sumZ_map_add. reflexivity.
Qed.

Lemma sum_lookup (entities : list string) (s : Series Z) :
  NoDup entities -> NoDup (map fst s) -> incl (map fst s) entities ->
  sumZ (map (fun k => fillna0 (lookup k s)) entities) = sumZ (map snd s).
Proof.
  intros He. induction s as [|[k0 v0] s IH]; intros Hs Hincl.
  - simpl. clear. induction entities as [|e es IHe]; simpl; auto.
  - inversion Hs; subst. simpl.
    rewrite (sumZ_split_label _ k0 entities He).
    replace (mem k0 entities) with true
      by (symmetry; apply mem_In, Hincl; left; reflexivity).
    rewrite String.eqb_refl. simpl.
    rewrite <- IH; auto; [|intros k Hk; apply Hincl; right; exact Hk].
    rewrite (sumZ_split_label (fun k => fillna0 (lookup k s)) k0 entities He).
    rewrite (lookup_None k0 s H1). simpl.
    replace (if mem k0 entities then 0 else 0) with 0
      by (destruct (mem k0 entities); reflexivity).
    assert (E : map (fun k => fillna0 (if String.eqb k0 k then Some v0
                                       else lookup k s))
                    (filter (fun y => negb (String.eqb y k0)) entities)
                = map (fun k => fillna0 (lookup k s))
                      (filter (fun y => negb (String.eqb y k0)) entities)).
    { apply map_ext_in. intros k Hk. apply filter_In in Hk.
      destruct Hk as [_ Hk]. apply negb_true_iff in Hk.
      rewrite String.eqb_sym, Hk. reflexivity. }
    rewrite E. lia.
Qed.

(** X14. When every period's series has one row per entity, the combined
    table has one row per entity too; a row's cell for a period is the
    entity's value in that period's series, or 0 when the series does not
    have the entity; and the Total column adds up to the sum of all values
    of all periods, so that nothing is lost or counted twice. *)
Theorem combined_table_one_row_per_entity :
  forall (first : Series Z) (rest : list (Series Z)),
    Forall (fun s => NoDup (map fst s)) (first :: rest) ->
    let table := combine first rest in
    NoDup (map entity table) /\
    (forall r,
        In r table ->
        period_values r
        = map (fun s => fillna0 (lookup (entity r) s)) (first :: rest)) /\
    sumZ (map Total table)
    = sumZ (map (fun s => sumZ (map snd s)) (first :: rest)).
Proof.
  intros first rest Hall table.
  inversion Hall as [|? ? Hfirst Hrest]; subst.
  pose proof (merge_all_ok rest [first] _ (first_period_ok first))
    as [Hkeys Hrows].
  simpl in Hkeys, Hrows.
  assert (Hnd : NoDup (map entity table)).
  { unfold table, combine. rewrite map_map. simpl.
    apply merge_all_NoDup; auto.
    rewrite map_map. simpl. exact Hfirst. }
  assert (Hcells : forall r,
             In r table ->
             period_values r
             = map (fun s => fillna0 (lookup (entity r) s)) (first :: rest)).
  { intros r Hr. unfold table, combine in Hr. apply in_map_iff in Hr.
    destruct Hr as (w & <- & Hw). cbn [period_values entity].
    specialize (Hrows w Hw).
    assert (Hall' : Forall (fun s => NoDup (map fst s)) (first :: rest))
      by exact Hall.
    clear -Hrows Hall'.
    induction Hrows as [|c s cs ss Hc Hcs IH]; [reflexivity|].
    inversion Hall'; subst. cbn [map]. f_equal; [|apply IH; assumption].
    destruct c as [v|]; simpl in Hc.
    - rewrite (lookup_In _ _ _ H1 Hc). reflexivity.
    - rewrite (lookup_None _ _ Hc). reflexivity. }
  split; [exact Hnd|]. split; [exact Hcells|].
  assert (Htot : map Total table
                 = map (fun r => sumZ (map (fun s =>
                                             fillna0 (lookup (entity r) s))
                                          (first :: rest))) table).
  { apply map_ext_in. intros r Hr.
    assert (Et : Total r = sumZ (period_values r)).
    { unfold table, combine in Hr. apply in_map_iff in Hr.
      destruct Hr as (w & <- & _). cbn [Total period_values].
      rewrite fold_left_add. lia. }
    rewrite Et, (Hcells r Hr). reflexivity. }
  rewrite Htot.
  rewrite (sumZ_exchange (fun r s => fillna0 (lookup (entity r) s))).
  f_equal. apply map_ext_in. intros s Hs.
  rewrite <- (sum_lookup (map entity table) s Hnd).
  - rewrite map_map. reflexivity.
  - rewrite Forall_forall in Hall. apply Hall, Hs.
  - intros k Hk. unfold table, combine. rewrite map_map. simpl.
    apply Hkeys. exists s. auto.
Qed.

Lemma combined_table_one_row_per_entity_witness :
  let m03 := [("Ann", 1); ("Bob", 2)] in
  let rest := [[("Bob", 3)]; [("Cy", 4)]; [("Ann", 7); ("Dee", 1)]] in
  Forall (fun s : Series Z => NoDup (map fst s)) (m03 :: rest) /\
  sumZ (map Total (combine m03 rest)) = 18.
Proof.
  intros m03 rest.
  assert (H : Forall (fun s : Series Z => NoDup (map fst s)) (m03 :: rest)).
  { repeat constructor; simpl; intuition discriminate. }
  split; [exact H|].
  destruct (combined_table_one_row_per_entity m03 rest H) as (_ & _ & Ht).
  rewrite Ht. reflexivity.
Defined.

(* ------------------------------------------------------------------ *)
(** ** Slot counts *)

Lemma count_key_map {A K : Type} (key : A -> K) (eqb : K -> K -> bool)
      (k : K) (l : list A) :
  count_key (fun x => x) eqb k (map key l) = count_key key eqb k l.
Proof.
  unfold count_key. induction l as [|a r IH]; simpl; auto.
  destruct (eqb (key a) k); simpl; auto.
Qed.

Lemma sumZ_filter_le {A : Type} (f : A -> Z) (p : A -> bool) (l : list A) :
  Forall (fun x => 0 <= f x) l ->
  0 <= sumZ (map f (filter p l)) <= sumZ (map f l).
Proof.
  induction 1 as [|x r Hx Hr IH]; simpl; [lia|].
  destruct (p x); simpl; lia.
Qed.

Lemma sumZ_drop_duplicates_le {A K : Type} (key : A -> K)
      (eqb : K -> K -> bool) (f : A -> Z) (l : list A) :
  Forall (fun x => 0 <= f x) l ->
  0 <= sumZ (map f (drop_duplicates key eqb l)) <= sumZ (map f l).
Proof.
  induction 1 as [|x r Hx Hr IH]; simpl; [lia|].
  assert (Hd : Forall (fun x => 0 <= f x) (drop_duplicates key eqb r)).
  { apply Forall_forall. intros y Hy. rewrite Forall_forall in Hr.
    apply Hr. clear -Hy. induction r as [|a r IHr]; simpl in *; auto.
    destruct Hy as [Hy|Hy]; auto. apply filter_In in Hy. right.
    apply IHr, Hy. }
  pose proof (sumZ_filter_le f (fun y => negb (eqb (key y) (key x))) _ Hd).
  lia.
Qed.

(** X15. Every tour with a positive operating-day count is counted in
    exactly one (location, time slot) group: the group counts are positive,
    no group appears twice, and the counts add up to the number of such
    tours.  The dominant-slot table keeps part of these groups, so its
    counts add up to at most that number. *)
Theorem slot_counts_cover_active_tours :
  forall tours : list Tours.row,
    let groups := slot_counts (active_tours tours) in
    NoDup (map (fun r => (slot_TourLocation r, slot_TimeSlot r)) groups) /\
    Forall (fun r => 0 < Count r) groups /\
    sumZ (map Count groups) = Z.of_nat (length (active_tours tours)) /\
    0 <= sumZ (map Count (top_slot tours))
    <= Z.of_nat (length (active_tours tours)) /\
    (length (active_tours tours) <= length tours)%nat.
Proof.
  intros tours groups. unfold groups.
  set (active := active_tours tours).
  assert (Hpos : Forall (fun r => 0 < Count r) (slot_counts active)).
  { apply Forall_forall. intros r Hr. apply slot_counts_In in Hr.
    destruct Hr as [Hk ->].
    apply (count_key_pos slot_key pair_eqb pair_eqb_spec) in Hk. lia. }
  assert (Hsum : sumZ (map Count (slot_counts active))
                 = Z.of_nat (length active)).
  { unfold slot_counts. rewrite map_map. simpl.
    rewrite <- (sumZ_perm _ _ (Permutation_map _ (sort_rows_perm _ _))).
    rewrite <- (length_map slot_key active).
    rewrite <- (count_key_total (fun x => x) pair_eqb pair_eqb_spec
                  (map slot_key active)).
    induction (drop_duplicates (fun x => x) pair_eqb (map slot_key active))
      as [|k ks IH]; simpl; auto.
    rewrite IH, count_key_map. lia. }
  split; [|split; [exact Hpos|split; [exact Hsum|split]]].
  - unfold slot_counts. rewrite map_map. simpl.
    eapply Permutation_NoDup.
    + apply Permutation_map. apply sort_rows_perm.
    + assert (E : map (fun x : string * string => (fst x, snd x))
                      (drop_duplicates (fun x => x) pair_eqb
                                       (map slot_key active))
                  = drop_duplicates (fun x => x) pair_eqb
                                    (map slot_key active)).
      { rewrite <- (map_id (drop_duplicates _ _ _)) at 2.
        apply map_ext. intros [a b]. reflexivity. }
      rewrite E. apply (drop_duplicates_id_NoDup _ pair_eqb_spec).
  - unfold top_slot. fold active.
    assert (Hnn : Forall (fun r => 0 <= Count r)
                    (sort_values_desc Count (slot_counts active))).
    { apply Forall_forall. intros r Hr. unfold sort_values_desc in Hr.
      apply sort_rows_In in Hr. rewrite Forall_forall in Hpos.
      specialize (Hpos r Hr). lia. }
    pose proof (sumZ_drop_duplicates_le slot_TourLocation String.eqb Count
                  _ Hnn) as Hle.
    assert (Hs : sumZ (map Count (sort_values_desc Count (slot_counts active)))
                 = sumZ (map Count (slot_counts active))).
    { symmetry. apply sumZ_perm, Permutation_map.
      unfold sort_values_desc. apply sort_rows_perm. }
    rewrite Hs, Hsum in Hle. exact Hle.
  - unfold active, active_tours. apply filter_length_le.
Qed.

(* ------------------------------------------------------------------ *)
(** ** The occupancy table of a period *)

Lemma lookup_Some_In {V : Type} (k : string) (v : V) (s : Series V) :
  lookup k s = Some v -> In (k, v) s.
Proof.
  induction s as [|[k' v'] s IH]; simpl; [discriminate|].
  destruct (String.eqb_spec k' k) as [->|Hne].
  - intros E. inversion E. auto.
  - auto.
Qed.

Lemma lookup_None_iff {V : Type} (k : string) (s : Series V) :
  lookup k s = None <-> ~ In k (map fst s).
Proof.
  split; [|apply lookup_None].
  induction s as [|[k' v'] s IH]; simpl; [tauto|].
  destruct (String.eqb_spec k' k) as [->|Hne]; [discriminate|].
  intros H [E|Hin]; [contradiction|]. exact (IH H Hin).
Qed.

Lemma occupied_days_names bookings tours guides name :
  In name (map fst (occupied_days (bookings_merged bookings tours guides))) <->
  exists d, booked_on bookings guides name d.
Proof.
  unfold occupied_days, sort_values_desc. split.
  - intros H. apply in_map_iff in H. destruct H as ([k c] & E & H).
    simpl in E. subst k. apply sort_rows_In in H.
    apply groupby_nunique_In in H. destruct H as [H _].
    apply in_map_iff in H. destruct H as (r & E & Hr).
    exists (BookingDate_of r).
    apply (bookings_merged_guide_rows bookings tours guides).
    exists r. auto.
  - intros (d & Hb).
    apply (bookings_merged_guide_rows bookings tours guides) in Hb.
    destruct Hb as (r & Hr & En & _).
    apply in_map_iff. eexists (name, _). split; [reflexivity|].
    apply sort_rows_In. apply groupby_nunique_In. split; [|reflexivity].
    apply in_map_iff. exists r. auto.
Qed.

Lemma occupied_days_NoDup bookings tours guides :
  NoDup (map fst (occupied_days (bookings_merged bookings tours guides))).
Proof.
  unfold occupied_days, sort_values_desc.
  eapply Permutation_NoDup; [apply Permutation_map, sort_rows_perm|].
  rewrite groupby_nunique_labels. apply group_labels_NoDup.
Qed.

(** X16. The occupancy table of a period has one row per guide name that
    has a booking or an availability slot.  A guide name without a booking
    has a missing DaysOccupied, one without an availability slot a missing
    AvailableDays, and in both cases the occupancy is undefined; the counts
    that are present are not negative. *)
Theorem occupancy_table_rows :
  forall (bookings : list Bookings.row) (tours : list Tours.row)
         (guides : list Guides.row) (availability : list Availability.row),
    let table := occupancy_table bookings tours guides availability in
    NoDup (map stats_GuideName table) /\
    (forall name,
        In name (map stats_GuideName table) <->
        (exists d, booked_on bookings guides name d) \/
        (exists d, has_slot_on guides availability name d)) /\
    (forall r,
        In r table ->
        (DaysOccupied r = None <->
         ~ exists d, booked_on bookings guides (stats_GuideName r) d) /\
        (AvailableDays r = None <->
         ~ exists d, has_slot_on guides availability (stats_GuideName r) d) /\
        (DaysOccupied r = None \/ AvailableDays r = None ->
         OccupancyPct r = FNaN) /\
        (forall d, DaysOccupied r = Some d -> 0 <= d) /\
        (forall a, AvailableDays r = Some a -> 0 <= a)).
Proof.
  intros bookings tours guides availability table.
  unfold table, occupancy_table.
  set (occ := occupied_days (bookings_merged bookings tours guides)).
  set (av := available_days_per_guide guides availability).
  pose proof (stats_sorted_perm (stats occ av)) as Hperm.
  destruct (available_days_by_name guides availability)
    as (_ & _ & Hav & Hcount & _). fold av in Hav, Hcount.
  assert (Hnames : forall name,
             In name (map stats_GuideName (stats occ av)) <->
             In name (map fst occ) \/ In name (map fst av)).
  { intros name. apply stats_names. }
  split; [|split].
  - eapply Permutation_NoDup; [apply Permutation_map, Hperm|].
    rewrite stats_labels. apply stats_index_NoDup.
    apply (occupied_days_NoDup bookings tours guides).
  - intros name. split.
    + intros H.
      apply (Permutation_in _ (Permutation_map _ (Permutation_sym Hperm)))
        in H.
      apply Hnames in H. destruct H as [H|H].
      * left. apply (occupied_days_names bookings tours guides), H.
      * right. apply Hav, H.
    + intros H. apply (Permutation_in _ (Permutation_map _ Hperm)).
      apply Hnames. destruct H as [H|H].
      * left. apply (occupied_days_names bookings tours guides), H.
      * right. apply Hav, H.
  - intros r Hr. apply (Permutation_in _ (Permutation_sym Hperm)) in Hr.
    unfold stats in Hr. apply in_map_iff in Hr.
    destruct Hr as (g & <- & _). cbn [DaysOccupied AvailableDays
                                        OccupancyPct stats_GuideName].
    split; [|split; [|split; [|split]]].
    + rewrite lookup_None_iff.
      pose proof (occupied_days_names bookings tours guides g) as Hn.
      fold occ in Hn. tauto.
    + rewrite lookup_None_iff. pose proof (Hav g) as Hn. tauto.
    + rewrite occupancy_pct_cases. intros [E|E]; rewrite E.
      * reflexivity.
      * destruct (lookup g occ); reflexivity.
    + intros d E. apply lookup_Some_In in E.
      apply (occupied_days_rows bookings guides tours) in E.
      destruct E as (_ & dates & _ & -> & _). lia.
    + intros a E. apply lookup_Some_In in E.
      destruct (Hcount _ _ E) as (dates & _ & -> & _). lia.
Qed.

(* ------------------------------------------------------------------ *)
(** ** Bookings that all have a tour *)

(** X17. When no two tours share an id, every booking's TourID is the id of
    a tour, and the table is long enough for every tour name, the counts of
    the top-tours table add up to the number of bookings: no booking is
    left out. *)
Theorem top_tours_counts_every_booking :
  forall (n : nat) (bookings : list Bookings.row) (tours : list Tours.row),
    NoDup (map Tours.id tours) ->
    (forall b, In b bookings ->
               exists t, In t tours /\ Tours.id t = Bookings.TourID b) ->
    (length (value_counts (map TourName_of (bookings_tours bookings tours)))
     <= n)%nat ->
    sumZ (map snd (top_tours n (bookings_tours bookings tours)))
    = Z.of_nat (length bookings).
Proof.
  intros n bookings tours Hnd Hall Hn. unfold top_tours.
  destruct (top_n_complete TourName_of (bookings_tours bookings tours) n Hn)
    as [_ ->].
  rewrite <- (bookings_tours_length bookings tours Hnd). f_equal.
  assert (Hsome : forall r, In r (bookings_tours bookings tours) ->
                            TourName_of r <> None).
  { intros [b t] Hr. apply bookings_tours_In in Hr. destruct Hr as [Hb Ht].
    destruct t as [tr|]; [discriminate|]. exfalso.
    destruct (Hall b Hb) as (t & Hin & E). exact (Ht t Hin E). }
  revert Hsome. generalize (bookings_tours bookings tours).
  intros l Hl. induction l as [|r l IH]; [reflexivity|].
  simpl. destruct (TourName_of r) eqn:E.
  - simpl. f_equal. apply IH. intros r' Hr'. apply Hl. right. exact Hr'.
  - exfalso. apply (Hl r); auto. left. reflexivity.
Qed.

Lemma top_tours_counts_every_booking_witness :
  let bookings := [booking "1" "G1" 1; booking "1" "G2" 1;
                   booking "2" "G1" 2] in
  let tours := [tour "1" "T1" "Rome" "9" "12" 1 1 0 0 0 0 0;
                tour "2" "T2" "Rome" "9" "12" 1 1 0 0 0 0 0] in
  sumZ (map snd (top_tours 10 (bookings_tours bookings tours)))
  = Z.of_nat (length bookings).
Proof.
  intros bookings tours.
  apply (top_tours_counts_every_booking 10 bookings tours).
  - simpl. repeat constructor; simpl; intuition discriminate.
  - intros b [<-|[<-|[<-|[]]]].
    + exists (tour "1" "T1" "Rome" "9" "12" 1 1 0 0 0 0 0).
      split; [left; reflexivity|reflexivity].
    + exists (tour "1" "T1" "Rome" "9" "12" 1 1 0 0 0 0 0).
      split; [left; reflexivity|reflexivity].
    + exists (tour "2" "T2" "Rome" "9" "12" 1 1 0 0 0 0 0).
      split; [right; left; reflexivity|reflexivity].
  - vm_compute. lia.
Defined.
